(** * protest-dash: change reports, the batch commit and the edit buffer

    A shallow embedding of the server routes of [server/index.js]
    ([generateChangeReport], [GET /api/file/:name], [POST /api/batch]) and of
    the client edit buffer of [web/src/App.tsx], followed by the properties
    proved about them.

    Conventions of the embedding.
    - A JavaScript value that came out of [JSON.parse] is a [value].  An
      object is the ordered list of its own properties; a number is carried
      by the text that [String(n)] prints for it: the decimal text of a
      finite number, which identifies it up to the sign of zero (the only
      thing the code can observe of a number: truthiness, [===] and its JSON
      text), or [Infinity] and [-Infinity], which [JSON.parse] reads from a
      literal out of range such as [1e400].
    - A string is a Rocq [string]; one character stands for one code unit.
      The two non-ASCII characters of the report templates are kept as the
      bytes of the source file.
    - [undefined] is [None] of an [option value].
    - A JavaScript exception is the [Throw] outcome. *)

From Stdlib Require Import String Ascii List ZArith Lia Bool DecimalString Decimal DecimalNat.
From stdpp Require Import gmap strings list.

Open Scope string_scope.
Open Scope list_scope.

(* String concatenation computes on a literal prefix. *)
#[local] Arguments String.append !_ _ / : simpl nomatch.

(** ** JSON values *)

Unset Elimination Schemes.
Inductive value : Type :=
| JNull
| JBool (b : bool)
| JNum (text : string)
| JStr (s : string)
| JArr (items : list value)
| JObj (props : list (string * value)).
Set Elimination Schemes.

(** Outcome of a computation that may throw. *)
Inductive outcome (E A : Type) : Type :=
| Return (a : A)
| Throw (e : E).
Arguments Return {E A} a.
Arguments Throw {E A} e.

Definition obind {E A B} (m : outcome E A) (k : A -> outcome E B) : outcome E B :=
  match m with
  | Return a => k a
  | Throw e => Throw e
  end.

#[global] Instance outcome_bind {E} : MBind (outcome E) :=
  fun A B k m => obind m k.

(** The only exception the report generator can raise. *)
Inductive js_error : Type := TypeError.

(** Decimal text of a natural number, as a template literal prints a count. *)
Definition dec (n : nat) : string := NilEmpty.string_of_uint (Nat.to_uint n).

(** [parts.join(sep)] *)
Fixpoint join (sep : string) (parts : list string) : string :=
  match parts with
  | [] => EmptyString
  | [p] => p
  | p :: rest => p +:+ sep +:+ join sep rest
  end.

(** [s.split(c)]: the segments between occurrences of [c]; never empty. *)
Fixpoint split (c : ascii) (s : string) : list string :=
  match s with
  | EmptyString => [EmptyString]
  | String a r =>
      if Ascii.eqb a c then EmptyString :: split c r
      else match split c r with
           | seg :: segs => String a seg :: segs
           | [] => [String a EmptyString]
           end
  end.

(** [parts.pop()] of a non-empty array of strings: its last element. *)
Definition pop (parts : list string) : string := List.last parts EmptyString.

(** [/\//.test(s)] *)
Fixpoint has_slash (s : string) : bool :=
  match s with
  | EmptyString => false
  | String a r => Ascii.eqb a "/" || has_slash r
  end.

(** *** [JSON.stringify] with one argument *)

Definition dquote : string := String "034" EmptyString.

Definition hex_digit (n : nat) : ascii :=
  nth n (list_ascii_of_string "0123456789abcdef") "0"%char.

(** The escape of one character inside a JSON string. *)
Definition escape_char (c : ascii) : string :=
  let n := nat_of_ascii c in
  if (n =? 34)%nat then "\" +:+ dquote
  else if (n =? 92)%nat then "\\"
  else if (n =? 8)%nat then "\b"
  else if (n =? 12)%nat then "\f"
  else if (n =? 10)%nat then "\n"
  else if (n =? 13)%nat then "\r"
  else if (n =? 9)%nat then "\t"
  else if (n <? 32)%nat then
    "\u00" +:+ String (hex_digit (n / 16)) (String (hex_digit (n mod 16)) EmptyString)
  else String c EmptyString.

Fixpoint escape (s : string) : string :=
  match s with
  | EmptyString => EmptyString
  | String c r => escape_char c +:+ escape r
  end.

Definition quote (s : string) : string := dquote +:+ escape s +:+ dquote.

(** The number is not finite. *)
Definition non_finite (text : string) : bool :=
  String.eqb text "Infinity" || String.eqb text "-Infinity".

(** The JSON text of a number: [null] for a number that is not finite. *)
Definition number_text (text : string) : string :=
  if non_finite text then "null" else text.

Fixpoint stringify (v : value) : string :=
  match v with
  | JNull => "null"
  | JBool true => "true"
  | JBool false => "false"
  | JNum text => number_text text
  | JStr s => quote s
  | JArr items => "[" +:+ join "," (map stringify items) +:+ "]"
  | JObj props =>
      "{" +:+ join "," (map (fun kv => quote (fst kv) +:+ ":" +:+ stringify (snd kv)) props)
          +:+ "}"
  end.

(** [JSON.stringify(x)] where [x] may be [undefined]: the result is then
    [undefined] as well. *)
Definition JSON_stringify (x : option value) : option string :=
  match x with
  | Some v => Some (stringify v)
  | None => None
  end.

(** [a !== b] on two results of [JSON.stringify]. *)
Definition text_neq (a b : option string) : bool :=
  match a, b with
  | Some s, Some t => negb (String.eqb s t)
  | None, None => false
  | _, _ => true
  end.

(** *** [JSON.stringify(content, null, 4)], the text of a blob *)

Fixpoint spaces (n : nat) : string :=
  match n with
  | O => EmptyString
  | S k => " " +:+ spaces k
  end.

Definition newline : string := String "010" EmptyString.

Fixpoint stringify_indent (depth : nat) (v : value) : string :=
  match v with
  | JArr [] => "[]"
  | JArr items =>
      let pad := newline +:+ spaces (4 * S depth) in
      "[" +:+ pad +:+ join ("," +:+ pad) (map (stringify_indent (S depth)) items)
          +:+ newline +:+ spaces (4 * depth) +:+ "]"
  | JObj [] => "{}"
  | JObj props =>
      let pad := newline +:+ spaces (4 * S depth) in
      "{" +:+ pad
          +:+ join ("," +:+ pad)
                (map (fun kv => quote (fst kv) +:+ ": " +:+ stringify_indent (S depth) (snd kv))
                   props)
          +:+ newline +:+ spaces (4 * depth) +:+ "}"
  | _ => stringify v
  end.

(** *** The operators the report generator applies to values *)

Definition isArray (v : value) : bool :=
  match v with JArr _ => true | _ => false end.

(** [typeof v === 'object'] *)
Definition typeof_object (v : value) : bool :=
  match v with JNull | JArr _ | JObj _ => true | _ => false end.

(** [ToBoolean] *)
Definition truthy (v : value) : bool :=
  match v with
  | JNull => false
  | JBool b => b
  | JNum text => negb (String.eqb text "0")
  | JStr s => negb (String.eqb s EmptyString)
  | JArr _ | JObj _ => true
  end.

(** [a || b] where [a] may be [undefined]. *)
Definition js_or (a : option value) (b : value) : value :=
  match a with
  | Some v => if truthy v then v else b
  | None => b
  end.

(** Own property of an object built by [JSON.parse]. *)
Fixpoint own (k : string) (props : list (string * value)) : option value :=
  match props with
  | [] => None
  | (k', v) :: rest => if String.eqb k' k then Some v else own k rest
  end.

(** [v.name] for the property names the server reads ([title], [sections],
    [length]): reading a property of [null] throws, an array or a string has
    a [length], an object has its own properties, and everything else is
    [undefined]. *)
Definition get_prop (v : value) (name : string) : outcome js_error (option value) :=
  match v with
  | JNull => Throw TypeError
  | JObj props => Return (own name props)
  | JArr items =>
      Return (if String.eqb name "length" then Some (JNum (dec (length items))) else None)
  | JStr s =>
      Return (if String.eqb name "length" then Some (JNum (dec (String.length s))) else None)
  | JBool _ | JNum _ => Return None
  end.

(** [v[i]] for a numeric index, on a value that is not [null]. *)
Definition get_index (v : value) (i : nat) : option value :=
  match v with
  | JArr items => items !! i
  | JStr s =>
      match String.get i s with
      | Some c => Some (JStr (String c EmptyString))
      | None => None
      end
  | JObj props => own (dec i) props
  | _ => None
  end.

(** [a !== b].  The two operands come from two different parsed documents,
    so two arrays or objects are never the same reference. *)
Definition strict_neq (a b : option value) : bool :=
  match a, b with
  | None, None => false
  | Some JNull, Some JNull => false
  | Some (JBool x), Some (JBool y) => negb (Bool.eqb x y)
  | Some (JNum x), Some (JNum y) => negb (String.eqb x y)
  | Some (JStr x), Some (JStr y) => negb (String.eqb x y)
  | _, _ => true
  end.

(** [String(v)], as a template literal converts a value.  An object with an
    own [toString] property (never a function after [JSON.parse]) cannot be
    converted to a primitive. *)
Fixpoint to_string (v : value) : outcome js_error string :=
  match v with
  | JNull => Return "null"
  | JBool true => Return "true"
  | JBool false => Return "false"
  | JNum text => Return text
  | JStr s => Return s
  | JArr items =>
      (fix elems (l : list value) : outcome js_error string :=
         match l with
         | [] => Return EmptyString
         | x :: rest =>
             sx ← (match x with JNull => Return EmptyString | _ => to_string x end);
             match rest with
             | [] => Return sx
             | _ => srest ← elems rest; Return (sx +:+ "," +:+ srest)
             end
         end) items
  | JObj props =>
      match own "toString" props with
      | Some _ => Throw TypeError
      | None => Return "[object Object]"
      end
  end.

Definition template (x : option value) : outcome js_error string :=
  match x with
  | Some v => to_string v
  | None => Return "undefined"
  end.

(** ** The change report generator ([generateChangeReport]) *)

(** [count === 1 ? one : many] *)
Definition plural (count : nat) (one many : string) : string :=
  if (count =? 1)%nat then one else many.

(** The loop counting the indices [i < oldCount] at which the two entries
    have different JSON texts. *)
Definition count_modified (oldContent newContent : list value) : nat :=
  length (filter (fun i => text_neq (JSON_stringify (oldContent !! i))
                                    (JSON_stringify (newContent !! i)) = true)
                 (seq 0 (length oldContent))).

Definition array_report (fileName : string) (oldContent newContent : list value)
  : list string :=
  let oldCount := length oldContent in
  let newCount := length newContent in
  if negb (oldCount =? newCount)%nat then
    ("  - " +:+ fileName +:+ ": " +:+ dec oldCount +:+ " → " +:+ dec newCount +:+ " entries")
    :: (if (oldCount <? newCount)%nat then
          "    • Added " +:+ dec (newCount - oldCount) +:+ " new "
             +:+ plural (newCount - oldCount) "entry" "entries"
        else
          "    • Removed " +:+ dec (oldCount - newCount) +:+ " "
             +:+ plural (oldCount - newCount) "entry" "entries")
    :: []
  else
    let modified := count_modified oldContent newContent in
    if (0 <? modified)%nat then
      ["  - " +:+ fileName +:+ ": Modified " +:+ dec modified +:+ " "
         +:+ plural modified "entry" "entries"]
    else
      ["  - " +:+ fileName +:+ ": No changes detected"].

(** [oldSections.filter((oldSection, idx) => ...)]: only an array has a
    [filter] method. *)
Definition modified_sections (oldSections newSections : value)
  : outcome js_error (list value) :=
  match oldSections with
  | JArr items =>
      Return (map snd
                (filter (fun p => text_neq (JSON_stringify (Some (snd p)))
                                           (JSON_stringify (get_index newSections (fst p))) = true)
                        (imap (fun idx oldSection => (idx, oldSection)) items)))
  | _ => Throw TypeError
  end.

Definition object_report (fileName : string) (oldContent newContent : value)
  : outcome js_error (list string) :=
  t1 ← get_prop oldContent "title";
  let oldTitle := js_or t1 (JStr EmptyString) in
  t2 ← get_prop newContent "title";
  let newTitle := js_or t2 (JStr EmptyString) in
  s1 ← get_prop oldContent "sections";
  let oldSections := js_or s1 (JArr []) in
  s2 ← get_prop newContent "sections";
  let newSections := js_or s2 (JArr []) in
  let changes0 := if strict_neq (Some oldTitle) (Some newTitle) then ["title"] else [] in
  oldLen ← get_prop oldSections "length";
  newLen ← get_prop newSections "length";
  changes ←
    (if strict_neq oldLen newLen then
       a ← template oldLen;
       b ← template newLen;
       Return (changes0 ++ [a +:+ " → " +:+ b +:+ " sections"])%list
     else
       modifiedSections ← modified_sections oldSections newSections;
       let k := length modifiedSections in
       if (0 <? k)%nat then
         Return (changes0 ++ [dec k +:+ " modified " +:+ plural k "section" "sections"])%list
       else Return changes0);
  if (0 <? length changes)%nat then
    Return ["  - " +:+ fileName +:+ ": " +:+ join ", " changes]
  else
    Return ["  - " +:+ fileName +:+ ": No changes detected"].

Definition generateChangeReport (oldContent newContent : value) (filePath : string)
  : outcome js_error (list string) :=
  let fileName := pop (split "/" filePath) in
  report ←
    (if isArray oldContent && isArray newContent then
       match oldContent, newContent with
       | JArr o, JArr n => Return (array_report fileName o n)
       | _, _ => Return []
       end
     else if typeof_object oldContent && typeof_object newContent then
       object_report fileName oldContent newContent
     else Return []);
  Return (if (0 <? length report)%nat then report else ["  - " +:+ fileName +:+ ": Updated"]).

(** ** The remote content store

    The store is an external Git hosting service; the repository holds no
    code of it.  What follows is its object-level interface as sections 4.1
    and 6 of the specification describe it. *)

(** Modelled from the spec: a commit points to a tree and to its parents. *)
Record commit : Type := Commit {
  commit_tree : nat;
  commit_parents : list nat;
  commit_message : string }.

(** Modelled from the spec: the state of the store.  Object ids are drawn
    from a counter, so that no deduplication is assumed; a tree is a flat map
    from paths to blob ids; [branch] is the commit the target branch points
    to. *)
Record store : Type := Store {
  branch : nat;
  blobs : gmap nat string;
  trees : gmap nat (gmap string nat);
  commits : gmap nat commit;
  next_id : nat }.

(** Modelled from the spec: the requests of section 6, in the order the
    batch route uses them, and their replies. *)
Inductive request : Type :=
| GetRef
| GetCommit (id : nat)
| GetContents (path : string)
| PostBlob (content : string)
| PostTree (base_tree : nat) (tree : list (string * nat))
| PostCommit (message : string) (tree : nat) (parents : list nat)
| PatchRef (sha : nat) (force : bool).

Inductive reply : Type :=
| RSha (sha : nat)
| RCommit (tree : nat)
| RContents (sha : nat) (text : string)
| RDone.

(** The base tree with the listed paths replaced or added. *)
Definition tree_with (base : gmap string nat) (entries : list (string * nat))
  : gmap string nat :=
  foldl (fun t e => <[fst e := snd e]> t) base entries.

(** [a] is [b] or one of its ancestors, searching at most [fuel] parent
    links deep. *)
Fixpoint is_ancestor (fuel : nat) (cs : gmap nat commit) (a b : nat) : bool :=
  (a =? b)%nat ||
  match fuel with
  | O => false
  | S k =>
      match cs !! b with
      | Some c => existsb (is_ancestor k cs a) (commit_parents c)
      | None => false
      end
  end.

(** Modelled from the spec: a non-forced update is accepted when the branch
    has not moved away, that is when the current tip is the new commit or an
    ancestor of it. *)
Definition fast_forward (st : store) (new : nat) : bool :=
  match commits st !! new with
  | Some _ => is_ancestor (S (size (commits st))) (commits st) (branch st) new
  | None => false
  end.

(** The text of [path] in the tree of commit [c]. *)
Definition file_at (st : store) (c : nat) (path : string) : option (nat * string) :=
  cm ← commits st !! c;
  t ← trees st !! commit_tree cm;
  b ← t !! path;
  text ← blobs st !! b;
  Some (b, text).

(** Modelled from the spec: one request served by the store, giving the
    reply or an error status, and the store afterwards.  Reads change
    nothing; a blob, a tree (the base tree with the listed paths replaced or
    added) and a commit are created under a fresh id; the update of the
    branch is conditional unless forced. *)
Definition serve (st : store) (r : request) : outcome nat reply * store :=
  match r with
  | GetRef => (Return (RSha (branch st)), st)
  | GetCommit id =>
      match commits st !! id with
      | Some c => (Return (RCommit (commit_tree c)), st)
      | None => (Throw 404, st)
      end
  | GetContents path =>
      match file_at st (branch st) path with
      | Some (b, text) => (Return (RContents b text), st)
      | None => (Throw 404, st)
      end
  | PostBlob content =>
      (Return (RSha (next_id st)),
       Store (branch st) (<[next_id st := content]> (blobs st)) (trees st) (commits st)
             (S (next_id st)))
  | PostTree base entries =>
      match trees st !! base with
      | Some t =>
          (Return (RSha (next_id st)),
           Store (branch st) (blobs st) (<[next_id st := tree_with t entries]> (trees st))
                 (commits st) (S (next_id st)))
      | None => (Throw 422, st)
      end
  | PostCommit message tree parents =>
      match trees st !! tree with
      | Some _ =>
          (Return (RSha (next_id st)),
           Store (branch st) (blobs st) (trees st)
                 (<[next_id st := Commit tree parents message]> (commits st))
                 (S (next_id st)))
      | None => (Throw 422, st)
      end
  | PatchRef sha force =>
      if force || fast_forward st sha then
        (Return RDone, Store sha (blobs st) (trees st) (commits st) (next_id st))
      else (Throw 422, st)
  end.

(** ** Requests issued by the server

    The environment's [script] says, request after request, whether the
    request reaches the store and is answered ([Healthy]) or fails on the way
    with an error status or without any response; a request that fails this
    way leaves the store as it was.  Every request issued is appended to the
    [log]. *)

Inductive fault : Type :=
| Healthy
| HttpError (status : nat)
| NoResponse.

(** What a [catch] clause of the server receives. *)
Inductive failure : Type :=
| Http (status : nat)
| Network
| SyntaxError
| Raised (e : js_error).

Record world : Type := World {
  remote : store;
  script : list fault;
  log : list request }.

Definition handler (A : Type) : Type := world -> outcome failure A * world.

#[global] Instance handler_ret : MRet handler := fun A a w => (Return a, w).

#[global] Instance handler_bind : MBind handler := fun A B k m w =>
  match m w with
  | (Return a, w') => k a w'
  | (Throw e, w') => (Throw e, w')
  end.

Definition throw {A} (e : failure) : handler A := fun w => (Throw e, w).

(** [try { m } catch (err) { h err }] *)
Definition try_catch {A} (m : handler A) (h : failure -> handler A) : handler A :=
  fun w =>
    match m w with
    | (Return a, w') => (Return a, w')
    | (Throw e, w') => h e w'
    end.

(** [await axios.get/post/patch(...)] *)
Definition call (r : request) : handler reply := fun w =>
  let issued st := World st (tail (script w)) (log w ++ [r]) in
  match head (script w) with
  | Some (HttpError status) => (Throw (Http status), issued (remote w))
  | Some NoResponse => (Throw Network, issued (remote w))
  | _ =>
      match serve (remote w) r with
      | (Return rep, st) => (Return rep, issued st)
      | (Throw status, st) => (Throw (Http status), issued st)
      end
  end.

(** [await Promise.all(items.map(async ...))]: every request is issued; the
    result is the list of results, or the first failure. *)
Fixpoint all {A} (ms : list (handler A)) : handler (list A) := fun w =>
  match ms with
  | [] => (Return [], w)
  | m :: rest =>
      let (r, w1) := m w in
      let (rs, w2) := all rest w1 in
      (match r, rs with
       | Return a, Return l => Return (a :: l)
       | Throw e, _ => Throw e
       | Return _, Throw e => Throw e
       end, w2)
  end.

(** ** The server *)

Record user_record : Type := UserRecord {
  rec_id : string;
  rec_admin : bool;
  rec_username : option string;
  rec_anonHash : option string }.

(** [req.user], as the session stores it. *)
Record session_user : Type := SessionUser {
  user_id : string;
  user_username : string }.

(** What the server reads from its surroundings: the JSON parser of the
    runtime, the development switch and the parsed users file. *)
Record config : Type := Config {
  JSON_parse : string -> option value;
  DEV_BYPASS_AUTH : bool;
  loadUsersFile : list user_record }.

Inductive body : Type :=
| FileBody (sha : option nat) (content : value) (notFound : bool)
| BatchOk (commitSha : nat)
| ErrorBody (error : string) (details : option failure).

(** [res.status(status).json(body)] *)
Record response : Type := Response {
  status : nat;
  json : body }.

Definition FILE_DIR : string := "data".

(** [err.response?.status || 500] *)
Definition status_of (err : failure) : nat :=
  match err with
  | Http s => if (s =? 0)%nat then 500 else s
  | _ => 500
  end.

(** [req.isAuthenticated()]: the session carries a user. *)
Definition isAuthenticated (user : option session_user) : bool :=
  match user with Some _ => true | None => false end.

Definition requireAuth (cfg : config) (user : option session_user)
    (next : handler response) : handler response :=
  if DEV_BYPASS_AUTH cfg then next
  else if isAuthenticated user then next
  else mret (Response 401 (ErrorBody "Unauthorized" None)).

Definition getUserRecord (cfg : config) (discordId : string) : option user_record :=
  List.find (fun u => String.eqb (rec_id u) discordId
                      || String.eqb "[object Object]" discordId)
            (loadUsersFile cfg).

Definition fetchJsonFile (cfg : config) (path : string) : handler (nat * value) :=
  rep ← call (GetContents path);
  match rep with
  | RContents sha text =>
      match JSON_parse cfg text with
      | Some parsed => mret (sha, parsed)
      | None => throw SyntaxError
      end
  | _ => throw (Raised TypeError)
  end.

(** The skeleton substituted for an absent file, by file name. *)
Definition defaultContent (name : string) : value :=
  if String.eqb name "locations.json" then JArr []
  else if String.eqb name "times.json" then JArr []
  else if String.eqb name "repeating-events.json" then JArr []
  else if String.eqb name "live.json" then JArr []
  else JObj [("title", JStr EmptyString); ("sections", JArr [])].

(** [app.get('/api/file/:name', requireAuth, ...)] *)
Definition get_file (cfg : config) (user : option session_user) (name : string)
  : handler response :=
  requireAuth cfg user
    (try_catch
       (if String.eqb name EmptyString || has_slash name then
          mret (Response 400 (ErrorBody "Invalid file name" None))
        else
          data ← fetchJsonFile cfg (FILE_DIR +:+ "/" +:+ name);
          mret (Response 200 (FileBody (Some (fst data)) (snd data) false)))
       (fun err =>
          if (status_of err =? 404)%nat then
            mret (Response 200 (FileBody None (defaultContent name) true))
          else
            mret (Response (status_of err) (ErrorBody "Failed to fetch file" (Some err))))).

(** [app.get('/api/about', requireAuth, ...)], the route of the first
    single-file editor, kept for older clients: it has no default. *)
Definition get_about (cfg : config) (user : option session_user) : handler response :=
  requireAuth cfg user
    (try_catch
       (data ← fetchJsonFile cfg (FILE_DIR +:+ "/about.json");
        mret (Response 200 (FileBody (Some (fst data)) (snd data) false)))
       (fun err =>
          mret (Response (status_of err)
                         (ErrorBody "Failed to fetch about.json" (Some err))))).

Record file_entry : Type := FileEntry {
  path : string;
  content : value }.

(** The old content of one file of the batch: what the store holds, or the
    skeleton for its name when anything at all goes wrong. *)
Definition oldContent (cfg : config) (file : file_entry) : handler value :=
  try_catch
    (data ← fetchJsonFile cfg (path file); mret (snd data))
    (fun _ =>
       let fileName := pop (split "/" (path file)) in
       if String.eqb fileName "locations.json" || String.eqb fileName "times.json"
          || String.eqb fileName "repeating-events.json" || String.eqb fileName "live.json"
       then mret (JArr [])
       else mret (JObj [("title", JStr EmptyString); ("sections", JArr [])])).

(** The loop over [files] that collects the report lines. *)
Fixpoint changeReports (files : list file_entry) (oldContents : list value)
  : outcome js_error (list string) :=
  match files, oldContents with
  | [], _ => Return []
  | file :: files', old :: olds' =>
      report ← generateChangeReport old (content file) (path file);
      rest ← changeReports files' olds';
      Return (report ++ rest)%list
  | file :: files', [] =>
      rest ← changeReports files' [];
      Return (("  - " +:+ pop (split "/" (path file)) +:+ ": Updated") :: rest)
  end.

Definition lift {A} (o : outcome js_error A) : handler A := fun w =>
  match o with
  | Return a => (Return a, w)
  | Throw e => (Throw (Raised e), w)
  end.

Definition createBlob (file : file_entry) : handler (string * nat) :=
  rep ← call (PostBlob (stringify_indent 0 (content file)));
  match rep with
  | RSha sha => mret (path file, sha)
  | _ => throw (Raised TypeError)
  end.

(** [a || b] on strings that may be [undefined]. *)
Definition or_text (a : option string) (b : string) : string :=
  match a with
  | Some s => if String.eqb s EmptyString then b else s
  | None => b
  end.

Definition fullCommitMessage (commitMessage : option string) (anon : string)
    (changeReports : list string) : string :=
  let m := or_text commitMessage "Update files via dashboard" in
  let m := m +:+ newline +:+ newline +:+ "User: " +:+ anon in
  if (0 <? length changeReports)%nat then
    m +:+ newline +:+ newline +:+ "Changes:" +:+ newline +:+ join newline changeReports
  else m.

(** The anonymous tag of the requesting user: the hash stored for the
    session's user id in the users file, or ['unknown']. *)
Definition actor_tag (cfg : config) (user : option session_user) : string :=
  let userId := or_text (user_id <$> user) "unknown" in
  let rec := getUserRecord cfg userId in
  or_text (rec ≫= rec_anonHash) "unknown".

Definition reply_sha (rep : reply) : handler nat :=
  match rep with
  | RSha sha => mret sha
  | _ => throw (Raised TypeError)
  end.

Definition reply_tree (rep : reply) : handler nat :=
  match rep with
  | RCommit tree => mret tree
  | _ => throw (Raised TypeError)
  end.

(** Steps 1 to 5 of the batch route: everything up to and including the
    creation of the commit; the result is the id of the new commit. *)
Definition prepare_commit (cfg : config) (user : option session_user)
    (files : list file_entry) (commitMessage : option string) : handler nat :=
  let anon := actor_tag cfg user in
  refResp ← call GetRef;
  latestCommitSha ← reply_sha refResp;
  commitResp ← call (GetCommit latestCommitSha);
  baseTreeSha ← reply_tree commitResp;
  oldContents ← all (map (oldContent cfg) files);
  reports ← lift (changeReports files oldContents);
  blobs ← all (map createBlob files);
  treeResp ← call (PostTree baseTreeSha blobs);
  newTreeSha ← reply_sha treeResp;
  newCommitResp ← call (PostCommit (fullCommitMessage commitMessage anon reports)
                                    newTreeSha [latestCommitSha]);
  reply_sha newCommitResp.

(** [app.post('/api/batch', requireAuth, ...)]: the checks, steps 1 to 5,
    then step 6, the update of the branch, and the answer. *)
Definition post_batch (cfg : config) (user : option session_user)
    (files : list file_entry) (commitMessage : option string) : handler response :=
  requireAuth cfg user
    (try_catch
       (if (length files =? 0)%nat then
          mret (Response 400 (ErrorBody "No files provided" None))
        else
          newCommitSha ← prepare_commit cfg user files commitMessage;
          _ ← call (PatchRef newCommitSha false);
          mret (Response 200 (BatchOk newCommitSha)))
       (fun err =>
          mret (Response (status_of err) (ErrorBody "Batch update failed" (Some err))))).


Definition is_patch (r : request) : bool :=
  match r with PatchRef _ _ => true | _ => false end.

(** A computation is quiet when it leaves the branch where it is and issues
    no update of the branch. *)
Definition quiet {A} (m : handler A) : Prop :=
  forall w r w', m w = (r, w') ->
    branch (remote w') = branch (remote w)
    /\ exists l, log w' = log w ++ l /\ Forall (fun q => is_patch q = false) l.

(** No id at or above the counter names a commit yet. *)
Definition ids_fresh (st : store) : Prop :=
  forall id, next_id st <= id -> commits st !! id = None.

(** The fetch of the current content of [file] fails: the request is hit by
    a fault, or the store has no such file, or its text is not JSON. *)
Definition fetch_fails (cfg : config) (st : store) (file : file_entry) (flt : fault) : Prop :=
  flt <> Healthy
  \/ file_at st (branch st) (path file) = None
  \/ exists b text, file_at st (branch st) (path file) = Some (b, text)
                    /\ JSON_parse cfg text = None.

(** The skeleton substituted in the batch for the file at [filePath]. *)
Definition default_old (filePath : string) : value :=
  defaultContent (pop (split "/" filePath)).

(** What the fetch of the current content of [file] amounts to under the
    fault [flt]: the parsed content of the file when the request is served,
    the file exists and its text is JSON, the skeleton otherwise. *)
Definition fetched (cfg : config) (st : store) (file : file_entry) (flt : fault) : value :=
  match flt with
  | Healthy =>
      match file_at st (branch st) (path file) with
      | Some (_, text) =>
          match JSON_parse cfg text with
          | Some parsed => parsed
          | None => default_old (path file)
          end
      | None => default_old (path file)
      end
  | _ => default_old (path file)
  end.

(** The request gets through [requireAuth]. *)
Definition passes_auth (cfg : config) (user : option session_user) : bool :=
  DEV_BYPASS_AUTH cfg || isAuthenticated user.



(** The session user under another user name. *)
Definition with_username (name : string) (u : session_user) : session_user :=
  SessionUser (user_id u) name.

(** A small world used to exercise the routes: one user, a branch whose tip
    has an empty tree. *)
Definition example_config : config :=
  Config (fun _ => None) false
         [UserRecord "42" false (Some "bob") (Some "a1b2c3d4e5f60718")].

Definition example_user : option session_user := Some (SessionUser "42" "bob").

Definition example_store : store :=
  Store 0 ∅ {[ 1 := ∅ ]} {[ 0 := Commit 1 [] "init" ]} 2.

Definition example_files : list file_entry :=
  [FileEntry "data/locations.json" (JArr [JNull])].

(** An older copy of the server kept in the repository tags the commit with
    the session's user name and id instead of the anonymous hash. *)
Definition legacy_fullCommitMessage (commitMessage : option string) (username userId : string)
    (changeReports : list string) : string :=
  let m := or_text commitMessage "Update files via dashboard" in
  let m := m +:+ newline +:+ newline +:+ "User: @" +:+ username +:+ " (ID: " +:+ userId +:+ ")" in
  if (0 <? length changeReports)%nat then
    m +:+ newline +:+ newline +:+ "Changes:" +:+ newline +:+ join newline changeReports
  else m.

(** The composition of the commit message in the words of the specification
    (section 4.3, step 7): the message, a blank line, the actor line, a blank
    line, the report lines. *)
Definition spec_commit_message (message actorTag : string) (lines : list string) : string :=
  message +:+ newline +:+ newline +:+ "User: " +:+ actorTag +:+ newline +:+ newline
          +:+ join newline lines.

(** ** The client edit buffer ([App.tsx]) *)

Module App.

Record FileState : Type := {
  content : value;
  sha : option nat;
  dirty : bool }.

(** [Date.now()] and [Date.parse], read when a load completes; [None] is
    [NaN]. *)
Record clock : Type := {
  now : Z;
  Date_parse : string -> option Z }.

(** [t?.datetime] *)
Definition datetime_of (t : value) : option value :=
  match t with
  | JObj props => own "datetime" props
  | _ => None
  end.

(** The filter applied to [times.json] when it is loaded: an entry is kept
    when its [datetime] parses to an instant that is not in the past. *)
Definition upcoming (c : clock) (t : value) : outcome js_error bool :=
  text ← to_string (js_or (datetime_of t) (JStr EmptyString));
  match Date_parse c text with
  | Some ts => Return (now c <=? ts)%Z
  | None => Return false
  end.

Fixpoint keep_upcoming (c : clock) (items : list value) : outcome js_error (list value) :=
  match items with
  | [] => Return []
  | t :: rest =>
      keep ← upcoming c t;
      kept ← keep_upcoming c rest;
      Return (if (keep : bool) then t :: kept else kept)
  end.

(** The content stored by the load effects of the selected file and of the
    dashboard preload. *)
Definition loaded_content (c : clock) (name : string) (fetched : value)
  : outcome js_error value :=
  match fetched with
  | JArr items =>
      if String.eqb name "times.json" then
        kept ← keep_upcoming c items; Return (JArr kept)
      else Return fetched
  | _ => Return fetched
  end.

(** The updates of [stateByFile]: the answer of a load arrives (of the
    selected file or of the dashboard preload, with the clock read at that
    moment; or of one of the two auxiliary loads), an editor sends a new
    content, or the answer of a push arrives with a commit id.  Each update
    applies to the state of the moment it is made. *)
Inductive event : Type :=
| Loaded (name : string) (sha : option nat) (fetched : value) (c : clock)
| LoadedAux (name : string) (sha : option nat) (fetched : value)
| Edited (name : string) (next : value)
| Pushed.

(** [{ ...(prev[name] || { dirty: false }), content: next, dirty: true }] *)
Definition edited (prev : option FileState) (next : value) : FileState :=
  {| content := next; sha := prev ≫= sha; dirty := true |}.

(** The mark-all-clean update after a push that returned a commit id. *)
Definition markClean (v : FileState) : FileState :=
  if dirty v then {| content := content v; sha := sha v; dirty := false |} else v.

(** One update of [stateByFile]. *)
Definition step (stateByFile : gmap string FileState) (e : event) : gmap string FileState :=
  match e with
  | Loaded name sha fetched c =>
      match loaded_content c name fetched with
      | Return stored => <[name := {| content := stored; sha := sha; dirty := false |}]> stateByFile
      | Throw _ => stateByFile
      end
  | LoadedAux name sha fetched =>
      <[name := {| content := js_or (Some fetched) (JArr []); sha := sha; dirty := false |}]>
        stateByFile
  | Edited name next => <[name := edited (stateByFile !! name) next]> stateByFile
  | Pushed => markClean <$> stateByFile
  end.

Definition run (events : list event) : gmap string FileState :=
  foldl step ∅ events.

(** A load stores what the server answered for the file: the content of the
    blob named by the revision marker, or the skeleton when there is none. *)
Definition honest (remote_at : string -> option nat -> value) (e : event) : Prop :=
  match e with
  | Loaded name sha fetched _ | LoadedAux name sha fetched => fetched = remote_at name sha
  | _ => True
  end.

Definition is_push (e : event) : bool :=
  match e with Pushed => true | _ => false end.

(** The invariant of the data model: a clean file holds what a fetch at its
    revision marker returns. *)
Definition clean_matches_remote (remote_at : string -> option nat -> value)
    (stateByFile : gmap string FileState) : Prop :=
  forall (name : string) (v : FileState), stateByFile !! name = Some v -> dirty v = false ->
    content v = remote_at name (sha v).

(** The file holds the content fetched at its revision marker as a load
    stores it: unchanged, or for [times.json] restricted to the entries that
    pass the filter, or [[]] where an auxiliary load found a falsy content. *)
Definition as_loaded (remote_at : string -> option nat -> value) (name : string)
    (v : FileState) : Prop :=
  content v = remote_at name (sha v)
  \/ (name = "times.json" /\ exists c items kept,
        remote_at name (sha v) = JArr items /\ keep_upcoming c items = Return kept
        /\ content v = JArr kept)
  \/ (truthy (remote_at name (sha v)) = false /\ content v = JArr []).

(** The file was dirty when the answer of a push arrived with a commit id,
    and it is what the mark-all-clean update made of it then: the content and
    the revision marker of that moment, with the dirty flag cleared. *)
Definition cleaned_by_push (events : list event) (name : string) (v : FileState) : Prop :=
  exists (before after : list event) (v' : FileState),
    events = before ++ Pushed :: after
    /\ run before !! name = Some v'
    /\ dirty v' = true
    /\ v = {| content := content v'; sha := sha v'; dirty := false |}.


(** *** Entries of [times.json] and their keys *)

(** [TimeEntry], as [TimesEditor.tsx] declares it. *)
Record TimeEntry : Type := {
  locationId : string;
  datetime : string }.

(** [`${t.locationId}|${t.datetime}`] *)
Definition time_key (t : TimeEntry) : string := locationId t +:+ "|" +:+ datetime t.

(** [uniqueTimes]: one pass over the entries with the set of the keys seen
    so far; an entry whose key has been seen is skipped. *)
Definition unique_pass (times : list TimeEntry) : gset string * list TimeEntry :=
  foldl (fun (acc : gset string * list TimeEntry) t =>
           let key := time_key t in
           if decide (key ∈ fst acc) then acc
           else ({[ key ]} ∪ fst acc, snd acc ++ [t]))
        (∅, []) times.

Definition uniqueTimes (times : list TimeEntry) : list TimeEntry :=
  snd (unique_pass times).

(** The string holds the character [c]. *)
Fixpoint has_char (c : ascii) (s : string) : bool :=
  match s with
  | EmptyString => false
  | String a r => Ascii.eqb a c || has_char c r
  end.

(** *** Locations and the times that refer to them *)

(** [LocationEntry], as [LocationsEditor.tsx] declares it; the two numbers
    are carried by their decimal text. *)
Record LocationEntry : Type := {
  id : string;
  location : string;
  venue : string;
  lat : string;
  lng : string }.

(** A file of the buffer with its content typed as its editor declares it. *)
Record FileOf (A : Type) : Type := {
  content_of : list A;
  sha_of : option nat;
  dirty_of : bool }.
Arguments content_of {A} _.
Arguments sha_of {A} _.
Arguments dirty_of {A} _.

(** [ids.has(i)] *)
Definition set_has (i : string) (ids : list string) : bool :=
  existsb (String.eqb i) ids.

(** The update the locations editor sends with the new list [next]: what
    becomes of [locations.json] and of [times.json], the other files being
    carried over as they are.  [sortLocations] orders by location and venue
    in the collation of the browser. *)
Definition onLocationsChange (sortLocations : list LocationEntry -> list LocationEntry)
    (prevLocations : option (FileOf LocationEntry)) (prevTimes : option (FileOf TimeEntry))
    (next : list LocationEntry)
  : FileOf LocationEntry * option (FileOf TimeEntry) :=
  let prevLocs := match prevLocations with Some f => content_of f | None => [] end in
  let prevIds := map id prevLocs in
  let sortedNext := sortLocations next in
  let nextIds := map id sortedNext in
  let removedIds := List.filter (fun i => negb (set_has i nextIds)) prevIds in
  ({| content_of := sortedNext; sha_of := prevLocations ≫= sha_of; dirty_of := true |},
   match prevTimes with
   | Some t =>
       if (0 <? length removedIds)%nat then
         let filteredTimes :=
           List.filter (fun e => negb (set_has (locationId e) removedIds)) (content_of t) in
         if negb (length filteredTimes =? length (content_of t))%nat then
           Some {| content_of := filteredTimes; sha_of := sha_of t; dirty_of := true |}
         else Some t
       else Some t
   | None => None
   end).

(** *** New location ids ([TimesEditor.tsx]) *)

(** The loop [while (taken.has(candidate)) { candidate = `${base}-${i++}` }],
    run for at most [fuel] rounds; [None] when the rounds are used up. *)
Fixpoint next_candidate (fuel : nat) (taken : gset string) (base : string) (i : nat)
    (candidate : string) : option string :=
  if decide (candidate ∈ taken) then
    match fuel with
    | O => None
    | S rounds => next_candidate rounds taken base (S i) (base +:+ "-" +:+ dec i)
    end
  else Some candidate.

(** The candidates in the order the loop tries them: the base, then the
    base with the suffixes [-2], [-3], ... *)
Definition candidate (base : string) (k : nat) : string :=
  if (k =? 1)%nat then base else base +:+ "-" +:+ dec k.

(** [generateUniqueId], for whatever [slugify] makes of a text. *)
Definition generateUniqueId (slugify : string -> string) (fuel : nat)
    (existing : list LocationEntry) (location venue : string) : option string :=
  let base := slugify location +:+ "-" +:+ slugify venue in
  if String.eqb base EmptyString then Some EmptyString
  else next_candidate fuel (list_to_set (map id existing)) base 2 base.

(** *** Editing the sections of a document *)

(** [k in o] for an object built by [JSON.parse] and a key that no
    prototype has. *)
Definition has (k : string) (props : list (string * value)) : bool :=
  existsb (fun kv => String.eqb (fst kv) k) props.

(** The index that a property name denotes when it is an array index: the
    canonical decimal text of an integer below [2^32 - 1]. *)
Definition array_index (k : string) : option N :=
  match NilEmpty.uint_of_string k with
  | Some u =>
      let n := N.of_uint u in
      if String.eqb (NilEmpty.string_of_uint (N.to_uint n)) k && (n <? 4294967295)%N
      then Some n else None
  | None => None
  end.

(** The place of a new property with the array index [n] among the own
    properties of an object: the array indices are enumerated first, in
    ascending order, before the other names. *)
Fixpoint insert_index (n : N) (k : string) (v : value) (props : list (string * value))
  : list (string * value) :=
  match props with
  | [] => [(k, v)]
  | (k', v') :: rest =>
      match array_index k' with
      | Some m => if (m <? n)%N then (k', v') :: insert_index n k v rest
                  else (k, v) :: props
      | None => (k, v) :: props
      end
  end.

(** [{ ...o, [k]: v }]: the value of [k] is replaced where the key stands;
    a new property is added at the end, or among the array indices when its
    name is one. *)
Definition set_prop (k : string) (v : value) (props : list (string * value))
  : list (string * value) :=
  if has k props then map (fun kv => if String.eqb (fst kv) k then (k, v) else kv) props
  else match array_index k with
       | Some n => insert_index n k v props
       | None => props ++ [(k, v)]
       end.

(** The guard of the three section handlers: the properties of the current
    content when it is an object with a [title] and a [sections] key, [None]
    when the handler returns at once.  The [in] operator throws on a
    primitive that is not falsy. *)
Definition current_document (current : option FileState)
  : outcome js_error (option (list (string * value))) :=
  match current with
  | None => Return None
  | Some st =>
      if negb (truthy (content st)) then Return None
      else match content st with
           | JObj props =>
               Return (if has "title" props && has "sections" props then Some props
                       else None)
           | JArr _ => Return None
           | _ => Throw TypeError
           end
  end.

(** The characters of a string, each as a string. *)
Fixpoint characters (s : string) : list value :=
  match s with
  | EmptyString => []
  | String c r => JStr (String c EmptyString) :: characters r
  end.

(** [[...x]]: the elements of an iterable. *)
Definition spread_elements (x : option value) : outcome js_error (list value) :=
  match x with
  | Some (JArr items) => Return items
  | Some (JStr s) => Return (characters s)
  | _ => Throw TypeError
  end.

(** [{...x}]: the own enumerable properties of a value. *)
Definition spread_properties (x : value) : list (string * value) :=
  match x with
  | JObj props => props
  | JArr items => imap (fun i item => (dec i, item)) items
  | JStr s => imap (fun i item => (dec i, item)) (characters s)
  | _ => []
  end.

(** The empty section that [onAddSection] appends. *)
Definition empty_section : value :=
  JObj [("heading", JStr EmptyString); ("content", JStr EmptyString)].

(** [onChange(next)]: the update an editor of the selected file sends. *)
Definition onChange (stateByFile : gmap string FileState) (selected : string)
    (next : value) : gmap string FileState :=
  step stateByFile (Edited selected next).

Definition onAddSection (stateByFile : gmap string FileState) (selected : string)
  : outcome js_error (gmap string FileState) :=
  doc ← current_document (stateByFile !! selected);
  match doc with
  | None => Return stateByFile
  | Some props =>
      sections ← spread_elements (own "sections" props);
      Return (onChange stateByFile selected
                (JObj (set_prop "sections" (JArr (sections ++ [empty_section])) props)))
  end.

(** [xs.filter((_, i) => i !== index)] *)
Definition remove_at (index : nat) (xs : list value) : list value :=
  map snd (List.filter (fun p => negb (fst p =? index)%nat)
                       (imap (fun i x => (i, x)) xs)).

Definition onRemoveSection (stateByFile : gmap string FileState) (selected : string)
    (index : nat) : outcome js_error (gmap string FileState) :=
  doc ← current_document (stateByFile !! selected);
  match doc with
  | None => Return stateByFile
  | Some props =>
      match own "sections" props with
      | Some (JArr sections) =>
          Return (onChange stateByFile selected
                    (JObj (set_prop "sections" (JArr (remove_at index sections)) props)))
      | _ => Throw TypeError
      end
  end.

(** [{ ...s, [key]: valueStr }]; the editor sends a text for a heading and a
    text or a list for a content. *)
Definition with_field (key : string) (valueStr : value) (s : value) : value :=
  JObj (set_prop key valueStr (spread_properties s)).

Definition onUpdateSection (stateByFile : gmap string FileState) (selected : string)
    (index : nat) (key : string) (valueStr : value)
  : outcome js_error (gmap string FileState) :=
  doc ← current_document (stateByFile !! selected);
  match doc with
  | None => Return stateByFile
  | Some props =>
      match own "sections" props with
      | Some (JArr sections) =>
          Return (onChange stateByFile selected
                    (JObj (set_prop "sections"
                             (JArr (imap (fun i s => if (i =? index)%nat
                                                     then with_field key valueStr s else s)
                                         sections))
                             props)))
      | _ => Throw TypeError
      end
  end.

(** *** Pushing *)

(** The payload of a push: one entry per dirty file, in the order of
    [entries], which stands for [Object.entries(stateByFile)]. *)
Definition filesPayload (entries : list (string * FileState)) : list file_entry :=
  map (fun e => FileEntry ("data/" +:+ fst e) (content (snd e)))
      (List.filter (fun e => dirty (snd e)) entries).

(** [pushChanges], the request reaching the server and the answer the
    client.  [entries] stands for [Object.entries(stateByFile)] of the state
    the handler was created with; [prev] is the state of the buffer when the
    handler is done, to which its one update, mark-all-clean, applies: the
    state when the answer arrives, which holds the edits made while the
    request was in flight.  Nothing is sent when no file is dirty; the files
    of [prev] are marked clean when the answer carries a commit. *)
Definition pushChanges (cfg : config) (user : option session_user)
    (entries : list (string * FileState)) (prev : gmap string FileState)
    (w : world) : gmap string FileState * world :=
  let payload := filesPayload entries in
  if (length payload =? 0)%nat then (prev, w)
  else
    match post_batch cfg user payload (Some "Update files via dashboard") w with
    | (Return (Response _ (BatchOk _)), w') => (step prev Pushed, w')
    | (_, w') => (prev, w')
    end.

End App.

(** ** Structure of values *)

(** Induction over values, with the items of a list and the properties of
    an object as induction hypotheses. *)
Section ValueInd.
Variable P : value -> Prop.
Hypothesis HNull : P JNull.
Hypothesis HBool : forall b, P (JBool b).
Hypothesis HNum : forall text, P (JNum text).
Hypothesis HStr : forall s, P (JStr s).
Hypothesis HArr : forall items, Forall P items -> P (JArr items).
Hypothesis HObj : forall props, Forall (fun kv => P (snd kv)) props -> P (JObj props).

Fixpoint value_ind (v : value) : P v :=
  match v with
  | JNull => HNull
  | JBool b => HBool b
  | JNum text => HNum text
  | JStr s => HStr s
  | JArr items =>
      HArr items
        ((fix go (l : list value) : Forall P l :=
            match l with
            | [] => @List.Forall_nil _ P
            | x :: r => @List.Forall_cons _ P x r (value_ind x) (go r)
            end) items)
  | JObj props =>
      HObj props
        ((fix go (l : list (string * value)) : Forall (fun kv => P (snd kv)) l :=
            match l with
            | [] => @List.Forall_nil _ _
            | kv :: r => @List.Forall_cons _ (fun kv => P (snd kv)) kv r (value_ind (snd kv)) (go r)
            end) props)
  end.
End ValueInd.

(** Structural equality of two values is decidable. *)
Fixpoint value_eq_dec (a b : value) {struct a} : {a = b} + {a <> b}.
Proof.
  destruct a as [|x|x|x|l1|o1], b as [|y|y|y|l2|o2];
    try (right; discriminate); try (left; reflexivity).
  - destruct (bool_dec x y) as [->|Hn]; [left; reflexivity | right; congruence].
  - destruct (string_dec x y) as [->|Hn]; [left; reflexivity | right; congruence].
  - destruct (string_dec x y) as [->|Hn]; [left; reflexivity | right; congruence].
  - assert (H : {l1 = l2} + {l1 <> l2}).
    { revert l2. induction l1 as [|v1 r1 IH]; intros [|v2 r2];
        try (right; discriminate); [left; reflexivity|].
      destruct (value_eq_dec v1 v2) as [->|Hn]; [|right; congruence].
      destruct (IH r2) as [->|Hn]; [left; reflexivity | right; congruence]. }
    destruct H as [->|Hn]; [left; reflexivity | right; congruence].
  - assert (H : {o1 = o2} + {o1 <> o2}).
    { revert o2. induction o1 as [|[k1 v1] r1 IH]; intros [|[k2 v2] r2];
        try (right; discriminate); [left; reflexivity|].
      destruct (string_dec k1 k2) as [->|Hn]; [|right; congruence].
      destruct (value_eq_dec v1 v2) as [->|Hn]; [|right; congruence].
      destruct (IH r2) as [->|Hn]; [left; reflexivity | right; congruence]. }
    destruct H as [->|Hn]; [left; reflexivity | right; congruence].
Defined.

#[global] Instance value_eq_decision : EqDecision value := value_eq_dec.

(** The characters of the decimal text of a finite number. *)
Definition num_char (c : ascii) : bool :=
  let n := nat_of_ascii c in
  ((48 <=? n) && (n <=? 57))%nat    (* digits *)
  || (n =? 45)%nat || (n =? 43)%nat (* signs *)
  || (n =? 46)%nat || (n =? 101)%nat. (* point and exponent mark *)

Fixpoint num_chars (s : string) : bool :=
  match s with
  | EmptyString => true
  | String c r => num_char c && num_chars r
  end.

Definition numeric_text (s : string) : bool :=
  negb (String.eqb s EmptyString) && num_chars s.

(** A value all of whose numbers carry the text of a finite number. *)
Fixpoint well_formed (v : value) : bool :=
  match v with
  | JNum text => numeric_text text
  | JArr items => forallb well_formed items
  | JObj props => forallb (fun kv => well_formed (snd kv)) props
  | _ => true
  end.

(** A value as [JSON.parse] returns them: every number carries the text of a
    finite number or is one of the two infinities. *)
Fixpoint json_value (v : value) : bool :=
  match v with
  | JNum text => numeric_text text || non_finite text
  | JArr items => forallb json_value items
  | JObj props => forallb (fun kv => json_value (snd kv)) props
  | _ => true
  end.

(** [JSON.parse(JSON.stringify(v))]: the value with [null] in the place of
    every number that is not finite. *)
Fixpoint reread (v : value) : value :=
  match v with
  | JNum text => if non_finite text then JNull else JNum text
  | JArr items => JArr (map reread items)
  | JObj props => JObj (map (fun kv => (fst kv, reread (snd kv))) props)
  | _ => v
  end.

(** Reads back one escaped character from the front of a text. *)
Definition hex_value (c : ascii) : option nat :=
  let n := nat_of_ascii c in
  if ((48 <=? n) && (n <=? 57))%nat then Some (n - 48)
  else if ((97 <=? n) && (n <=? 102))%nat then Some (n - 87)
  else None.

Definition unescape_char (s : string) : option (ascii * string) :=
  match s with
  | String "\" (String "u" (String "0" (String "0" (String h (String l r))))) =>
      match hex_value h, hex_value l with
      | Some a, Some b => Some (ascii_of_nat (16 * a + b), r)
      | _, _ => None
      end
  | String "\" (String c r) =>
      if Ascii.eqb c "b" then Some ("008"%char, r)
      else if Ascii.eqb c "f" then Some ("012"%char, r)
      else if Ascii.eqb c "n" then Some ("010"%char, r)
      else if Ascii.eqb c "r" then Some ("013"%char, r)
      else if Ascii.eqb c "t" then Some ("009"%char, r)
      else Some (c, r)
  | String c r => if Ascii.eqb c "034" then None else Some (c, r)
  | EmptyString => None
  end.

(** A text that may follow a number: it is empty or begins with a
    character that no number contains. *)
Definition stops (r : string) : bool :=
  match r with
  | EmptyString => true
  | String c _ => negb (num_char c)
  end.

(** The first character of a text is not [c]. *)
Definition not_headed (c : ascii) (s : string) : bool :=
  match s with
  | EmptyString => false
  | String x _ => negb (Ascii.eqb x c)
  end.

(** ** Shapes named by the specification *)

(** A document: an object with a [title] string and a [sections] list. *)
Definition is_document (v : value) : bool :=
  match v with
  | JObj props =>
      match own "title" props, own "sections" props with
      | Some (JStr _), Some (JArr _) => true
      | _, _ => false
      end
  | _ => false
  end.

(** Deep equality, as the specification means it for two entries: two
    lists are equal item by item, and two objects when they have the same
    keys with deeply equal values, in whatever order the keys stand. *)
Fixpoint deep_equal (a b : value) : bool :=
  match a, b with
  | JNull, JNull => true
  | JBool x, JBool y => Bool.eqb x y
  | JNum x, JNum y => String.eqb x y
  | JStr x, JStr y => String.eqb x y
  | JArr l1, JArr l2 =>
      (fix items (l1 l2 : list value) : bool :=
         match l1, l2 with
         | [], [] => true
         | x :: r1, y :: r2 => deep_equal x y && items r1 r2
         | _, _ => false
         end) l1 l2
  | JObj p1, JObj p2 =>
      (length p1 =? length p2)%nat
      && forallb (fun kv => match own (fst kv) p2 with
                            | Some w => deep_equal (snd kv) w
                            | None => false
                            end) p1
  | _, _ => false
  end.

(** [v.name], read as [undefined] where there is nothing to read. *)
Definition property (v : value) (name : string) : option value :=
  match get_prop v name with
  | Return x => x
  | Throw _ => None
  end.

(** The document that the object branch of the generator reads a list or an
    object as: its [title], or [''] when the title is missing or falsy, and
    its [sections], or [[]] when they are missing or falsy. *)
Definition as_document (v : value) : value :=
  JObj [("title", js_or (property v "title") (JStr EmptyString));
        ("sections", js_or (property v "sections") (JArr []))].

(** A recognized shape: a list or a document. *)
Definition recognized (v : value) : bool := isArray v || is_document v.

(** The three kinds of line of a report. *)
Definition updated_line (filePath : string) : string :=
  "  - " +:+ pop (split "/" filePath) +:+ ": Updated".

Definition no_changes_line (filePath : string) : string :=
  "  - " +:+ pop (split "/" filePath) +:+ ": No changes detected".

(** ** What a route leaves of the store *)

(** [st'] holds every object that [st] holds below its counter, unchanged,
    and its counter has not gone back. *)
Definition extends (st st' : store) : Prop :=
  next_id st <= next_id st'
  /\ forall id, id < next_id st ->
       blobs st' !! id = blobs st !! id
       /\ trees st' !! id = trees st !! id
       /\ commits st' !! id = commits st !! id.

(** A computation that only ever adds objects to the store. *)
Definition additive {A} (m : handler A) : Prop :=
  forall w r w', m w = (r, w') -> extends (remote w) (remote w').

(** No blob lives at or above the counter. *)
Definition blobs_fresh (st : store) : Prop :=
  forall id, next_id st <= id -> blobs st !! id = None.

(** Every entry of a tree of the store names a blob of the store. *)
Definition trees_closed (st : store) : Prop :=
  forall t entries p b,
    trees st !! t = Some entries -> entries !! p = Some b -> is_Some (blobs st !! b).

(** A store whose branch holds one document, [data/about.json]. *)
Definition example_site : store :=
  Store 0 {[ 2 := "{}" ]} {[ 1 := {[ "data/about.json" := 2 ]} ]}
        {[ 0 := Commit 1 [] "init" ]} 3.

(** A parser that knows two texts: the one content of [example_files] and
    the empty object. *)
Definition example_parser (text : string) : option value :=
  if String.eqb text (stringify_indent 0 (JArr [JNull])) then Some (JArr [JNull])
  else if String.eqb text "{}" then Some (JObj [])
  else None.

Definition example_reader : config :=
  Config example_parser false (loadUsersFile example_config).

(** A store whose branch holds [data/about.json] with the text [5], and a
    parser that knows this text. *)
Definition number_site : store :=
  Store 0 {[ 2 := "5" ]} {[ 1 := {[ "data/about.json" := 2 ]} ]}
        {[ 0 := Commit 1 [] "init" ]} 3.

Definition number_parser (text : string) : option value :=
  if String.eqb text "5" then Some (JNum "5") else None.

(** ** The users file and the admin routes *)

(** [s.trim()]: the white space of both ends removed (the white-space code
    units below 256: tab to carriage return, space, no-break space). *)
Definition is_whitespace (c : ascii) : bool :=
  let n := nat_of_ascii c in
  ((9 <=? n) && (n <=? 13))%nat || (n =? 32)%nat || (n =? 160)%nat.

Fixpoint trimStart (s : string) : string :=
  match s with
  | EmptyString => EmptyString
  | String c r => if is_whitespace c then trimStart r else s
  end.

Fixpoint trimEnd (s : string) : string :=
  match s with
  | EmptyString => EmptyString
  | String c r =>
      match trimEnd r with
      | EmptyString => if is_whitespace c then EmptyString else String c EmptyString
      | kept => String c kept
      end
  end.

Definition trim (s : string) : string := trimEnd (trimStart s).

(** [a || b] on two values that may be [undefined]. *)
Definition or_else (a b : option value) : option value :=
  match a with
  | Some v => if truthy v then a else b
  | None => b
  end.

Module Users.

Inductive role_t : Type := admin | editor.

(** A user object in memory.  [None] stands for a property that is
    [undefined] or missing; the code cannot tell the two apart. *)
Record user : Type := User {
  id : string;
  role : role_t;
  username : option value;
  discriminator : option value;
  avatar : option value;
  anonHash : option value }.

(** What [users.json] holds: nothing (there is no file), something that
    cannot be read or is not JSON, or a JSON document. *)
Inductive file : Type :=
| Missing
| Unreadable
| Document (parsed : value).

(** The disk as the server sees it: the users file, and whether it can be
    written ([fs.writeFileSync] throws when it cannot). *)
Record disk : Type := Disk {
  users_json : file;
  writable : bool }.

(** [x.role === 'admin' ? 'admin' : 'editor'] *)
Definition role_of (x : option value) : role_t :=
  match x with
  | Some (JStr s) => if String.eqb s "admin" then admin else editor
  | _ => editor
  end.

Definition role_text (r : role_t) : string :=
  match r with admin => "admin" | editor => "editor" end.

(** [x ? String(x) : undefined] *)
Definition text_field (x : option value) : outcome js_error (option value) :=
  match x with
  | Some v => if truthy v then s ← to_string v; Return (Some (JStr s)) else Return None
  | None => Return None
  end.

(** One entry of an array of strings: [{ id: String(id), role: 'editor' }]. *)
Definition legacy_entry (entry : value) : outcome js_error user :=
  s ← to_string entry; Return (User s editor None None None None).

(** One entry of an array of objects, normalized. *)
Definition normalize_entry (u : value) : outcome js_error user :=
  i ← get_prop u "id";
  idStr ← template i;
  r ← get_prop u "role";
  n ← get_prop u "username";
  n ← text_field n;
  d ← get_prop u "discriminator";
  d ← text_field d;
  a ← get_prop u "avatar";
  a ← text_field a;
  h ← get_prop u "anonHash";
  h ← text_field h;
  Return (User idStr (role_of r) n d a h).

(** [items.map(f)] for an [f] that may throw. *)
Fixpoint map_throwing {A B} (f : A -> outcome js_error B) (items : list A)
  : outcome js_error (list B) :=
  match items with
  | [] => Return []
  | x :: rest => y ← f x; ys ← map_throwing f rest; Return (y :: ys)
  end.

(** The users of a parsed document, as [loadUsersFile] returns them; any
    exception on the way ends in the [catch] clause, which returns [[]]. *)
Definition normalize (parsed : value) : list user :=
  match parsed with
  | JArr [] => []
  | JArr (JStr first :: rest) =>
      match map_throwing legacy_entry (JStr first :: rest) with
      | Return users => users
      | Throw _ => []
      end
  | JArr items =>
      match map_throwing normalize_entry items with
      | Return users => users
      | Throw _ => []
      end
  | _ => []
  end.

Definition loadUsersFile (d : disk) : list user * disk :=
  match users_json d with
  | Missing => ([], if writable d then Disk (Document (JArr [])) true else d)
  | Unreadable => ([], d)
  | Document parsed => (normalize parsed, d)
  end.

(** The property of a user object, when it is defined. *)
Definition field (key : string) (x : option value) : list (string * value) :=
  match x with
  | Some v => [(key, v)]
  | None => []
  end.

(** The object [JSON.stringify] writes for a user and [JSON.parse] reads
    back: undefined properties are left out. *)
Definition to_json (u : user) : value :=
  JObj ([("id", JStr (id u)); ("role", JStr (role_text (role u)))]
        ++ field "username" (username u) ++ field "discriminator" (discriminator u)
        ++ field "avatar" (avatar u) ++ field "anonHash" (anonHash u)).

Definition saveUsersFile (users : list user) (d : disk) : bool * disk :=
  if writable d then (true, Disk (Document (JArr (map to_json users))) true)
  else (false, d).

Definition getUserRecord (discordId : string) (d : disk) : option user * disk :=
  (List.find (fun u => String.eqb (id u) discordId
                       || String.eqb "[object Object]" discordId)
             (fst (loadUsersFile d)),
   snd (loadUsersFile d)).

(** [isUserAllowed] *)
Definition isUserAllowed (discordId : string) (d : disk) : bool * disk :=
  (match fst (getUserRecord discordId d) with Some _ => true | None => false end,
   snd (getUserRecord discordId d)).

Definition is_admin (r : role_t) : bool :=
  match r with admin => true | editor => false end.

(** The answers of the admin routes. *)
Inductive answer : Type :=
| Ok
| UserList (users : list user)
| Error (status : nat) (error : string).

(** A synchronous route handler over the disk; an exception it lets escape
    goes to the framework. *)
Definition route : Type := disk -> outcome js_error answer * disk.

Definition requireAuth (dev : bool) (user : option session_user) (next : route) : route :=
  fun d =>
    if dev then next d
    else if isAuthenticated user then next d
    else (Return (Error 401 "Unauthorized"), d).

Definition requireAdmin (dev : bool) (user : option session_user) (next : route) : route :=
  fun d =>
    if dev then next d
    else match user with
         | None => (Return (Error 401 "Unauthorized"), d)
         | Some u =>
             let (rec, d1) := getUserRecord (user_id u) d in
             match rec with
             | Some r => if is_admin (role r) then next d1
                         else (Return (Error 403 "Forbidden"), d1)
             | None => (Return (Error 403 "Forbidden"), d1)
             end
         end.

(** [{ id: String(u.id), role: u.role === 'admin' ? 'admin' : 'editor' }] *)
Definition id_and_role (u : user) : user :=
  User (id u) (role u) None None None None.

(** [app.get('/api/admin/users', requireAuth, requireAdmin, ...)] *)
Definition get_users (dev : bool) (user : option session_user) : route :=
  requireAuth dev user (requireAdmin dev user (fun d =>
    let (loaded, d1) := loadUsersFile d in
    (Return (UserList (map (fun u => User (id u) (role u) (username u) (discriminator u)
                                          (avatar u) None) loaded)), d1))).

(** [app.post('/api/admin/users', requireAuth, requireAdmin, ...)] with the
    [id] and [role] of the request body. *)
Definition post_user (dev : bool) (user : option session_user)
    (body_id body_role : option value) : route :=
  requireAuth dev user (requireAdmin dev user (fun d =>
    match to_string (js_or body_id (JStr EmptyString)) with
    | Throw e => (Throw e, d)
    | Return text =>
        let userId := trim text in
        let userRole := role_of body_role in
        if String.eqb userId EmptyString then (Return (Error 400 "Missing id"), d)
        else
          let (loaded, d1) := loadUsersFile d in
          let users := map id_and_role loaded in
          if existsb (fun u => String.eqb (id u) userId) users then
            (Return (Error 409 "User already exists"), d1)
          else
            let (saved, d2) :=
              saveUsersFile (users ++ [User userId userRole None None None None]) d1 in
            if saved then (Return Ok, d2)
            else (Return (Error 500 "Failed to save users"), d2)
    end)).

(** [users[idx].role = userRole] at the first index whose id is [userId];
    [None] when [findIndex] gives -1. *)
Fixpoint set_role (userId : string) (userRole : role_t) (users : list user)
  : option (list user) :=
  match users with
  | [] => None
  | u :: rest =>
      if String.eqb (id u) userId then
        Some (User (id u) userRole (username u) (discriminator u) (avatar u) (anonHash u)
                :: rest)
      else cons u <$> set_role userId userRole rest
  end.

(** [app.put('/api/admin/users/:id', requireAuth, requireAdmin, ...)] *)
Definition put_user (dev : bool) (user : option session_user)
    (param_id : string) (body_role : option value) : route :=
  requireAuth dev user (requireAdmin dev user (fun d =>
    let userId := trim param_id in
    let userRole := role_of body_role in
    let (loaded, d1) := loadUsersFile d in
    match set_role userId userRole (map id_and_role loaded) with
    | None => (Return (Error 404 "Not found"), d1)
    | Some users =>
        let (saved, d2) := saveUsersFile users d1 in
        if saved then (Return Ok, d2)
        else (Return (Error 500 "Failed to save users"), d2)
    end)).

(** [app.delete('/api/admin/users/:id', requireAuth, requireAdmin, ...)] *)
Definition delete_user (dev : bool) (user : option session_user) (param_id : string)
  : route :=
  requireAuth dev user (requireAdmin dev user (fun d =>
    let userId := trim param_id in
    let (loaded, d1) := loadUsersFile d in
    let before := map id_and_role loaded in
    let users := List.filter (fun u => negb (String.eqb (id u) userId)) before in
    if (length users =? length before)%nat then (Return (Error 404 "Not found"), d1)
    else
      let (saved, d2) := saveUsersFile users d1 in
      if saved then (Return Ok, d2)
      else (Return (Error 500 "Failed to save users"), d2))).

(** The profile the identity provider hands to the login callback. *)
Record profile : Type := Profile {
  profile_id : string;
  profile_username : option value;
  profile_discriminator : option value;
  profile_avatar : option value }.

(** The object that replaces the user [u] of the profile's id: the role is
    kept, each profile property is the one sent or else the one in the file,
    and the anonymous hash is the one in the file or else a fresh one. *)
Definition merged (p : profile) (fresh : string) (u : user) : user :=
  User (profile_id p) (role u)
       (or_else (profile_username p) (username u))
       (or_else (profile_discriminator p) (discriminator u))
       (or_else (profile_avatar p) (avatar u))
       (or_else (anonHash u) (Some (JStr fresh))).

(** The loop of [upsertUserProfile] over the users: the first user with the
    id of the profile is replaced; [None] when there is none. *)
Fixpoint upsert_found (p : profile) (fresh : string) (normalized : list user)
  : option (list user) :=
  match normalized with
  | [] => None
  | u :: rest =>
      if String.eqb (id u) (profile_id p) then Some (merged p fresh u :: rest)
      else cons u <$> upsert_found p fresh rest
  end.

(** The users [upsertUserProfile] hands to [saveUsersFile]; [fresh] is what
    [generateAnonHash] returns if it is called. *)
Definition upserted (p : profile) (fresh : string) (users : list user) : list user :=
  match upsert_found p fresh users with
  | Some normalized => normalized
  | None =>
      users ++ [User (profile_id p) editor (profile_username p) (profile_discriminator p)
                  (profile_avatar p) (Some (JStr fresh))]
  end.

Definition upsertUserProfile (p : profile) (fresh : string) (d : disk) : disk :=
  let (users, d1) := loadUsersFile d in
  snd (saveUsersFile (upserted p fresh users) d1).

(** The verify callback of the login strategy: [None] when the login is
    refused (the user is not in the file), otherwise the [isAdmin] mark of the
    session user it hands on. *)
Definition verify (p : profile) (fresh : string) (d : disk) : option bool * disk :=
  let (rec, d1) := getUserRecord (profile_id p) d in
  match rec with
  | None => (None, d1)
  | Some r => (Some (is_admin (role r)), upsertUserProfile p fresh d1)
  end.

(** A user as the file keeps it: every profile property is missing or a
    non-empty string. *)
Definition kept_field (x : option value) : bool :=
  match x with
  | None => true
  | Some (JStr s) => negb (String.eqb s EmptyString)
  | Some _ => false
  end.

Definition kept (u : user) : bool :=
  kept_field (username u) && kept_field (discriminator u)
  && kept_field (avatar u) && kept_field (anonHash u).

(** The record the batch route reads of a user. *)
Definition record_of (u : user) : user_record :=
  UserRecord (id u) (is_admin (role u))
             (match username u with Some (JStr s) => Some s | _ => None end)
             (match anonHash u with Some (JStr s) => Some s | _ => None end).

(** The configuration of the file routes over a disk. *)
Definition config_over (parse : string -> option value) (dev : bool) (d : disk) : config :=
  Config parse dev (map record_of (fst (loadUsersFile d))).

(** A user reduced to id and role. *)
Definition bare (u : user) : Prop :=
  username u = None /\ discriminator u = None /\ avatar u = None /\ anonHash u = None.

(** The request gets through [requireAuth] and [requireAdmin]. *)
Definition passes_admin (dev : bool) (user : option session_user) (d : disk) : bool :=
  dev || match user with
         | Some u =>
             match fst (getUserRecord (user_id u) d) with
             | Some r => is_admin (role r)
             | None => false
             end
         | None => false
         end.

(** A profile property as the identity provider sends it: missing, [null]
    or a string. *)
Definition sent_field (x : option value) : bool :=
  match x with
  | None | Some JNull | Some (JStr _) => true
  | Some _ => false
  end.

Definition sent (p : profile) : bool :=
  sent_field (profile_username p) && sent_field (profile_discriminator p)
  && sent_field (profile_avatar p).

(** An admin and an editor, as the file keeps them after both have logged
    in. *)
Definition example_users : list user :=
  [User "1" admin (Some (JStr "ann")) None None (Some (JStr "00112233aabbccdd"));
   User "42" editor (Some (JStr "bob")) None None (Some (JStr "a1b2c3d4e5f60718"))].

Definition example_disk : disk :=
  Disk (Document (JArr (map to_json example_users))) true.

Definition example_admin : option session_user := Some (SessionUser "1" "ann").

End Users.

(* ================================================================== *)
(** * Properties *)

(** Case analysis on the conditions of the goal. *)
Ltac case_condition :=
  match goal with
  | |- context [if ?c then _ else _] => destruct c
  end.

Ltac case_conditions := repeat case_condition.

(** ** Strings *)

Lemma append_assoc (a b c : string) : (a +:+ b) +:+ c = a +:+ (b +:+ c).
Proof. induction a as [|x a IH]; simpl; [reflexivity | f_equal; exact IH]. Qed.

Lemma append_empty_r (a : string) : a +:+ EmptyString = a.
Proof. induction a as [|x a IH]; simpl; [reflexivity | f_equal; exact IH]. Qed.

Lemma append_inj_l (a b c : string) : a +:+ b = a +:+ c -> b = c.
Proof. induction a as [|x a IH]; cbn; [easy|]. intros H. injection H as H. now apply IH. Qed.

Lemma append_length (a b : string) :
  String.length (a +:+ b) = String.length a + String.length b.
Proof. induction a as [|x a IH]; cbn; [reflexivity | now rewrite IH]. Qed.

Lemma text_neq_refl (a : option string) : text_neq a a = false.
Proof. destruct a as [s|]; simpl; [now rewrite String.eqb_refl | reflexivity]. Qed.

(** ** The JSON text of a value determines the value *)

Section JsonText.

Lemma unescape_escape_char (c : ascii) (t : string) :
  unescape_char (escape_char c +:+ t) = Some (c, t).
Proof. destruct c as [[] [] [] [] [] [] [] []]; reflexivity. Qed.

Lemma escape_inj_app (s1 : string) : forall s2 r1 r2,
  escape s1 +:+ dquote +:+ r1 = escape s2 +:+ dquote +:+ r2 -> s1 = s2 /\ r1 = r2.
Proof.
  induction s1 as [|c1 s1 IH]; intros [|c2 s2] r1 r2 H; simpl in H.
  - injection H as ->. split; reflexivity.
  - rewrite append_assoc in H. apply (f_equal unescape_char) in H.
    rewrite unescape_escape_char in H. discriminate H.
  - rewrite append_assoc in H. apply (f_equal unescape_char) in H.
    rewrite unescape_escape_char in H. discriminate H.
  - rewrite !append_assoc in H. apply (f_equal unescape_char) in H.
    rewrite !unescape_escape_char in H. injection H as -> H.
    destruct (IH _ _ _ H) as [-> ->]. split; reflexivity.
Qed.

Lemma quote_inj_app (s1 s2 r1 r2 : string) :
  quote s1 +:+ r1 = quote s2 +:+ r2 -> s1 = s2 /\ r1 = r2.
Proof.
  unfold quote. rewrite !append_assoc. intros H.
  apply String.app_inj in H. rewrite <- !append_assoc in H.
  rewrite !append_assoc in H. now apply escape_inj_app.
Qed.

Lemma number_inj_app (s1 : string) : forall s2 r1 r2,
  num_chars s1 = true -> num_chars s2 = true -> stops r1 = true -> stops r2 = true ->
  s1 +:+ r1 = s2 +:+ r2 -> s1 = s2 /\ r1 = r2.
Proof.
  induction s1 as [|c1 s1 IH]; intros [|c2 s2] r1 r2 H1 H2 S1 S2 H; simpl in *.
  - now split.
  - subst r1. simpl in S1. apply andb_true_iff in H2 as [H2 _].
    rewrite H2 in S1. discriminate.
  - subst r2. simpl in S2. apply andb_true_iff in H1 as [H1 _].
    rewrite H1 in S2. discriminate.
  - injection H as -> H.
    apply andb_true_iff in H1 as [_ H1]. apply andb_true_iff in H2 as [_ H2].
    destruct (IH _ _ _ H1 H2 S1 S2 H) as [-> ->]. now split.
Qed.

Lemma join_cons (sep p : string) (rest : list string) :
  join sep (p :: rest)
  = p +:+ match rest with [] => EmptyString | _ => sep +:+ join sep rest end.
Proof. destruct rest; simpl; [now rewrite append_empty_r | reflexivity]. Qed.

(** Lists of items between a bracket and its closing character [close]:
    when each item can be read back in front of a stop, so can the list. *)
Lemma joined_inj_app {A} (f : A -> string) (ok : A -> Prop) (close : ascii) :
  num_char close = false -> close <> ","%char ->
  (forall x, ok x -> not_headed close (f x) = true) ->
  forall l1 : list A,
  Forall (fun x => forall y r1 r2, ok y -> stops r1 = true -> stops r2 = true ->
                     f x +:+ r1 = f y +:+ r2 -> x = y /\ r1 = r2) l1 ->
  Forall ok l1 ->
  forall l2 r1 r2, Forall ok l2 ->
    join "," (map f l1) +:+ String close r1 = join "," (map f l2) +:+ String close r2 ->
    l1 = l2 /\ r1 = r2.
Proof.
  intros Hclose Hcomma Hhead l1 IH Hok1.
  induction IH as [|x l1 Hx _ IHl]; intros l2 r1 r2 Hok2 H.
  - destruct l2 as [|y l2].
    + simpl in H. injection H as ->. now split.
    + exfalso. inversion Hok2 as [|? ? Hy _]; subst.
      change (map f (y :: l2)) with (f y :: map f l2) in H.
      rewrite join_cons, append_assoc in H.
      specialize (Hhead y Hy). destruct (f y) as [|c s]; [discriminate|].
      simpl in H, Hhead. injection H as <- _.
      now rewrite Ascii.eqb_refl in Hhead.
  - inversion Hok1 as [|? ? Hokx Hok1']; subst.
    destruct l2 as [|y l2].
    + exfalso. change (map f (x :: l1)) with (f x :: map f l1) in H.
      rewrite join_cons, append_assoc in H.
      specialize (Hhead x Hokx). destruct (f x) as [|c s]; [discriminate|].
      simpl in H, Hhead. injection H as -> _.
      now rewrite Ascii.eqb_refl in Hhead.
    + inversion Hok2 as [|? ? Hoky Hok2']; subst.
      change (map f (x :: l1)) with (f x :: map f l1) in H.
      change (map f (y :: l2)) with (f y :: map f l2) in H.
      rewrite !join_cons, !append_assoc in H.
      apply Hx in H; [|assumption| |].
      * destruct H as [-> H].
        destruct l1 as [|x1 l1], l2 as [|y1 l2]; simpl map in H.
        -- simpl in H. injection H as ->. now split.
        -- exfalso. simpl in H. injection H as Hc _. now apply Hcomma.
        -- exfalso. simpl in H. injection H as Hc _. now apply Hcomma.
        -- change ("," +:+ ?a) with (String "," a) in H.
           simpl in H. injection H as H.
           destruct (IHl Hok1' (y1 :: l2) r1 r2 Hok2' H) as [-> ->]. now split.
      * destruct (map f l1); simpl; [now rewrite Hclose | reflexivity].
      * destruct (map f l2); simpl; [now rewrite Hclose | reflexivity].
Qed.

Lemma forallb_Forall_true {A} (f : A -> bool) (l : list A) :
  forallb f l = true <-> Forall (fun x => f x = true) l.
Proof. rewrite List.forallb_forall, List.Forall_forall. reflexivity. Qed.

Lemma numeric_text_head (text : string) :
  numeric_text text = true ->
  exists c rest, text = String c rest /\ num_char c = true /\ num_chars text = true.
Proof.
  unfold numeric_text. destruct text as [|c rest]; [discriminate|]. simpl.
  intros H. exists c, rest.
  split; [reflexivity|]. split; [|exact H].
  now apply andb_true_iff in H as [H _].
Qed.

(** The JSON text of a finite number is its decimal text. *)
Lemma number_text_numeric (text : string) :
  numeric_text text = true -> number_text text = text.
Proof.
  intros H. unfold number_text, non_finite.
  destruct (String.eqb_spec text "Infinity") as [->|_]; [discriminate H|].
  destruct (String.eqb_spec text "-Infinity") as [->|_]; [discriminate H | reflexivity].
Qed.

Lemma stringify_not_closing (v : value) :
  well_formed v = true -> not_headed "]" (stringify v) = true.
Proof.
  destruct v as [|[]|text|s|items|props]; intros W; try reflexivity.
  cbn [stringify]. rewrite (number_text_numeric text W).
  simpl in W. apply numeric_text_head in W as (c & rest & -> & Hc & _).
  simpl. destruct (Ascii.eqb_spec c "]"); [subst c; discriminate Hc | reflexivity].
Qed.

(** Case analysis on the second of two values with equal JSON texts. *)
Ltac read_other b Wb H :=
  destruct b as [|[]|y|y|l2|o2]; cbn [stringify] in H;
  try rewrite (number_text_numeric _ Wb) in H; simpl in H; try discriminate H.

(** A value is read back from its JSON text, whatever stop follows. *)
Lemma stringify_inj_app (a : value) :
  well_formed a = true ->
  forall b r1 r2, well_formed b = true -> stops r1 = true -> stops r2 = true ->
    stringify a +:+ r1 = stringify b +:+ r2 -> a = b /\ r1 = r2.
Proof.
  induction a as [|x|x|x|l1 IH|o1 IH] using value_ind; intros Wa b r1 r2 Wb S1 S2 H.
  - read_other b Wb H.
    + injection H as ->. now split.
    + simpl in Wb. apply numeric_text_head in Wb as (c & rest & -> & Hc & _).
      simpl in H. injection H as <- _. discriminate Hc.
  - destruct x; read_other b Wb H;
      try (injection H as ->; now split);
      simpl in Wb; apply numeric_text_head in Wb as (c & rest & -> & Hc & _);
      simpl in H; injection H as <- _; discriminate Hc.
  - cbn [stringify] in H. rewrite (number_text_numeric x Wa) in H.
    simpl in Wa. apply numeric_text_head in Wa as (c & rest & -> & Hc & Hn).
    destruct b as [|[]|y|y|l2|o2]; cbn [stringify] in H;
      try rewrite (number_text_numeric _ Wb) in H; simpl in H;
      try (injection H as -> _; discriminate Hc).
    simpl in Wb. apply numeric_text_head in Wb as (c' & rest' & -> & Hc' & Hn').
    change (String c rest +:+ r1 = String c' rest' +:+ r2) in H.
    destruct (number_inj_app _ _ _ _ Hn Hn' S1 S2 H) as [-> ->]. now split.
  - read_other b Wb H.
    + simpl in Wb. apply numeric_text_head in Wb as (c & rest & -> & Hc & _).
      simpl in H. injection H as <- _. discriminate Hc.
    + change (quote x +:+ r1 = quote y +:+ r2) in H.
      apply quote_inj_app in H as [-> ->]. now split.
  - read_other b Wb H.
    + simpl in Wb. apply numeric_text_head in Wb as (c & rest & -> & Hc & _).
      simpl in H. injection H as <- _. discriminate Hc.
    + injection H as H. rewrite !append_assoc in H.
      simpl in Wa, Wb. apply forallb_Forall_true in Wa, Wb.
      apply (joined_inj_app stringify (fun v => well_formed v = true) "]") in H.
      * destruct H as [-> ->]. now split.
      * reflexivity.
      * discriminate.
      * apply stringify_not_closing.
      * rewrite Forall_forall in IH, Wa |- *. intros v Hin y q1 q2 Wy Q1 Q2 E.
        now apply (IH v Hin (Wa v Hin) y q1 q2).
      * exact Wa.
      * exact Wb.
  - read_other b Wb H.
    + simpl in Wb. apply numeric_text_head in Wb as (c & rest & -> & Hc & _).
      simpl in H. injection H as <- _. discriminate Hc.
    + injection H as H. rewrite !append_assoc in H.
      simpl in Wa, Wb. apply forallb_Forall_true in Wa, Wb.
      apply (joined_inj_app (fun kv => quote (fst kv) +:+ ":" +:+ stringify (snd kv))
               (fun kv => well_formed (snd kv) = true) "}") in H.
      * destruct H as [-> ->]. now split.
      * reflexivity.
      * discriminate.
      * intros kv _. reflexivity.
      * rewrite Forall_forall in IH, Wa |- *.
        intros [k v] Hin [k' v'] q1 q2 Wy Q1 Q2 E. cbn [fst snd] in *.
        rewrite !append_assoc in E. apply quote_inj_app in E as [-> E].
        injection E as E.
        destruct (IH _ Hin (Wa _ Hin) v' q1 q2 Wy Q1 Q2 E) as [Ev Eq].
        cbn [snd] in Ev. subst. now split.
      * exact Wa.
      * exact Wb.
Qed.

(** Two values with the same JSON text are the same value. *)
Lemma stringify_inj (a b : value) :
  well_formed a = true -> well_formed b = true -> stringify a = stringify b -> a = b.
Proof.
  intros Wa Wb H.
  destruct (stringify_inj_app a Wa b EmptyString EmptyString Wb eq_refl eq_refl) as [E _];
    [now rewrite !append_empty_r | exact E].
Qed.

(** The JSON text does not tell a number that is not finite from [null]. *)
Lemma stringify_reread (v : value) : stringify (reread v) = stringify v.
Proof.
  induction v as [|x|x|x|items IH|props IH] using value_ind; try reflexivity.
  - cbn [reread stringify]. unfold number_text.
    destruct (non_finite x) eqn:E; [reflexivity|].
    cbn [stringify]. unfold number_text. now rewrite E.
  - cbn [reread stringify]. rewrite List.map_map.
    rewrite (List.map_ext_in (fun v => stringify (reread v)) stringify items);
      [reflexivity|].
    intros v Hin. rewrite List.Forall_forall in IH. now apply IH.
  - cbn [reread stringify]. rewrite List.map_map.
    rewrite (List.map_ext_in
               (fun kv => quote (fst (fst kv, reread (snd kv))) +:+ ":"
                            +:+ stringify (snd (fst kv, reread (snd kv))))
               (fun kv => quote (fst kv) +:+ ":" +:+ stringify (snd kv)) props);
      [reflexivity|].
    intros [k v] Hin. cbn [fst snd].
    rewrite List.Forall_forall in IH. specialize (IH (k, v) Hin). cbn [snd] in IH.
    now rewrite IH.
Qed.

Lemma reread_well_formed (v : value) :
  json_value v = true -> well_formed (reread v) = true.
Proof.
  induction v as [|x|x|x|items IH|props IH] using value_ind; intros J; try reflexivity.
  - cbn [reread]. cbn [json_value] in J.
    destruct (non_finite x); [reflexivity|].
    now rewrite orb_false_r in J.
  - cbn [reread well_formed]. cbn [json_value] in J.
    rewrite List.forallb_forall in J |- *. intros w Hw.
    apply List.in_map_iff in Hw as (v & <- & Hin).
    rewrite List.Forall_forall in IH. apply (IH v Hin). now apply J.
  - cbn [reread well_formed]. cbn [json_value] in J.
    rewrite List.forallb_forall in J |- *. intros w Hw.
    apply List.in_map_iff in Hw as ([k v] & <- & Hin). cbn [fst snd].
    rewrite List.Forall_forall in IH. apply (IH (k, v) Hin). now apply (J (k, v)).
Qed.

(** The test of the source, [JSON.stringify(a) !== JSON.stringify(b)], holds
    exactly when the two entries are not the same value once each is read
    back from its JSON text: the same items and the same properties in the
    same order, a number that is not finite standing for [null]. *)
Lemma text_neq_reread (a b : option value) :
  (forall v, a = Some v -> json_value v = true) ->
  (forall v, b = Some v -> json_value v = true) ->
  text_neq (JSON_stringify a) (JSON_stringify b) = true <-> reread <$> a <> reread <$> b.
Proof.
  intros Ja Jb. destruct a as [x|], b as [y|]; simpl.
  - rewrite negb_true_iff, String.eqb_neq. split.
    + intros Hn E. injection E as E. apply Hn.
      now rewrite <- (stringify_reread x), <- (stringify_reread y), E.
    + intros Hn E. apply Hn. f_equal.
      rewrite <- (stringify_reread x), <- (stringify_reread y) in E.
      apply stringify_inj; [apply reread_well_formed | apply reread_well_formed | exact E]; auto.
  - split; [discriminate | reflexivity].
  - split; [discriminate | reflexivity].
  - split; [discriminate | intros Hn; now elim Hn].
Qed.

(** A value whose numbers are finite is read back from its JSON text as it
    is. *)
Lemma reread_finite (v : value) : well_formed v = true -> reread v = v.
Proof.
  induction v as [|x|x|x|items IH|props IH] using value_ind; intros W; try reflexivity.
  - cbn [reread]. cbn [well_formed] in W.
    pose proof (number_text_numeric x W) as E. unfold number_text in E.
    destruct (non_finite x); [|reflexivity].
    subst x. discriminate W.
  - cbn [reread]. f_equal. cbn [well_formed] in W.
    rewrite List.forallb_forall in W. rewrite List.Forall_forall in IH.
    rewrite <- (List.map_id items) at 2. apply List.map_ext_in.
    intros v Hin. apply (IH v Hin). now apply W.
  - cbn [reread]. f_equal. cbn [well_formed] in W.
    rewrite List.forallb_forall in W. rewrite List.Forall_forall in IH.
    rewrite <- (List.map_id props) at 2. apply List.map_ext_in.
    intros [k v] Hin. cbn [fst snd]. f_equal. apply (IH (k, v) Hin). now apply (W (k, v)).
Qed.

End JsonText.

(** ** The change report generator *)

Section Report.

Implicit Types (old new : list value) (p : string).

(** The generator on the scenario of section 8.7 of the specification, on a
    document whose title and number of sections change, and on a batch of an
    unchanged and a changed file. *)
Example report_new_location :
  generateChangeReport
    (JArr [])
    (JArr [JObj [("id", JStr "hull-royal-hotel"); ("location", JStr "Hull");
                 ("venue", JStr "Royal Hotel"); ("lat", JNum "53.77");
                 ("lng", JNum "-0.33")]])
    "data/locations.json"
  = Return ["  - locations.json: 0 → 1 entries"; "    • Added 1 new entry"].
Proof. reflexivity. Qed.

Example report_document :
  generateChangeReport
    (JObj [("title", JStr "About"); ("sections", JArr [JStr "a"])])
    (JObj [("title", JStr "About us"); ("sections", JArr [JStr "a"; JStr "b"])])
    "data/about.json"
  = Return ["  - about.json: title, 1 → 2 sections"].
Proof. reflexivity. Qed.

Example report_two_files :
  changeReports
    [FileEntry "data/live.json" (JArr [JNum "1"]);
     FileEntry "data/times.json" (JArr [JNum "1"; JNum "3"])]
    [JArr [JNum "1"]; JArr [JNum "1"; JNum "2"]]
  = Return ["  - live.json: No changes detected"; "  - times.json: Modified 1 entry"].
Proof. reflexivity. Qed.

Example blob_text :
  stringify_indent 0 (JArr [JNum "1"; JArr []; JArr [JNull]])
  = "[" +:+ newline +:+ "    1," +:+ newline +:+ "    []," +:+ newline
        +:+ "    [" +:+ newline +:+ "        null" +:+ newline +:+ "    ]" +:+ newline +:+ "]".
Proof. reflexivity. Qed.

Lemma filter_never {A} (P : A -> Prop) `{forall x, Decision (P x)} (l : list A) :
  (forall x, x ∈ l -> ~ P x) -> filter P l = [].
Proof.
  induction l as [|x l IH]; intros Hn; [reflexivity|].
  rewrite filter_cons. destruct (decide (P x)) as [Hx|_].
  - exfalso. apply (Hn x); [left | exact Hx].
  - apply IH. intros y Hy. apply Hn. now right.
Qed.

Lemma count_modified_same old : count_modified old old = 0.
Proof.
  unfold count_modified. rewrite filter_never; [reflexivity|].
  intros i _. now rewrite text_neq_refl.
Qed.

Lemma generateChangeReport_arrays old new p :
  generateChangeReport (JArr old) (JArr new) p
  = Return (array_report (pop (split "/" p)) old new).
Proof.
  unfold generateChangeReport. simpl.
  assert (H : (0 <? length (array_report (pop (split "/" p)) old new))%nat = true).
  { unfold array_report.
    destruct (negb (length old =? length new)%nat); [reflexivity|].
    destruct (0 <? count_modified old new)%nat; reflexivity. }
  now rewrite H.
Qed.

(** C2 (the defect). The default skeleton of a document against a [null]
    new content: both operands have [typeof] ['object'], so the object branch
    reads [newContent.title] of [null] and the generator throws. *)
Lemma generateChangeReport_null_raises :
  generateChangeReport (JObj [("title", JStr EmptyString); ("sections", JArr [])])
                       JNull "data/about.json"
  = Throw TypeError.
Proof. reflexivity. Qed.

(** The same input through the route: the batch fails with status 500. *)
Lemma post_batch_null_content (parse : string -> option value) :
  fst (post_batch (Config parse true []) None [FileEntry "data/about.json" JNull] None
         (World (Store 0 ∅ {[ 1 := ∅ ]} {[ 0 := Commit 1 [] "init" ]} 2) [] []))
  = Return (Response 500 (ErrorBody "Batch update failed" (Some (Raised TypeError)))).
Proof. reflexivity. Qed.

(** Sections that are two texts of the same length: a text has no
    [filter]. *)
Lemma generateChangeReport_sections_raises :
  generateChangeReport (JObj [("sections", JStr "ab")]) (JObj [("sections", JStr "cd")])
                       "data/about.json"
  = Throw TypeError.
Proof. reflexivity. Qed.

(** C3 as stated fails: a list against a document is a mixed pair, neither
    two lists nor two documents, and the report is not the generic line. *)
Lemma mixed_shapes_not_updated :
  let old := JArr [] in
  let new := JObj [("title", JStr EmptyString); ("sections", JArr [])] in
  isArray old && isArray new = false
  /\ is_document old && is_document new = false
  /\ generateChangeReport old new "data/about.json"
     = Return ["  - about.json: No changes detected"]
  /\ generateChangeReport old new "data/about.json"
     <> Return [updated_line "data/about.json"].
Proof. repeat split; try reflexivity. discriminate. Qed.

(** A line of the object branch is never the generic line. *)
Lemma object_report_not_updated (fileName : string) (oldContent newContent : value)
    (lines : list string) :
  object_report fileName oldContent newContent = Return lines ->
  lines <> [] /\ lines <> ["  - " +:+ fileName +:+ ": Updated"].
Proof.
  unfold object_report, mbind, outcome_bind, obind.
  destruct (get_prop oldContent "title") as [t1|]; [|discriminate].
  destruct (get_prop newContent "title") as [t2|]; [|discriminate].
  destruct (get_prop oldContent "sections") as [s1|]; [|discriminate].
  destruct (get_prop newContent "sections") as [s2|]; [|discriminate].
  destruct (get_prop (js_or s1 (JArr [])) "length") as [n1|]; [|discriminate].
  destruct (get_prop (js_or s2 (JArr [])) "length") as [n2|]; [|discriminate].
  set (changes0 := if strict_neq _ _ then ["title"] else []).
  assert (H0 : changes0 = [] \/ changes0 = ["title"])
    by (subst changes0; destruct (strict_neq _ _); auto).
  clearbody changes0.
  assert (Hline : forall summary,
             summary <> "Updated" ->
             ["  - " +:+ fileName +:+ ": " +:+ summary]
             <> ["  - " +:+ fileName +:+ ": Updated"]).
  { intros summary Hs E. injection E as E. apply append_inj_l in E.
    injection E as E. now apply Hs. }
  assert (Hlong : forall x, 7 < String.length x -> join ", " (changes0 ++ [x]) <> "Updated").
  { intros x Hlen E. destruct H0 as [->| ->]; cbn in E; [|discriminate E].
    subst x. cbn in Hlen. lia. }
  assert (Hfinal : forall changes,
             (changes = changes0 \/ exists x, 7 < String.length x /\ changes = changes0 ++ [x]) ->
             (if (0 <? length changes)%nat
              then Return ["  - " +:+ fileName +:+ ": " +:+ join ", " changes]
              else Return ["  - " +:+ fileName +:+ ": No changes detected"])
             = Return (E := js_error) lines ->
             lines <> [] /\ lines <> ["  - " +:+ fileName +:+ ": Updated"]).
  { intros changes Hc. destruct (0 <? length changes)%nat eqn:El; intros H; injection H as <-;
      (split; [discriminate|]); apply Hline; [|discriminate].
    destruct Hc as [->|(x & Hlen & ->)]; [|now apply Hlong].
    destruct H0 as [->| ->]; [discriminate El | discriminate]. }
  destruct (strict_neq n1 n2).
  - destruct (template n1) as [a|]; [|discriminate].
    destruct (template n2) as [b|]; [|discriminate].
    apply Hfinal. right. eexists. split; [|reflexivity].
    rewrite !append_length. cbn. lia.
  - destruct (modified_sections _ _) as [l|]; [|discriminate].
    destruct (0 <? length l)%nat.
    + apply Hfinal. right. eexists. split; [|reflexivity].
      rewrite !append_length. cbn. lia.
    + apply Hfinal. now left.
Qed.

(** The completed document of a list or an object is read by the object
    branch as the value itself is. *)
Lemma as_document_report (fileName : string) (oldContent newContent : value) :
  oldContent <> JNull -> newContent <> JNull ->
  object_report fileName (as_document oldContent) (as_document newContent)
  = object_report fileName oldContent newContent.
Proof.
  intros Ho Hn. unfold object_report, as_document, property.
  assert (Hg : forall v name, v <> JNull -> exists x, get_prop v name = Return x).
  { intros v name Hv. destruct v; try (eexists; reflexivity). now elim Hv. }
  destruct (Hg oldContent "title" Ho) as [t1 ->], (Hg newContent "title" Hn) as [t2 ->],
    (Hg oldContent "sections" Ho) as [s1 ->], (Hg newContent "sections" Hn) as [s2 ->].
  cbn [get_prop own String.eqb Ascii.eqb Bool.eqb mbind outcome_bind obind].
  assert (Hor : forall x d, truthy d = true -> js_or (Some (js_or x d)) d = js_or x d).
  { intros x d Hd. destruct x as [v|]; cbn [js_or].
    - destruct (truthy v) eqn:Ev; [now rewrite Ev | now rewrite Hd].
    - now rewrite Hd. }
  assert (Hempty : js_or (Some (js_or t1 (JStr EmptyString))) (JStr EmptyString)
                   = js_or t1 (JStr EmptyString)
                   /\ js_or (Some (js_or t2 (JStr EmptyString))) (JStr EmptyString)
                      = js_or t2 (JStr EmptyString)).
  { split.
    - destruct t1 as [v|]; cbn [js_or]; [|reflexivity].
      destruct (truthy v) eqn:Ev; [now rewrite Ev | reflexivity].
    - destruct t2 as [v|]; cbn [js_or]; [|reflexivity].
      destruct (truthy v) eqn:Ev; [now rewrite Ev | reflexivity]. }
  destruct Hempty as [-> ->].
  rewrite !(Hor _ (JArr [])) by reflexivity.
  reflexivity.
Qed.

(** C3 (amended). When at least one of the two contents is a boolean, a
    number or a string, the report is exactly the generic "Updated" line of
    the file.  Two contents that are lists or objects, neither of them
    [null], never get the generic line; when they are not both lists (a list
    against a document, an object without title or sections) they are
    reported as the two documents obtained by reading a missing or falsy
    title as [''] and missing or falsy sections as [[]]. *)
Theorem primitive_content_updated (oldContent newContent : value) p :
  (typeof_object oldContent && typeof_object newContent = false ->
   generateChangeReport oldContent newContent p = Return [updated_line p])
  /\ (typeof_object oldContent && typeof_object newContent = true ->
      oldContent <> JNull -> newContent <> JNull ->
      generateChangeReport oldContent newContent p <> Return [updated_line p]
      /\ (isArray oldContent && isArray newContent = false ->
          generateChangeReport oldContent newContent p
          = generateChangeReport (as_document oldContent) (as_document newContent) p)).
Proof.
  split.
  - intros H. unfold generateChangeReport.
    assert (Ha : isArray oldContent && isArray newContent = false).
    { destruct oldContent, newContent; simpl in *; congruence. }
    rewrite Ha, H. reflexivity.
  - intros H Ho Hn.
    assert (Hobj : isArray oldContent && isArray newContent = false ->
                   generateChangeReport oldContent newContent p
                   = (report ← object_report (pop (split "/" p)) oldContent newContent;
                      Return (if (0 <? length report)%nat then report
                              else [updated_line p]))).
    { intros Ha. unfold generateChangeReport. now rewrite Ha, H. }
    split.
    + destruct (isArray oldContent && isArray newContent) eqn:Ea.
      * destruct oldContent as [| | | |o|], newContent as [| | | |n|]; try discriminate Ea.
        rewrite generateChangeReport_arrays. unfold array_report, updated_line.
        intros E. injection E as E.
        destruct (negb (length o =? length n)%nat); [discriminate E|].
        destruct (0 <? count_modified o n)%nat; injection E as E;
          apply append_inj_l in E; discriminate E.
      * rewrite (Hobj eq_refl). unfold mbind, outcome_bind, obind.
        destruct (object_report _ _ _) as [report|] eqn:Er; [|discriminate].
        destruct (object_report_not_updated _ _ _ _ Er) as [Hsome Hne].
        destruct report as [|line report]; [now elim Hsome|].
        cbn [length Nat.ltb Nat.leb]. intros E. injection E as E1 E2. apply Hne. now rewrite E1, E2.
    + intros Ha. rewrite (Hobj Ha). unfold generateChangeReport.
      cbn [as_document isArray typeof_object andb].
      now rewrite as_document_report.
Qed.

Lemma primitive_content_updated_witness :
  generateChangeReport (JStr "about") (JArr []) "data/about.json"
  = Return ["  - about.json: Updated"]
  /\ generateChangeReport (JArr []) (JObj [("sections", JArr [JNull])]) "data/about.json"
     = generateChangeReport (JObj [("title", JStr EmptyString); ("sections", JArr [])])
                            (JObj [("title", JStr EmptyString); ("sections", JArr [JNull])])
                            "data/about.json".
Proof.
  split.
  - apply (primitive_content_updated (JStr "about") (JArr []) "data/about.json"). reflexivity.
  - apply (primitive_content_updated (JArr []) (JObj [("sections", JArr [JNull])])
             "data/about.json"); [reflexivity | discriminate | discriminate | reflexivity].
Defined.


Lemma modified_sections_same (items : list value) :
  modified_sections (JArr items) (JArr items) = Return [].
Proof.
  unfold modified_sections. f_equal.
  rewrite filter_never; [reflexivity|].
  intros [i x] Hin. apply list_elem_of_lookup in Hin as [j Hj].
  rewrite list_lookup_imap in Hj.
  destruct (items !! j) as [y|] eqn:Hy; simpl in Hj; [|discriminate].
  injection Hj as <- <-. simpl. rewrite Hy. simpl.
  now rewrite String.eqb_refl.
Qed.

(** C5. For a list or a document [x], the report of [x] against itself is
    the single line "No changes detected" of the file. *)
Theorem same_content_no_changes (x : value) p :
  recognized x = true ->
  generateChangeReport x x p = Return [no_changes_line p].
Proof.
  intros Hx. destruct x as [| | | |items|props]; try discriminate Hx.
  - rewrite generateChangeReport_arrays. unfold array_report.
    rewrite Nat.eqb_refl. simpl. now rewrite count_modified_same.
  - unfold recognized in Hx. simpl in Hx.
    destruct (own "title" props) as [[| | |t| |]|] eqn:Ht; try discriminate Hx.
    destruct (own "sections" props) as [[| | | |secs|]|] eqn:Hs; try discriminate Hx.
    unfold generateChangeReport, object_report.
    cbn [isArray typeof_object andb get_prop mbind outcome_bind obind].
    rewrite Ht, Hs. cbn [js_or truthy].
    destruct (negb (String.eqb t EmptyString));
      cbn [get_prop mbind outcome_bind obind]; rewrite String.eqb_refl;
      cbn [strict_neq negb]; rewrite ?String.eqb_refl; cbn [negb];
      rewrite modified_sections_same; reflexivity.
Qed.

Lemma same_content_no_changes_witness :
  generateChangeReport (JObj [("title", JStr "About"); ("sections", JArr [JStr "a"])])
                       (JObj [("title", JStr "About"); ("sections", JArr [JStr "a"])])
                       "data/about.json"
  = Return ["  - about.json: No changes detected"].
Proof.
  apply (same_content_no_changes
           (JObj [("title", JStr "About"); ("sections", JArr [JStr "a"])]) "data/about.json").
  reflexivity.
Defined.

Lemma filter_equiv {A} (P Q : A -> Prop) `{forall x, Decision (P x)} `{forall x, Decision (Q x)}
    (l : list A) :
  (forall x, x ∈ l -> (P x <-> Q x)) -> filter P l = filter Q l.
Proof.
  induction l as [|x l IH]; intros Hpq; [reflexivity|].
  rewrite !filter_cons.
  assert (Hx : P x <-> Q x) by (apply Hpq; left).
  assert (Hl : filter P l = filter Q l) by (apply IH; intros y Hy; apply Hpq; now right).
  destruct (decide (P x)), (decide (Q x)); rewrite Hl; tauto.
Qed.

(** The count of the source is the number of indices at which the two
    lists hold entries that differ once read back from their JSON texts. *)
Lemma count_modified_reread old new :
  Forall (fun v => json_value v = true) old ->
  Forall (fun v => json_value v = true) new ->
  count_modified old new
  = length (filter (fun i => reread <$> old !! i <> reread <$> new !! i)
                   (seq 0 (length old))).
Proof.
  intros Jo Jn. unfold count_modified. f_equal. apply filter_equiv. intros i _.
  apply text_neq_reread; intros v Hv.
  - exact (proj1 (Forall_lookup _ _) Jo i v Hv).
  - exact (proj1 (Forall_lookup _ _) Jn i v Hv).
Qed.

(** C4 as stated fails.  Two entries that are deeply equal, the same keys
    with the same values in another order, count as modified; and an entry
    [null] against a number that is not finite, which are not equal, counts
    as unchanged. *)
Lemma list_report_not_structural :
  let a := JObj [("id", JStr "hull"); ("lat", JNum "53.7")] in
  let b := JObj [("lat", JNum "53.7"); ("id", JStr "hull")] in
  (deep_equal a b = true
   /\ generateChangeReport (JArr [a]) (JArr [b]) "data/locations.json"
      = Return ["  - locations.json: Modified 1 entry"])
  /\ (deep_equal JNull (JNum "Infinity") = false
      /\ generateChangeReport (JArr [JNull]) (JArr [JNum "Infinity"]) "data/live.json"
         = Return ["  - live.json: No changes detected"]).
Proof. repeat split. Qed.

(** C4 (amended). For two lists of values as [JSON.parse] returns them: when
    the lengths differ the report is the size line
    "old → new entries" followed by the number of entries added (the list
    grew) or removed (it shrank); when the lengths are equal it is the number
    of indices at which the entries have different JSON texts, that is, are
    not the same value with the same properties in the same order, a number
    that is not finite counting as [null]: "Modified k entries", or "No
    changes detected" when there is none.  The noun is in the singular when
    the count is one.  In particular lengths 3 and 5 give "3 → 5 entries" and
    "Added 2 new entries", and two lists of length 4 that differ in this
    sense exactly at indices 1 and 3 give "Modified 2 entries". *)
Theorem list_change_report old new p :
  let fileName := pop (split "/" p) in
  let differ i := reread <$> old !! i <> reread <$> new !! i in
  (length old < length new ->
   generateChangeReport (JArr old) (JArr new) p
   = Return ["  - " +:+ fileName +:+ ": " +:+ dec (length old) +:+ " → "
               +:+ dec (length new) +:+ " entries";
             "    • Added " +:+ dec (length new - length old) +:+ " new "
               +:+ plural (length new - length old) "entry" "entries"])
  /\ (length new < length old ->
      generateChangeReport (JArr old) (JArr new) p
      = Return ["  - " +:+ fileName +:+ ": " +:+ dec (length old) +:+ " → "
                  +:+ dec (length new) +:+ " entries";
                "    • Removed " +:+ dec (length old - length new) +:+ " "
                  +:+ plural (length old - length new) "entry" "entries"])
  /\ (length old = length new ->
      Forall (fun v => json_value v = true) old ->
      Forall (fun v => json_value v = true) new ->
      let k := length (filter differ (seq 0 (length old))) in
      generateChangeReport (JArr old) (JArr new) p
      = Return [if (k =? 0)%nat then no_changes_line p
                else "  - " +:+ fileName +:+ ": Modified " +:+ dec k +:+ " "
                       +:+ plural k "entry" "entries"])
  /\ (length old = 3 -> length new = 5 ->
      generateChangeReport (JArr old) (JArr new) p
      = Return ["  - " +:+ fileName +:+ ": 3 → 5 entries"; "    • Added 2 new entries"])
  /\ (length old = 4 -> length new = 4 ->
      Forall (fun v => json_value v = true) old ->
      Forall (fun v => json_value v = true) new ->
      (forall i, i < 4 -> (differ i <-> i = 1 \/ i = 3)) ->
      generateChangeReport (JArr old) (JArr new) p
      = Return ["  - " +:+ fileName +:+ ": Modified 2 entries"]).
Proof.
  intros fileName differ. rewrite generateChangeReport_arrays. fold fileName.
  unfold array_report. split; [|split; [|split; [|split]]].
  - intros Hlt.
    destruct (Nat.eqb_spec (length old) (length new)) as [E|_]; [lia|].
    destruct (Nat.ltb_spec (length old) (length new)) as [_|E]; [reflexivity | lia].
  - intros Hlt.
    destruct (Nat.eqb_spec (length old) (length new)) as [E|_]; [lia|].
    destruct (Nat.ltb_spec (length old) (length new)) as [E|_]; [lia | reflexivity].
  - intros Heq Jo Jn.
    rewrite (count_modified_reread old new Jo Jn). fold differ.
    replace (length old =? length new)%nat with true
      by (symmetry; apply Nat.eqb_eq; exact Heq).
    cbn [negb].
    destruct (length (filter differ (seq 0 (length old)))); reflexivity.
  - intros H3 H5. rewrite H3, H5. reflexivity.
  - intros Ho Hn Jo Jn Hd. rewrite Ho, Hn. cbn [Nat.eqb negb].
    rewrite (count_modified_reread old new Jo Jn), Ho. fold differ.
    assert (Hk : filter differ (seq 0 4) = [1; 3]).
    { cbn [seq]. rewrite !filter_cons, filter_nil.
      repeat match goal with
             | |- context [decide (differ ?i)] =>
                 let D := fresh in
                 destruct (decide (differ i)) as [D|D];
                 [apply Hd in D; [|lia] | rewrite Hd in D; [|lia]]
             end; try reflexivity; exfalso; lia. }
    rewrite Hk. reflexivity.
Qed.

Lemma list_change_report_witness :
  generateChangeReport (JArr [JStr "a"; JStr "b"; JStr "c"])
                       (JArr [JStr "a"; JStr "b"; JStr "c"; JStr "d"; JStr "e"])
                       "data/locations.json"
  = Return ["  - locations.json: 3 → 5 entries"; "    • Added 2 new entries"]
  /\ generateChangeReport (JArr [JNum "1"; JNum "2"; JNum "3"; JNum "4"])
                          (JArr [JNum "1"; JNum "20"; JNum "3"; JNum "4.5"])
                          "data/times.json"
     = Return ["  - times.json: Modified 2 entries"].
Proof.
  split.
  - apply (list_change_report [JStr "a"; JStr "b"; JStr "c"]
             [JStr "a"; JStr "b"; JStr "c"; JStr "d"; JStr "e"] "data/locations.json");
      reflexivity.
  - apply (list_change_report [JNum "1"; JNum "2"; JNum "3"; JNum "4"]
             [JNum "1"; JNum "20"; JNum "3"; JNum "4.5"] "data/times.json");
      try reflexivity.
    + repeat constructor.
    + repeat constructor.
    + intros i Hi. destruct i as [|[|[|[|i]]]]; simpl; split; intros H;
        try (exfalso; lia); try congruence; try lia; try (now elim H).
Defined.

End Report.

(** ** The server routes *)

Section Server.

Variable cfg : config.

Lemma quiet_ret {A} (a : A) : quiet (mret a : handler A).
Proof.
  intros w r w' H. injection H as <- <-. split; [reflexivity|].
  exists []. now rewrite app_nil_r.
Qed.

Lemma quiet_throw {A} (e : failure) : quiet (throw e : handler A).
Proof.
  intros w r w' H. injection H as <- <-. split; [reflexivity|].
  exists []. now rewrite app_nil_r.
Qed.

Create HintDb quiet.
#[local] Hint Resolve quiet_ret quiet_throw : quiet.

Lemma quiet_bind {A B} (m : handler A) (k : A -> handler B) :
  quiet m -> (forall a, quiet (k a)) -> quiet (m ≫= k).
Proof.
  intros Hm Hk w r w' H. unfold mbind, handler_bind in H.
  destruct (m w) as [[a|e] w1] eqn:E.
  - destruct (Hm _ _ _ E) as (Hb1 & l1 & Hl1 & Hp1).
    destruct (Hk a _ _ _ H) as (Hb2 & l2 & Hl2 & Hp2).
    split; [congruence|]. exists (l1 ++ l2).
    split; [now rewrite Hl2, Hl1, app_assoc | now apply Forall_app].
  - injection H as <- <-. exact (Hm _ _ _ E).
Qed.

Lemma quiet_try_catch {A} (m : handler A) (h : failure -> handler A) :
  quiet m -> (forall e, quiet (h e)) -> quiet (try_catch m h).
Proof.
  intros Hm Hh w r w' H. unfold try_catch in H.
  destruct (m w) as [[a|e] w1] eqn:E.
  - injection H as <- <-. exact (Hm _ _ _ E).
  - destruct (Hm _ _ _ E) as (Hb1 & l1 & Hl1 & Hp1).
    destruct (Hh e _ _ _ H) as (Hb2 & l2 & Hl2 & Hp2).
    split; [congruence|]. exists (l1 ++ l2).
    split; [now rewrite Hl2, Hl1, app_assoc | now apply Forall_app].
Qed.

Lemma serve_branch (st : store) (r : request) :
  is_patch r = false -> branch (snd (serve st r)) = branch st.
Proof.
  intros Hr. destruct r; try discriminate Hr; simpl;
    repeat match goal with
           | |- context [match ?x with _ => _ end] => destruct x
           end; reflexivity.
Qed.

Lemma call_log (r : request) (w : world) :
  log (snd (call r w)) = log w ++ [r] /\ script (snd (call r w)) = tail (script w).
Proof.
  unfold call. destruct (head (script w)) as [[| |]|]; simpl;
    try (destruct (serve (remote w) r) as [[rep|e] st]); simpl; split; reflexivity.
Qed.

Lemma quiet_call (r : request) : is_patch r = false -> quiet (call r).
Proof.
  intros Hr w res w' H.
  pose proof (call_log r w) as [Hl _]. rewrite H in Hl. simpl in Hl.
  split; [|exists [r]; split; [exact Hl | now constructor]].
  pose proof (serve_branch (remote w) r Hr) as Hs.
  unfold call in H. destruct (head (script w)) as [[| |]|];
    try (destruct (serve (remote w) r) as [[rep|e] st]);
    injection H as <- <-; simpl in *; auto.
Qed.

Lemma quiet_all {A} (ms : list (handler A)) : Forall quiet ms -> quiet (all ms).
Proof.
  induction 1 as [|m ms Hm _ IH]; intros w r w' H; simpl in H.
  - injection H as <- <-. split; [reflexivity|]. exists []. now rewrite app_nil_r.
  - destruct (m w) as [r1 w1] eqn:E1. destruct (all ms w1) as [rs w2] eqn:E2.
    injection H as <- <-.
    destruct (Hm _ _ _ E1) as (Hb1 & l1 & Hl1 & Hp1).
    destruct (IH _ _ _ E2) as (Hb2 & l2 & Hl2 & Hp2).
    split; [congruence|]. exists (l1 ++ l2).
    split; [now rewrite Hl2, Hl1, app_assoc | now apply Forall_app].
Qed.

Lemma quiet_lift {A} (o : outcome js_error A) : quiet (lift o).
Proof.
  intros w r w' H. unfold lift in H. destruct o; injection H as <- <-;
    (split; [reflexivity|]; exists []; now rewrite app_nil_r).
Qed.

Lemma quiet_reply_sha (rep : reply) : quiet (reply_sha rep).
Proof. destruct rep; simpl; auto with quiet. Qed.

Lemma quiet_reply_tree (rep : reply) : quiet (reply_tree rep).
Proof. destruct rep; simpl; auto with quiet. Qed.

Lemma quiet_fetchJsonFile (filePath : string) : quiet (fetchJsonFile cfg filePath).
Proof.
  unfold fetchJsonFile. apply quiet_bind; [now apply quiet_call|].
  intros [| | sha text|]; auto with quiet.
  destruct (JSON_parse cfg text); auto with quiet.
Qed.

Lemma quiet_oldContent (file : file_entry) : quiet (oldContent cfg file).
Proof.
  unfold oldContent. apply quiet_try_catch.
  - apply quiet_bind; [apply quiet_fetchJsonFile | intros a; apply quiet_ret].
  - intros _. match goal with |- quiet (if ?c then _ else _) => destruct c end;
      apply quiet_ret.
Qed.

Lemma quiet_createBlob (file : file_entry) : quiet (createBlob file).
Proof.
  unfold createBlob. apply quiet_bind; [now apply quiet_call|].
  intros []; auto with quiet.
Qed.

Lemma quiet_prepare_commit user files commitMessage :
  quiet (prepare_commit cfg user files commitMessage).
Proof.
  unfold prepare_commit.
  repeat first
    [ apply quiet_reply_sha | apply quiet_reply_tree | apply quiet_lift
    | apply quiet_call; reflexivity
    | apply quiet_all; apply Forall_forall; intros m Hm;
      apply list_elem_of_fmap in Hm as (f & -> & _);
      first [apply quiet_oldContent | apply quiet_createBlob]
    | apply quiet_bind; [|intros ?] ].
Qed.

Lemma requireAuth_pass user (next : handler response) :
  passes_auth cfg user = true -> requireAuth cfg user next = next.
Proof.
  unfold passes_auth, requireAuth. destruct (DEV_BYPASS_AUTH cfg); [reflexivity|].
  simpl. now intros ->.
Qed.

Lemma fetchJsonFile_run (filePath : string) (w : world) :
  fetchJsonFile cfg filePath w
  = (match fst (call (GetContents filePath) w) with
     | Return (RContents sha text) =>
         match JSON_parse cfg text with
         | Some parsed => Return (sha, parsed)
         | None => Throw SyntaxError
         end
     | Return _ => Throw (Raised TypeError)
     | Throw e => Throw e
     end, snd (call (GetContents filePath) w)).
Proof.
  unfold fetchJsonFile, mbind, handler_bind.
  destruct (call (GetContents filePath) w) as [[[]|e] w1]; simpl; try reflexivity.
  destruct (JSON_parse cfg text); reflexivity.
Qed.


Lemma oldContent_default (file : file_entry) (w : world) :
  fst (fetchJsonFile cfg (path file) w) = Throw (Http 404) \/
  (exists e, fst (fetchJsonFile cfg (path file) w) = Throw e) ->
  oldContent cfg file w
  = (Return (default_old (path file)), snd (fetchJsonFile cfg (path file) w)).
Proof.
  intros H. assert (He : exists e, fst (fetchJsonFile cfg (path file) w) = Throw e).
  { destruct H as [H|H]; [eauto | exact H]. }
  destruct He as [e He]. unfold oldContent, try_catch, mbind, handler_bind.
  destruct (fetchJsonFile cfg (path file) w) as [[a|e'] w1]; simpl in *; [discriminate|].
  unfold default_old, defaultContent.
  repeat match goal with
         | |- context [String.eqb ?a ?lit] => destruct (String.eqb a lit)
         end; reflexivity.
Qed.

(** C10 as stated fails: without a session the name is never examined and
    the answer is 401, not 400. *)
Lemma unauthenticated_invalid_name :
  let cfg0 := Config (fun _ => None) false [] in
  let w0 := World (Store 0 ∅ ∅ ∅ 0) [] [] in
  has_slash "a/b" = true
  /\ get_file cfg0 None "a/b" w0 = (Return (Response 401 (ErrorBody "Unauthorized" None)), w0)
  /\ fst (get_file cfg0 None "a/b" w0)
     <> Return (Response 400 (ErrorBody "Invalid file name" None)).
Proof. repeat split; discriminate. Qed.


(** C10 (amended). For every request to [GET /api/file/:name] that passes
    the authentication gate and whose name is empty or contains a slash, the
    answer is 400 "Invalid file name" and no request is sent to the store;
    whatever the request, the only request the route can send is the fetch of
    [data/<name>], and only for a non-empty name without a slash that passed
    the gate. *)
Theorem invalid_name_rejected user name w :
  (passes_auth cfg user = true ->
   name = EmptyString \/ has_slash name = true ->
   get_file cfg user name w
   = (Return (Response 400 (ErrorBody "Invalid file name" None)), w))
  /\ (log (snd (get_file cfg user name w)) = log w
      \/ (passes_auth cfg user = true /\ name <> EmptyString /\ has_slash name = false
          /\ log (snd (get_file cfg user name w))
             = log w ++ [GetContents ("data/" +:+ name)])).
Proof.
  split.
  - intros Ha Hn. unfold get_file. rewrite (requireAuth_pass _ _ Ha).
    unfold try_catch.
    assert (Hc : String.eqb name EmptyString || has_slash name = true).
    { destruct Hn as [-> | ->]; [reflexivity | apply orb_true_r]. }
    now rewrite Hc.
  - unfold get_file, requireAuth, passes_auth.
    destruct (DEV_BYPASS_AUTH cfg) eqn:Hd; [|destruct (isAuthenticated user) eqn:Hu];
      try (left; reflexivity);
      (unfold try_catch;
       destruct (String.eqb_spec name EmptyString) as [->|Hne]; [left; reflexivity|];
       destruct (has_slash name) eqn:Hs; [left; reflexivity|]; right;
       cbn [orb]; unfold mbind, handler_bind; rewrite fetchJsonFile_run;
       pose proof (call_log (GetContents (FILE_DIR +:+ "/" +:+ name)) w) as [Hl _];
       change (FILE_DIR +:+ "/" +:+ name) with ("data/" +:+ name) in *;
       repeat split; auto;
       destruct (call (GetContents ("data/" +:+ name)) w) as [[rep|e] w1]; simpl in *;
       [destruct rep; try destruct (JSON_parse cfg text)|]; simpl;
       repeat (case_condition; simpl); exact Hl).
Qed.





(** The older route [GET /api/about], which the dashboard no longer calls,
    has no such default: there a 404 of the store is the answer. *)
Lemma legacy_about_passes_absence user w :
  passes_auth cfg user = true ->
  fst (call (GetContents "data/about.json") w) = Throw (Http 404) ->
  fst (get_about cfg user w)
  = Return (Response 404 (ErrorBody "Failed to fetch about.json" (Some (Http 404)))).
Proof.
  intros Ha H404. unfold get_about. rewrite (requireAuth_pass _ _ Ha).
  unfold try_catch, mbind, handler_bind. rewrite fetchJsonFile_run.
  change (FILE_DIR +:+ "/about.json") with "data/about.json". rewrite H404.
  reflexivity.
Qed.


(** *** The store and single requests *)

Lemma tree_with_other (entries : list (string * nat)) : forall base p,
  p ∉ map fst entries -> tree_with base entries !! p = base !! p.
Proof.
  induction entries as [|[q b] entries IH]; intros base p Hp; [reflexivity|].
  simpl in Hp. apply not_elem_of_cons in Hp as [Hq Hp].
  unfold tree_with in *. simpl. rewrite IH by exact Hp.
  now apply lookup_insert_ne.
Qed.

Lemma tree_with_lookup (entries : list (string * nat)) : forall base p b,
  NoDup (map fst entries) -> (p, b) ∈ entries -> tree_with base entries !! p = Some b.
Proof.
  induction entries as [|[q c] entries IH]; intros base p b Hnd Hin.
  - now apply elem_of_nil in Hin.
  - simpl in Hnd. apply NoDup_cons in Hnd as [Hq Hnd].
    apply elem_of_cons in Hin as [Heq|Hin].
    + injection Heq as -> ->. unfold tree_with. simpl.
      fold (tree_with (<[q:=c]> base) entries).
      rewrite tree_with_other by exact Hq. apply lookup_insert_eq.
    + unfold tree_with. simpl. fold (tree_with (<[q:=c]> base) entries).
      now apply IH.
Qed.

Lemma is_ancestor_self (fuel : nat) (cs : gmap nat commit) (a : nat) :
  is_ancestor fuel cs a a = true.
Proof. destruct fuel; simpl; now rewrite Nat.eqb_refl. Qed.

Lemma fast_forward_child (st : store) (new : nat) (c : commit) :
  commits st !! new = Some c -> branch st ∈ commit_parents c ->
  fast_forward st new = true.
Proof.
  intros Hc Hin. unfold fast_forward. rewrite Hc. simpl. rewrite Hc.
  apply orb_true_iff. right. apply existsb_exists. exists (branch st).
  split; [now apply list_elem_of_In | apply is_ancestor_self].
Qed.

(** A request that returns was served by the store. *)
Lemma call_return (r : request) (w : world) (rep : reply) (w1 : world) :
  call r w = (Return rep, w1) ->
  serve (remote w) r = (Return rep, remote w1)
  /\ script w1 = tail (script w) /\ log w1 = log w ++ [r].
Proof.
  unfold call. intros H.
  destruct (head (script w)) as [[| |]|]; try discriminate H;
    destruct (serve (remote w) r) as [[rep'|e] st]; try discriminate H;
    injection H as <- <-; repeat split; reflexivity.
Qed.


(** With no fault at the head of the script, the store answers. *)
Lemma call_healthy (r : request) (st : store) (sc : list fault) (lg : list request) :
  head sc = None \/ head sc = Some Healthy ->
  call r (World st sc lg)
  = (match fst (serve st r) with
     | Return rep => Return rep
     | Throw status => Throw (Http status)
     end, World (snd (serve st r)) (tail sc) (lg ++ [r])).
Proof.
  intros [H|H]; unfold call; simpl; rewrite H;
    destruct (serve st r) as [[rep|e] st']; reflexivity.
Qed.

Lemma healthy_head (sc : list fault) :
  Forall (fun f => f = Healthy) sc -> head sc = None \/ head sc = Some Healthy.
Proof. intros [|f sc' -> _]; [now left | now right]. Qed.

Lemma healthy_tail (sc : list fault) :
  Forall (fun f => f = Healthy) sc -> Forall (fun f => f = Healthy) (tail sc).
Proof. intros [|f sc' _ H]; [constructor | exact H]. Qed.

Lemma call_GetContents_remote (filePath : string) (w : world) :
  remote (snd (call (GetContents filePath) w)) = remote w.
Proof.
  unfold call. destruct (head (script w)) as [[| |]|]; simpl; try reflexivity;
    destruct (file_at (remote w) (branch (remote w)) filePath) as [[b text]|]; reflexivity.
Qed.

(** *** The old contents of a batch *)

Lemma oldContent_total (file : file_entry) (w : world) :
  exists v, oldContent cfg file w = (Return v, snd (call (GetContents (path file)) w)).
Proof.
  unfold oldContent, try_catch, mbind, handler_bind. rewrite fetchJsonFile_run.
  destruct (call (GetContents (path file)) w) as [[[]|e] w1]; simpl;
    try destruct (JSON_parse cfg text); simpl;
    case_conditions; eauto.
Qed.

(** The step of the world made by the fetch of one file. *)
Lemma fetch_world (filePath : string) (w : world) :
  snd (call (GetContents filePath) w)
  = World (remote w) (tail (script w)) (log w ++ [GetContents filePath]).
Proof.
  pose proof (call_log (GetContents filePath) w) as [Hl Hs].
  pose proof (call_GetContents_remote filePath w) as Hr.
  destruct (snd (call (GetContents filePath) w)); simpl in *. congruence.
Qed.

Lemma drop_tail {A} (n : nat) (l : list A) : drop n (tail l) = drop (S n) l.
Proof. destruct l; [simpl; now destruct n | reflexivity]. Qed.

Lemma oldContents_run (files : list file_entry) : forall w,
  exists olds,
    all (map (oldContent cfg) files) w
    = (Return olds,
       World (remote w) (drop (length files) (script w))
             (log w ++ map (fun f => GetContents (path f)) files))
    /\ length olds = length files.
Proof.
  induction files as [|f files IH]; intros w.
  - exists []. simpl. rewrite drop_0, app_nil_r. now destruct w.
  - destruct (oldContent_total f w) as [v Hv]. rewrite fetch_world in Hv.
    destruct (IH (World (remote w) (tail (script w)) (log w ++ [GetContents (path f)])))
      as (olds & Ho & Hlen).
    exists (v :: olds). simpl. rewrite Hv, Ho. simpl.
    rewrite <- app_assoc. simpl. rewrite drop_tail. split; [reflexivity | now rewrite Hlen].
Qed.

(** *** What each request that returns has done *)

Lemma call_GetRef_return (w : world) (rep : reply) (w1 : world) :
  call GetRef w = (Return rep, w1) ->
  rep = RSha (branch (remote w)) /\ remote w1 = remote w.
Proof.
  intros H. apply call_return in H as (H & _). simpl in H.
  injection H as <- <-. now split.
Qed.

Lemma call_GetCommit_return (id : nat) (w : world) (rep : reply) (w1 : world) :
  call (GetCommit id) w = (Return rep, w1) ->
  exists c, commits (remote w) !! id = Some c /\ rep = RCommit (commit_tree c)
            /\ remote w1 = remote w.
Proof.
  intros H. apply call_return in H as (H & _). simpl in H.
  destruct (commits (remote w) !! id) as [c|]; [|discriminate H].
  injection H as <- <-. now exists c.
Qed.

Lemma call_PostBlob_return (text : string) (w : world) (rep : reply) (w1 : world) :
  call (PostBlob text) w = (Return rep, w1) ->
  rep = RSha (next_id (remote w))
  /\ remote w1 = Store (branch (remote w)) (<[next_id (remote w) := text]> (blobs (remote w)))
                       (trees (remote w)) (commits (remote w)) (S (next_id (remote w))).
Proof.
  intros H. apply call_return in H as (H & _). simpl in H.
  injection H as <- <-. now split.
Qed.

Lemma call_PostTree_return (base : nat) (entries : list (string * nat)) (w : world)
    (rep : reply) (w1 : world) :
  call (PostTree base entries) w = (Return rep, w1) ->
  exists t, trees (remote w) !! base = Some t
            /\ rep = RSha (next_id (remote w))
            /\ remote w1 = Store (branch (remote w)) (blobs (remote w))
                                 (<[next_id (remote w) := tree_with t entries]> (trees (remote w)))
                                 (commits (remote w)) (S (next_id (remote w))).
Proof.
  intros H. apply call_return in H as (H & _). simpl in H.
  destruct (trees (remote w) !! base) as [t|]; [|discriminate H].
  injection H as <- <-. now exists t.
Qed.

Lemma call_PostCommit_return (message : string) (tree : nat) (parents : list nat)
    (w : world) (rep : reply) (w1 : world) :
  call (PostCommit message tree parents) w = (Return rep, w1) ->
  rep = RSha (next_id (remote w))
  /\ remote w1 = Store (branch (remote w)) (blobs (remote w)) (trees (remote w))
                       (<[next_id (remote w) := Commit tree parents message]>
                          (commits (remote w)))
                       (S (next_id (remote w))).
Proof.
  intros H. apply call_return in H as (H & _). simpl in H.
  destruct (trees (remote w) !! tree) as [t|]; [|discriminate H].
  injection H as <- <-. now split.
Qed.

Lemma call_PatchRef_return (sha : nat) (force : bool) (w : world) (rep : reply) (w1 : world) :
  call (PatchRef sha force) w = (Return rep, w1) ->
  remote w1 = Store sha (blobs (remote w)) (trees (remote w)) (commits (remote w))
                    (next_id (remote w)).
Proof.
  intros H. apply call_return in H as (H & _). simpl in H.
  destruct (force || fast_forward (remote w) sha); [|discriminate H].
  now injection H as <- <-.
Qed.

(** *** The blobs of a batch *)

Lemma createBlob_return (file : file_entry) (w : world) (a : string * nat) (w1 : world) :
  createBlob file w = (Return a, w1) ->
  a = (path file, next_id (remote w))
  /\ remote w1 = Store (branch (remote w))
                       (<[next_id (remote w) := stringify_indent 0 (content file)]>
                          (blobs (remote w)))
                       (trees (remote w)) (commits (remote w)) (S (next_id (remote w))).
Proof.
  unfold createBlob, mbind, handler_bind. intros H.
  destruct (call (PostBlob (stringify_indent 0 (content file))) w) as [[rep|e] w'] eqn:E;
    [|discriminate H].
  apply call_PostBlob_return in E as [-> E]. simpl in H.
  injection H as <- <-. now split.
Qed.

Lemma createBlobs_return (files : list file_entry) : forall w bl w1,
  all (map createBlob files) w = (Return bl, w1) ->
  map fst bl = map path files
  /\ (forall i f, files !! i = Some f ->
        exists b, bl !! i = Some (path f, b)
                  /\ blobs (remote w1) !! b = Some (stringify_indent 0 (content f)))
  /\ (forall j, j < next_id (remote w) -> blobs (remote w1) !! j = blobs (remote w) !! j)
  /\ branch (remote w1) = branch (remote w)
  /\ trees (remote w1) = trees (remote w)
  /\ commits (remote w1) = commits (remote w)
  /\ next_id (remote w) <= next_id (remote w1).
Proof.
  induction files as [|f files IH]; intros w bl w1 H; simpl in H.
  - injection H as <- <-. repeat split; auto. intros i f Hf. discriminate Hf.
  - destruct (createBlob f w) as [[a|e] w'] eqn:E1;
      destruct (all (map createBlob files) w') as [[l|e'] w2] eqn:E2;
      try discriminate H.
    injection H as <- <-.
    apply createBlob_return in E1 as [-> Hw'].
    destruct (IH _ _ _ E2) as (Hfst & Hblobs & Hkeep & Hb & Ht & Hc & Hn).
    rewrite Hw' in *. simpl in *.
    split; [now rewrite Hfst|].
    split; [|split; [|repeat split; auto; lia]].
    + intros [|i] g Hg; simpl in Hg.
      * injection Hg as <-. exists (next_id (remote w)). split; [reflexivity|].
        rewrite Hkeep by lia. apply lookup_insert_eq.
      * exact (Hblobs i g Hg).
    + intros j Hj. rewrite Hkeep by lia. apply lookup_insert_ne. lia.
Qed.

Lemma createBlobs_healthy (files : list file_entry) : forall w,
  Forall (fun f => f = Healthy) (script w) ->
  exists bl w1, all (map createBlob files) w = (Return bl, w1)
                /\ Forall (fun f => f = Healthy) (script w1).
Proof.
  induction files as [|f files IH]; intros w Hh; simpl.
  - now exists [], w.
  - destruct w as [st sc lg].
    unfold createBlob at 1, mbind, handler_bind.
    rewrite call_healthy by now apply healthy_head.
    simpl.
    edestruct IH as (bl & w1 & E & Hh1); [|rewrite E; eauto].
    simpl. now apply healthy_tail.
Qed.

(** *** Steps 1 to 5 *)

(** When the preparation returns a commit id, every step before it has
    succeeded: the commit exists, its sole parent is the tip that was read,
    its tree is the base tree with one entry per file, each entry naming a
    blob that holds the text of the requested content. *)
Lemma prepare_commit_return user files commitMessage w sha w1 :
  prepare_commit cfg user files commitMessage w = (Return sha, w1) ->
  exists tip base olds reports bl tree_id,
    commits (remote w) !! branch (remote w) = Some tip
    /\ trees (remote w) !! commit_tree tip = Some base
    /\ length olds = length files
    /\ changeReports files olds = Return reports
    /\ map fst bl = map path files
    /\ (forall i f, files !! i = Some f ->
          exists b, bl !! i = Some (path f, b)
                    /\ blobs (remote w1) !! b = Some (stringify_indent 0 (content f)))
    /\ trees (remote w1) !! tree_id = Some (tree_with base bl)
    /\ commits (remote w1) !! sha
       = Some (Commit tree_id [branch (remote w)]
                 (fullCommitMessage commitMessage (actor_tag cfg user) reports))
    /\ branch (remote w1) = branch (remote w)
    /\ next_id (remote w) <= sha.
Proof.
  unfold prepare_commit, mbind, handler_bind. intros H.
  destruct (call GetRef w) as [[rep1|e1] wa] eqn:E1; [|discriminate H].
  apply call_GetRef_return in E1 as [-> Ra].
  cbn [reply_sha mret handler_ret] in H.
  destruct (call (GetCommit (branch (remote w))) wa) as [[rep2|e2] wb] eqn:E2;
    [|discriminate H].
  apply call_GetCommit_return in E2 as (tip & Htip & -> & Rb).
  cbn [reply_tree mret handler_ret] in H.
  destruct (oldContents_run files wb) as (olds & Eo & Hlen). rewrite Eo in H.
  unfold lift in H at 1.
  destruct (changeReports files olds) as [reports|e] eqn:Er; [|discriminate H].
  match type of H with
  | context [all (map createBlob files) ?wc] =>
      destruct (all (map createBlob files) wc) as [[bl|e] wd] eqn:Eb; [|discriminate H]
  end.
  apply createBlobs_return in Eb as (Hfst & Hblobs & Hkeep & Hb & Ht & Hc & Hn).
  cbn [remote] in Hkeep, Hb, Ht, Hc, Hn.
  destruct (call (PostTree (commit_tree tip) bl) wd) as [[rep3|e3] we] eqn:E3;
    [|discriminate H].
  apply call_PostTree_return in E3 as (base & Hbase & -> & Re).
  cbn [reply_sha mret handler_ret] in H.
  match type of H with
  | context [call (PostCommit ?m ?t ?ps) we] =>
      destruct (call (PostCommit m t ps) we) as [[rep4|e4] wf] eqn:E4; [|discriminate H]
  end.
  apply call_PostCommit_return in E4 as (-> & Rf).
  cbn [reply_sha mret handler_ret] in H. injection H as <- <-.
  rewrite Rb, Ra in *. rewrite Ht in Hbase. rewrite Rf, Re. cbn.
  exists tip, base, olds, reports, bl, (next_id (remote wd)).
  repeat split; auto; try apply lookup_insert_eq; lia.
Qed.

(** *** The report lines *)

Lemma generateChangeReport_nonempty (oldContent newContent : value) (p : string)
    (lines : list string) :
  generateChangeReport oldContent newContent p = Return lines -> lines <> [].
Proof.
  unfold generateChangeReport, mbind, outcome_bind, obind.
  match goal with |- context [match ?m with Return _ => _ | Throw _ => _ end] =>
    destruct m as [report|e] end; [|discriminate].
  intros H. injection H as <-.
  destruct report; simpl; discriminate.
Qed.

Lemma changeReports_nonempty (files : list file_entry) (olds : list value)
    (reports : list string) :
  files <> [] -> changeReports files olds = Return reports -> reports <> [].
Proof.
  destruct files as [|f files]; [congruence|]. intros _.
  destruct olds as [|o olds]; simpl; unfold mbind, outcome_bind, obind.
  - destruct (changeReports files []); [|discriminate].
    intros H. injection H as <-. discriminate.
  - destruct (generateChangeReport o (content f) (path f)) as [r|] eqn:E; [|discriminate].
    destruct (changeReports files olds); [|discriminate].
    intros H. injection H as <-.
    apply generateChangeReport_nonempty in E. destruct r; [congruence | discriminate].
Qed.

(** *** The batch route *)

(** The possible runs of the route. *)
Lemma post_batch_run user files commitMessage w :
  post_batch cfg user files commitMessage w
  = if negb (passes_auth cfg user) then
      (Return (Response 401 (ErrorBody "Unauthorized" None)), w)
    else if (length files =? 0)%nat then
      (Return (Response 400 (ErrorBody "No files provided" None)), w)
    else
      match prepare_commit cfg user files commitMessage w with
      | (Return sha, w1) =>
          match call (PatchRef sha false) w1 with
          | (Return _, w2) => (Return (Response 200 (BatchOk sha)), w2)
          | (Throw e, w2) =>
              (Return (Response (status_of e) (ErrorBody "Batch update failed" (Some e))), w2)
          end
      | (Throw e, w1) =>
          (Return (Response (status_of e) (ErrorBody "Batch update failed" (Some e))), w1)
      end.
Proof.
  unfold post_batch, requireAuth, passes_auth.
  destruct (DEV_BYPASS_AUTH cfg); [|destruct (isAuthenticated user)]; simpl;
    try reflexivity;
    (unfold try_catch, mbind, handler_bind;
     destruct (length files =? 0)%nat; [reflexivity|];
     destruct (prepare_commit cfg user files commitMessage w) as [[sha|e] w1];
     [destruct (call (PatchRef sha false) w1) as [[rep|e] w2]|]; reflexivity).
Qed.


Lemma file_at_committed (st : store) (sha tree_id : nat) (parents : list nat)
    (message : string) (base : gmap string nat) (bl : list (string * nat))
    (p : string) (b : nat) (text : string) :
  commits st !! sha = Some (Commit tree_id parents message) ->
  trees st !! tree_id = Some (tree_with base bl) ->
  NoDup (map fst bl) -> (p, b) ∈ bl -> blobs st !! b = Some text ->
  file_at st sha p = Some (b, text).
Proof.
  intros Hc Ht Hnd Hin Hb. unfold file_at. rewrite Hc. simpl. rewrite Ht. simpl.
  rewrite (tree_with_lookup bl base p b Hnd Hin). simpl. now rewrite Hb.
Qed.


(** *** Fetches that fail *)

Lemma oldContent_fetched (file : file_entry) (w : world) (flt : fault) :
  head (script w) = Some flt ->
  fst (oldContent cfg file w) = Return (fetched cfg (remote w) file flt).
Proof.
  intros Hh.
  assert (Hcatch : forall w1 : world,
            ((if String.eqb (pop (split "/" (path file))) "locations.json"
                 || String.eqb (pop (split "/" (path file))) "times.json"
                 || String.eqb (pop (split "/" (path file))) "repeating-events.json"
                 || String.eqb (pop (split "/" (path file))) "live.json"
              then mret (JArr [])
              else mret (JObj [("title", JStr EmptyString); ("sections", JArr [])]))
             : handler value) w1
            = (Return (default_old (path file)), w1)).
  { intros w1. unfold default_old, defaultContent.
    repeat match goal with
           | |- context [String.eqb ?a ?lit] => destruct (String.eqb a lit)
           end; reflexivity. }
  unfold oldContent, try_catch, mbind, handler_bind, fetched.
  rewrite fetchJsonFile_run. unfold call. rewrite Hh.
  destruct flt as [|status|]; cbn [fst snd serve]; try (now rewrite Hcatch).
  destruct (file_at (remote w) (branch (remote w)) (path file)) as [[b text]|];
    cbn [fst snd]; [|now rewrite Hcatch].
  destruct (JSON_parse cfg text); [reflexivity | now rewrite Hcatch].
Qed.

Lemma oldContents_fetched (files : list file_entry) : forall fs w rest,
  length fs = length files -> script w = fs ++ rest ->
  fst (all (map (oldContent cfg) files) w)
  = Return (zip_with (fetched cfg (remote w)) files fs).
Proof.
  induction files as [|f files IH]; intros fs w rest Hlen Hs.
  - reflexivity.
  - destruct fs as [|flt fs']; [discriminate Hlen|]. simpl.
    destruct (oldContent_total f w) as [v Hv].
    pose proof (oldContent_fetched f w flt) as Hd.
    rewrite Hs in Hd. specialize (Hd eq_refl). rewrite Hv in Hd. cbn [fst] in Hd.
    injection Hd as ->. rewrite Hv, fetch_world.
    assert (Ht : tail (script w) = fs' ++ rest) by now rewrite Hs.
    specialize (IH fs' (World (remote w) (tail (script w))
                              (log w ++ [GetContents (path f)])) rest).
    cbn [remote script] in IH. specialize (IH ltac:(now injection Hlen) Ht).
    destruct (all (map (oldContent cfg) files) _) as [rs w2]. cbn [fst] in IH.
    now rewrite IH.
Qed.

(** A fetch that fails, for whatever reason, amounts to the skeleton. *)
Lemma fetched_fails (st : store) (file : file_entry) (flt : fault) :
  fetch_fails cfg st file flt -> fetched cfg st file flt = default_old (path file).
Proof.
  intros Hf. unfold fetched. destruct flt; try reflexivity.
  destruct Hf as [Hf|[Hf|(b & text & Hf & Hp)]]; [now elim Hf| |]; rewrite Hf;
    [reflexivity | now rewrite Hp].
Qed.

Lemma recognized_report (oldContent newContent : value) (p : string) :
  recognized oldContent = true -> recognized newContent = true ->
  exists lines, generateChangeReport oldContent newContent p = Return lines.
Proof.
  intros Ho Hn.
  assert (Hshape : forall v, recognized v = true ->
            isArray v = true \/
            exists props t s, v = JObj props /\ own "title" props = Some (JStr t)
                              /\ own "sections" props = Some (JArr s)).
  { intros [| | | |items|props] Hv; try discriminate Hv; [now left|]. right.
    unfold recognized in Hv. simpl in Hv.
    destruct (own "title" props) as [[| | |t| |]|] eqn:Ht; try discriminate Hv.
    destruct (own "sections" props) as [[| | | |s|]|] eqn:Hs; try discriminate Hv.
    now exists props, t, s. }
  assert (Hobj : forall v, recognized v = true ->
            typeof_object v = true
            /\ exists t s, (tt ← get_prop v "title"; Return (js_or tt (JStr EmptyString)))
                           = Return (JStr t)
                           /\ (ss ← get_prop v "sections"; Return (js_or ss (JArr [])))
                              = Return (JArr s)).
  { intros v Hv. destruct (Hshape v Hv) as [Ha|(props & t & s & -> & Ht & Hs)].
    - destruct v; try discriminate Ha. split; [reflexivity|].
      now exists EmptyString, [].
    - split; [reflexivity|]. cbn. rewrite Ht, Hs. cbn.
      destruct (negb (String.eqb t EmptyString)); eauto. }
  destruct (Hobj _ Ho) as (To & to & so & Hto & Hso).
  destruct (Hobj _ Hn) as (Tn & tn & sn & Htn & Hsn).
  unfold generateChangeReport.
  destruct (isArray oldContent && isArray newContent) eqn:Harr.
  - destruct oldContent, newContent; try discriminate Harr.
    cbn. eauto.
  - rewrite To, Tn. cbn [andb]. unfold object_report.
    unfold mbind, outcome_bind, obind in *.
    destruct (get_prop oldContent "title") as [t1|]; [|discriminate Hto].
    destruct (get_prop newContent "title") as [t2|]; [|discriminate Htn].
    destruct (get_prop oldContent "sections") as [s1|]; [|discriminate Hso].
    destruct (get_prop newContent "sections") as [s2|]; [|discriminate Hsn].
    injection Hto as ->. injection Htn as ->. injection Hso as ->. injection Hsn as ->.
    cbn [get_prop]. rewrite String.eqb_refl.
    destruct (strict_neq (Some (JNum (dec (length so)))) (Some (JNum (dec (length sn)))));
      cbn [template to_string modified_sections];
      case_conditions; eauto.
Qed.

Lemma changeReports_total (files : list file_entry) : forall olds,
  Forall (fun f => recognized (content f) = true) files ->
  Forall (fun v => recognized v = true) olds ->
  exists reports, changeReports files olds = Return reports.
Proof.
  induction files as [|f files IH]; intros olds Hf Ho; [now exists []|].
  inversion Hf as [|? ? Hf1 Hf2]; subst.
  destruct olds as [|o olds]; simpl; unfold mbind, outcome_bind, obind.
  - destruct (IH [] Hf2 Ho) as [rest ->]. eauto.
  - inversion Ho as [|? ? Ho1 Ho2]; subst.
    destruct (recognized_report o (content f) (path f) Ho1 Hf1) as [lines ->].
    destruct (IH olds Hf2 Ho2) as [rest ->]. eauto.
Qed.

Lemma default_old_recognized (p : string) : recognized (default_old p) = true.
Proof.
  unfold default_old, defaultContent.
  case_conditions; reflexivity.
Qed.

(** Whatever becomes of the fetches of the old contents, when all other
    requests are served and the report generator does not throw, steps 1 to 5
    complete. *)
Lemma prepare_commit_proceeds user files commitMessage st fs rest lg tip base reports :
  Forall (fun f => f = Healthy) rest ->
  length fs = length files ->
  commits st !! branch st = Some tip ->
  trees st !! commit_tree tip = Some base ->
  changeReports files (zip_with (fetched cfg st) files fs) = Return reports ->
  exists sha w1 tree_id,
    prepare_commit cfg user files commitMessage
      (World st (Healthy :: Healthy :: fs ++ rest) lg) = (Return sha, w1)
    /\ Forall (fun f => f = Healthy) (script w1)
    /\ branch (remote w1) = branch st
    /\ commits (remote w1) !! sha
       = Some (Commit tree_id [branch st]
                 (fullCommitMessage commitMessage (actor_tag cfg user) reports)).
Proof.
  intros Hrest HF Htip Hbase Hr.
  unfold prepare_commit, mbind, handler_bind.
  rewrite call_healthy by (right; reflexivity).
  cbn [serve fst snd reply_sha mret handler_ret tail].
  rewrite call_healthy by (right; reflexivity).
  cbn [serve]. rewrite Htip. cbn [fst snd reply_tree mret handler_ret tail].
  match goal with |- context [all (map (oldContent cfg) files) ?W] =>
    destruct (oldContents_run files W) as (olds & Eo & Hlen);
    pose proof (oldContents_fetched files fs W rest HF eq_refl) as Hd
  end.
  rewrite Eo in Hd. cbn [fst] in Hd. injection Hd as ->. rewrite Eo.
  cbn [remote script log].
  unfold lift at 1. rewrite Hr.
  rewrite <- HF, drop_app_length.
  match goal with |- context [all (map createBlob files) ?W] =>
    destruct (createBlobs_healthy files W Hrest) as (bl & wd & Eb & Hh)
  end.
  rewrite Eb.
  apply createBlobs_return in Eb as (_ & _ & _ & Hb & Ht & Hc & _).
  cbn [remote] in Hb, Ht, Hc.
  destruct wd as [std scd lgd]. cbn [remote script] in *.
  rewrite call_healthy by now apply healthy_head.
  cbn [serve]. rewrite Ht, Hbase. cbn [fst snd reply_sha mret handler_ret].
  rewrite call_healthy by (apply healthy_head; now apply healthy_tail).
  cbn [serve trees]. rewrite lookup_insert_eq.
  cbn [fst snd reply_sha mret handler_ret next_id].
  eexists _, _, _. split; [reflexivity|].
  cbn [script remote branch commits].
  split; [now do 2 apply healthy_tail|]. split; [exact Hb|].
  apply lookup_insert_eq.
Qed.

(** The report against the skeletons exists whenever the new contents are
    lists or documents. *)
Lemma changeReports_defaults (files : list file_entry) :
  Forall (fun f => recognized (content f) = true) files ->
  exists reports,
    changeReports files (map (fun f => default_old (path f)) files) = Return reports.
Proof.
  intros Hrec. apply changeReports_total; [exact Hrec|].
  apply Forall_forall. intros v Hv. apply list_elem_of_fmap in Hv as (f & -> & _).
  apply default_old_recognized.
Qed.

(** What the route does for the failures of a fetch.  The fetch of an old
    content never throws; when it fails, for whatever reason (an error status
    other than 404, no response at all, an absent file, a text that is not
    JSON), the old content is the skeleton for the file name.  Whatever
    becomes of the fetches, when nothing else fails (the other requests are
    served and the report generator does not throw on the contents compared),
    the operation goes on through blobs, tree and commit to the update of the
    branch and answers with the new commit, in whose tree every requested
    file holds the text of the requested content. *)
Theorem fetch_failures_not_fatal user files commitMessage st fs rest lg tip base reports :
  passes_auth cfg user = true -> files <> [] ->
  length fs = length files ->
  Forall (fun f => f = Healthy) rest ->
  commits st !! branch st = Some tip ->
  trees st !! commit_tree tip = Some base ->
  changeReports files (zip_with (fetched cfg st) files fs) = Return reports ->
  let w := World st (Healthy :: Healthy :: fs ++ rest) lg in
  (forall file w0, exists v, fst (oldContent cfg file w0) = Return v)
  /\ (forall lg0, fst (all (map (oldContent cfg) files) (World st (fs ++ rest) lg0))
                 = Return (zip_with (fetched cfg st) files fs))
  /\ (forall file flt, fetch_fails cfg st file flt ->
        fetched cfg st file flt = defaultContent (pop (split "/" (path file))))
  /\ exists sha tree_id l0,
       fst (post_batch cfg user files commitMessage w) = Return (Response 200 (BatchOk sha))
       /\ branch (remote (snd (post_batch cfg user files commitMessage w))) = sha
       /\ commits (remote (snd (post_batch cfg user files commitMessage w))) !! sha
          = Some (Commit tree_id [branch st]
                    (fullCommitMessage commitMessage (actor_tag cfg user) reports))
       /\ log (snd (post_batch cfg user files commitMessage w))
          = lg ++ l0 ++ [PatchRef sha false]
       /\ (NoDup (map path files) -> forall f, f ∈ files ->
           exists b, file_at (remote (snd (post_batch cfg user files commitMessage w)))
                             sha (path f)
                     = Some (b, stringify_indent 0 (content f))).
Proof.
  intros Ha Hne Hlen Hrest Htip Hbase Hrep w.
  split; [|split; [|split]].
  - intros file w0. destruct (oldContent_total file w0) as [v Hv]. exists v. now rewrite Hv.
  - intros lg0. now apply (oldContents_fetched files fs (World st (fs ++ rest) lg0) rest).
  - intros file flt. apply fetched_fails.
  - destruct (prepare_commit_proceeds user files commitMessage st fs rest lg tip base reports
                Hrest Hlen Htip Hbase Hrep)
      as (sha & w1 & tree_id & Ep & Hh & Hb & Hc).
    destruct (quiet_prepare_commit user files commitMessage _ _ _ Ep)
      as (_ & l1 & Hl1 & _).
    exists sha, tree_id, l1.
    rewrite post_batch_run, Ha. cbn [negb].
    destruct (Nat.eqb_spec (length files) 0) as [Hz|_]; [now destruct files|].
    subst w. rewrite Ep. destruct w1 as [st1 sc1 lg1]. cbn [remote script log] in *.
    rewrite call_healthy by now apply healthy_head.
    cbn [serve orb].
    rewrite (fast_forward_child st1 sha _ Hc) by (rewrite Hb; now left).
    cbn. rewrite Hl1, <- app_assoc.
    split; [reflexivity|]. split; [reflexivity|]. split; [exact Hc|].
    split; [reflexivity|].
    intros Hnd f Hf.
    destruct (prepare_commit_return _ _ _ _ _ _ Ep)
      as (tip' & base' & olds & reports' & bl & tree_id' & _ & _ & _ & _
          & Hfst & Hblobs & Htree & Hcommit & _ & _).
    cbn [remote] in Hblobs, Htree, Hcommit.
    apply list_elem_of_lookup in Hf as [i Hi].
    destruct (Hblobs i f Hi) as (b & Hbl & Hblob). exists b.
    eapply file_at_committed; cbn;
      [exact Hcommit | exact Htree | now rewrite Hfst
      | apply list_elem_of_lookup; now exists i | exact Hblob].
Qed.

(** *** The commit message *)

Lemma fullCommitMessage_reports (commitMessage : option string) (anon : string)
    (reports : list string) :
  reports <> [] ->
  fullCommitMessage commitMessage anon reports
  = or_text commitMessage "Update files via dashboard" +:+ newline +:+ newline
      +:+ "User: " +:+ anon +:+ newline +:+ newline
      +:+ "Changes:" +:+ newline +:+ join newline reports.
Proof.
  intros Hr. unfold fullCommitMessage. destruct reports; [congruence|].
  cbn [length Nat.ltb Nat.leb]. now rewrite !append_assoc.
Qed.

(** C8 as stated fails: between the actor line and the report lines the
    route writes a blank line and a "Changes:" heading. *)
Lemma commit_message_not_as_specified :
  fullCommitMessage (Some "Fix venue") "a1b2c3d4e5f60718" ["  - locations.json: Updated"]
  = "Fix venue" +:+ newline +:+ newline +:+ "User: a1b2c3d4e5f60718" +:+ newline +:+ newline
      +:+ "Changes:" +:+ newline +:+ "  - locations.json: Updated"
  /\ fullCommitMessage (Some "Fix venue") "a1b2c3d4e5f60718" ["  - locations.json: Updated"]
     <> spec_commit_message "Fix venue" "a1b2c3d4e5f60718" ["  - locations.json: Updated"].
Proof. split; [reflexivity | vm_compute; discriminate]. Qed.

(** The older copy of the route writes the user name into the message. *)
Lemma legacy_message_names_user :
  legacy_fullCommitMessage (Some "Fix venue") "bob" "42" []
  = "Fix venue" +:+ newline +:+ newline +:+ "User: @bob (ID: 42)".
Proof. reflexivity. Qed.

(** C8 (amended). When the batch succeeds, the message of the new commit is
    the caller's message (or "Update files via dashboard" when there is
    none), a blank line, "User: " followed by the anonymous hash stored for
    the user's id in the users file (or "unknown"), a blank line, the heading
    "Changes:", then the report lines, one per line.  The user name of the
    session takes no part in the run. *)
Theorem commit_message_composition user files commitMessage w sha :
  fst (post_batch cfg user files commitMessage w) = Return (Response 200 (BatchOk sha)) ->
  (exists tree_id olds reports,
     length olds = length files
     /\ changeReports files olds = Return reports
     /\ reports <> []
     /\ commits (remote (snd (post_batch cfg user files commitMessage w))) !! sha
        = Some (Commit tree_id [branch (remote w)]
                  (or_text commitMessage "Update files via dashboard" +:+ newline +:+ newline
                     +:+ "User: "
                     +:+ or_text (getUserRecord cfg (or_text (user_id <$> user) "unknown")
                                    ≫= rec_anonHash) "unknown"
                     +:+ newline +:+ newline
                     +:+ "Changes:" +:+ newline +:+ join newline reports)))
  /\ (forall name', post_batch cfg (with_username name' <$> user) files commitMessage w
                   = post_batch cfg user files commitMessage w).
Proof.
  intros H. split; [|intros name'; destruct user as [[id name]|]; reflexivity].
  rewrite post_batch_run in *.
  destruct (negb (passes_auth cfg user)); [discriminate H|].
  destruct (Nat.eqb_spec (length files) 0) as [Hz|Hnz]; [discriminate H|].
  destruct (prepare_commit cfg user files commitMessage w) as [[sha'|e] w1] eqn:Ep;
    [|discriminate H].
  destruct (call (PatchRef sha' false) w1) as [[rep|e] w2] eqn:Ec; [|discriminate H].
  cbn [fst snd] in *. injection H as ->.
  apply call_PatchRef_return in Ec as Hr.
  destruct (prepare_commit_return _ _ _ _ _ _ Ep)
    as (tip & base & olds & reports & bl & tree_id & _ & _ & Hlen & Hrep
        & _ & _ & _ & Hcommit & _ & _).
  assert (Hne : reports <> []).
  { apply (changeReports_nonempty files olds); [now destruct files | exact Hrep]. }
  exists tree_id, olds, reports. rewrite Hr. cbn [commits].
  rewrite (fullCommitMessage_reports _ _ _ Hne) in Hcommit. now repeat split.
Qed.

End Server.

Lemma invalid_name_rejected_witness :
  get_file (Config (fun _ => None) false []) (Some (SessionUser "42" "bob")) "a/b"
           (World (Store 0 ∅ ∅ ∅ 0) [] [])
  = (Return (Response 400 (ErrorBody "Invalid file name" None)),
     World (Store 0 ∅ ∅ ∅ 0) [] []).
Proof.
  apply (invalid_name_rejected (Config (fun _ => None) false [])
           (Some (SessionUser "42" "bob")) "a/b" (World (Store 0 ∅ ∅ ∅ 0) [] []));
    [reflexivity | right; reflexivity].
Defined.



Lemma fetch_failures_not_fatal_witness :
  exists sha,
    fst (post_batch example_config example_user example_files None
           (World example_store [Healthy; Healthy; HttpError 500] []))
    = Return (Response 200 (BatchOk sha)).
Proof.
  destruct (fetch_failures_not_fatal example_config example_user example_files None
              example_store [HttpError 500] [] [] (Commit 1 [] "init") ∅
              ["  - locations.json: 0 → 1 entries"; "    • Added 1 new entry"])
    as (_ & _ & _ & sha & _ & _ & H & _).
  - reflexivity.
  - discriminate.
  - reflexivity.
  - constructor.
  - reflexivity.
  - reflexivity.
  - reflexivity.
  - now exists sha.
Defined.

(** C7 (the defect).  A failed fetch can be fatal to the batch.  The branch
    holds [data/about.json] with the text [5] and the request sets the
    content of the file to [null].  When the fetch of the old content is
    served, the old content is the number, the report is the generic line
    and the batch answers 200 with the new commit.  When the same fetch fails
    with status 503, the old content degrades to the skeleton of a document,
    the report generator reads [title] of [null] and throws (the defect of
    C2), and the batch answers 500: no blob was posted and the branch is
    where it was. *)
Lemma fetch_failure_blocks_commit :
  let cfg0 := Config number_parser true [] in
  let file := FileEntry "data/about.json" JNull in
  let served := post_batch cfg0 None [file] None (World number_site [] []) in
  let failed := post_batch cfg0 None [file] None
                  (World number_site [Healthy; Healthy; HttpError 503] []) in
  (fetched cfg0 number_site file Healthy = JNum "5"
   /\ fst served = Return (Response 200 (BatchOk 5))
   /\ branch (remote (snd served)) = 5)
  /\ (fetched cfg0 number_site file (HttpError 503) = defaultContent "about.json"
      /\ fst failed
         = Return (Response 500 (ErrorBody "Batch update failed" (Some (Raised TypeError))))
      /\ branch (remote (snd failed)) = branch number_site
      /\ log (snd failed) = [GetRef; GetCommit 0; GetContents "data/about.json"]).
Proof. repeat split. Qed.

Lemma commit_message_composition_witness :
  exists tree_id reports,
    reports <> []
    /\ commits (remote (snd (post_batch example_config example_user example_files
                              (Some "Fix venue") (World example_store [] [])))) !! 4
       = Some (Commit tree_id [0]
                 ("Fix venue" +:+ newline +:+ newline +:+ "User: a1b2c3d4e5f60718"
                    +:+ newline +:+ newline +:+ "Changes:" +:+ newline
                    +:+ join newline reports)).
Proof.
  destruct (commit_message_composition example_config example_user example_files
              (Some "Fix venue") (World example_store [] []) 4)
    as [(tree_id & olds & reports & _ & _ & Hne & H) _].
  - reflexivity.
  - exists tree_id, reports. split; [exact Hne | exact H].
Defined.

(** ** The client edit buffer *)

Section Client.

Variable remote_at : string -> option nat -> value.

Lemma run_snoc (events : list App.event) (e : App.event) :
  App.run (events ++ [e]) = App.step (App.run events) e.
Proof. unfold App.run. now rewrite foldl_app. Qed.

Lemma cleaned_by_push_snoc (events : list App.event) (e : App.event) (name : string)
    (v : App.FileState) :
  App.cleaned_by_push events name v -> App.cleaned_by_push (events ++ [e]) name v.
Proof.
  intros (before & after & v' & -> & Hv' & Hd & Hv).
  exists before, (after ++ [e]), v'. split; [|auto].
  now rewrite <- app_assoc.
Qed.

(** What a load leaves of a file: the file it stores is as loaded, and every
    other file is as it was. *)
Lemma load_stores_as_loaded (st : gmap string App.FileState) (e : App.event)
    (name : string) (v : App.FileState) :
  App.honest remote_at e -> App.is_push e = false ->
  App.step st e !! name = Some v -> App.dirty v = false ->
  st !! name = Some v \/ App.as_loaded remote_at name v.
Proof.
  intros He Hp Hv Hd.
  destruct e as [n sha fetched c|n sha fetched|n next|]; simpl in *; try discriminate Hp.
  - destruct (App.loaded_content c n fetched) as [stored|err] eqn:El; [|now left].
    destruct (decide (n = name)) as [->|Hne].
    + rewrite lookup_insert_eq in Hv. injection Hv as <-. right.
      unfold App.as_loaded. simpl. subst fetched.
      unfold App.loaded_content in El.
      destruct (remote_at name sha) as [| | | |items|] eqn:Er;
        try (injection El as <-; now left).
      destruct (String.eqb_spec name "times.json") as [->|_];
        [|injection El as <-; now left].
      unfold mbind, outcome_bind, obind in El.
      destruct (App.keep_upcoming c items) as [kept|] eqn:Ek; [|discriminate El].
      injection El as <-. right. left. split; [reflexivity|]. now exists c, items, kept.
    + rewrite lookup_insert_ne in Hv by exact Hne. now left.
  - destruct (decide (n = name)) as [->|Hne].
    + rewrite lookup_insert_eq in Hv. injection Hv as <-. right.
      unfold App.as_loaded. simpl. subst fetched.
      destruct (truthy (remote_at name sha)) eqn:Et; [now left | right; right; now split].
    + rewrite lookup_insert_ne in Hv by exact Hne. now left.
  - destruct (decide (n = name)) as [->|Hne].
    + rewrite lookup_insert_eq in Hv. injection Hv as <-. discriminate Hd.
    + rewrite lookup_insert_ne in Hv by exact Hne. now left.
Qed.

(** C9 (amended). In every state of the edit buffer reached by loading,
    editing and pushing, a tracked file with [dirty == false] either holds
    the content fetched at its revision marker as the load stored it
    (unchanged, or for [times.json] restricted to the entries whose date is
    not in the past, or [[]] when an auxiliary load found a falsy content), or
    was dirty when the answer of a successful push arrived and holds the
    content and the revision marker it had at that moment.  The update made
    when that answer arrives clears the dirty flag of every file and changes
    nothing else. *)
Theorem clean_files_as_loaded (events : list App.event) :
  Forall (App.honest remote_at) events ->
  (forall (name : string) (v : App.FileState),
     App.run events !! name = Some v -> App.dirty v = false ->
     App.as_loaded remote_at name v \/ App.cleaned_by_push events name v)
  /\ (forall (st : gmap string App.FileState) (name : string) (v : App.FileState),
        st !! name = Some v ->
        App.step st App.Pushed !! name
        = Some {| App.content := App.content v; App.sha := App.sha v; App.dirty := false |}).
Proof.
  intros Hh. split.
  - induction events as [|e events IH] using rev_ind; intros name v Hv Hd.
    + unfold App.run in Hv. simpl in Hv. rewrite lookup_empty in Hv. discriminate Hv.
    + apply Forall_app in Hh as [Hh He]. apply Forall_cons_1 in He as [He _].
      specialize (IH Hh). rewrite run_snoc in Hv.
      destruct (App.is_push e) eqn:Hp.
      * destruct e; try discriminate Hp. simpl in Hv. rewrite lookup_fmap in Hv.
        destruct (App.run events !! name) as [v0|] eqn:Hv0; [|discriminate Hv].
        simpl in Hv. injection Hv as <-. unfold App.markClean in *.
        destruct (App.dirty v0) eqn:Hd0.
        -- right. exists events, [], v0. auto.
        -- destruct (IH name v0 Hv0 Hd0) as [Hl|Hc]; [now left|].
           right. now apply cleaned_by_push_snoc.
      * destruct (load_stores_as_loaded _ _ _ _ He Hp Hv Hd) as [Hsame|Hl]; [|now left].
        destruct (IH name v Hsame Hd) as [Hl|Hc]; [now left|].
        right. now apply cleaned_by_push_snoc.
  - intros st name v Hv. simpl. rewrite lookup_fmap, Hv. simpl. f_equal.
    unfold App.markClean. destruct v as [c s []]; reflexivity.
Qed.

End Client.

(** C9 as stated fails, in three ways.  After load, edit and push the file
    is clean, holds the edited content, and still carries the revision marker
    of the load, at which the store holds the old content.  The load of
    [times.json] drops the entries that are not upcoming, here an entry
    without a date.  An auxiliary load that finds the content [null] stores
    the empty list. *)
Lemma pushed_file_keeps_old_marker :
  let old := JObj [("title", JStr "Old"); ("sections", JArr [])] in
  let new := JObj [("title", JStr "New"); ("sections", JArr [])] in
  let entry := JObj [("locationId", JStr "hull")] in
  let remote_at := fun (name : string) (sha : option nat) =>
                     match sha with
                     | Some 1 => old
                     | Some 2 => JArr [entry]
                     | Some 3 => JNull
                     | _ => defaultContent name
                     end in
  let c0 := {| App.now := 0%Z; App.Date_parse := fun _ => None |} in
  let pushed := [App.Loaded "about.json" (Some 1) old c0;
                 App.Edited "about.json" new;
                 App.Pushed] in
  let filtered := [App.Loaded "times.json" (Some 2) (JArr [entry]) c0] in
  let defaulted := [App.LoadedAux "locations.json" (Some 3) JNull] in
  (Forall (App.honest remote_at) pushed
   /\ App.run pushed !! "about.json"
      = Some {| App.content := new; App.sha := Some 1; App.dirty := false |}
   /\ ~ App.clean_matches_remote remote_at (App.run pushed))
  /\ (Forall (App.honest remote_at) filtered
      /\ App.run filtered !! "times.json"
         = Some {| App.content := JArr []; App.sha := Some 2; App.dirty := false |}
      /\ ~ App.clean_matches_remote remote_at (App.run filtered))
  /\ (Forall (App.honest remote_at) defaulted
      /\ App.run defaulted !! "locations.json"
         = Some {| App.content := JArr []; App.sha := Some 3; App.dirty := false |}
      /\ ~ App.clean_matches_remote remote_at (App.run defaulted)).
Proof.
  intros old new entry remote_at c0 pushed filtered defaulted.
  assert (H1 : App.run pushed !! "about.json"
               = Some {| App.content := new; App.sha := Some 1; App.dirty := false |})
    by reflexivity.
  assert (H2 : App.run filtered !! "times.json"
               = Some {| App.content := JArr []; App.sha := Some 2; App.dirty := false |})
    by reflexivity.
  assert (H3 : App.run defaulted !! "locations.json"
               = Some {| App.content := JArr []; App.sha := Some 3; App.dirty := false |})
    by reflexivity.
  split; [|split].
  - split; [repeat constructor|]. split; [exact H1|].
    intros Hinv. specialize (Hinv _ _ H1 eq_refl). discriminate Hinv.
  - split; [repeat constructor|]. split; [exact H2|].
    intros Hinv. specialize (Hinv _ _ H2 eq_refl). discriminate Hinv.
  - split; [repeat constructor|]. split; [exact H3|].
    intros Hinv. specialize (Hinv _ _ H3 eq_refl). discriminate Hinv.
Qed.

(** The load of [times.json] drops an entry without a date, so that the clean
    content differs from the fetched one. *)
Lemma undated_times_dropped (c : App.clock) (sha : option nat) :
  App.Date_parse c EmptyString = None ->
  App.step ∅ (App.Loaded "times.json" sha (JArr [JObj [("locationId", JStr "hull")]]) c)
    !! "times.json"
  = Some {| App.content := JArr []; App.sha := sha; App.dirty := false |}.
Proof. intros H. cbn. rewrite H. cbn. apply lookup_insert_eq. Qed.

Lemma clean_files_as_loaded_witness :
  let old := JObj [("title", JStr "Old"); ("sections", JArr [])] in
  let new := JObj [("title", JStr "New"); ("sections", JArr [])] in
  let remote_at := fun (name : string) (sha : option nat) =>
                     match sha with Some 1 => old | _ => defaultContent name end in
  let events := [App.Loaded "about.json" (Some 1) old
                   {| App.now := 0%Z; App.Date_parse := fun _ => None |};
                 App.LoadedAux "locations.json" None (JArr []);
                 App.Edited "about.json" new;
                 App.Pushed] in
  let pushed := {| App.content := new; App.sha := Some 1; App.dirty := false |} in
  App.run events !! "about.json" = Some pushed
  /\ (App.as_loaded remote_at "about.json" pushed
      \/ App.cleaned_by_push events "about.json" pushed).
Proof.
  intros old new remote_at events pushed.
  destruct (clean_files_as_loaded remote_at events) as [H _]; [repeat constructor|].
  split; [reflexivity|].
  exact (H "about.json" pushed eq_refl eq_refl).
Defined.

(* ================================================================== *)
(** * Further properties of the routes *)

Section Routes.

Variable cfg : config.

(** ** The store only grows *)

Lemma extends_refl (st : store) : extends st st.
Proof. split; [lia | now intros]. Qed.

Lemma extends_trans (a b c : store) : extends a b -> extends b c -> extends a c.
Proof.
  intros [Hn1 H1] [Hn2 H2]. split; [lia|].
  intros id Hid. destruct (H1 id Hid) as (Hb & Ht & Hc).
  destruct (H2 id ltac:(lia)) as (Hb' & Ht' & Hc').
  now rewrite Hb', Ht', Hc'.
Qed.

Lemma serve_extends (st : store) (r : request) : extends st (snd (serve st r)).
Proof.
  destruct r as [|id|p|text|base entries|message tree parents|sha force]; simpl.
  - apply extends_refl.
  - destruct (commits st !! id); apply extends_refl.
  - destruct (file_at st (branch st) p) as [[b text]|]; apply extends_refl.
  - split; simpl; [lia|]. intros id Hid. rewrite lookup_insert_ne by lia. now repeat split.
  - destruct (trees st !! base); [|apply extends_refl].
    split; simpl; [lia|]. intros id Hid. rewrite lookup_insert_ne by lia. now repeat split.
  - destruct (trees st !! tree); [|apply extends_refl].
    split; simpl; [lia|]. intros id Hid. rewrite lookup_insert_ne by lia. now repeat split.
  - destruct (force || fast_forward st sha); [|apply extends_refl].
    split; simpl; [lia | now intros].
Qed.

Lemma additive_ret {A} (a : A) : additive (mret a : handler A).
Proof. intros w r w' H. injection H as <- <-. apply extends_refl. Qed.

Lemma additive_throw {A} (e : failure) : additive (throw e : handler A).
Proof. intros w r w' H. injection H as <- <-. apply extends_refl. Qed.

Lemma additive_call (r : request) : additive (call r).
Proof.
  intros w rep w' H. unfold call in H.
  destruct (head (script w)) as [[|s|]|];
    try (injection H as <- <-; apply extends_refl);
    pose proof (serve_extends (remote w) r) as He;
    destruct (serve (remote w) r) as [[a|s] st]; injection H as <- <-; exact He.
Qed.

Lemma additive_bind {A B} (m : handler A) (k : A -> handler B) :
  additive m -> (forall a, additive (k a)) -> additive (m ≫= k).
Proof.
  intros Hm Hk w r w' H. unfold mbind, handler_bind in H.
  destruct (m w) as [[a|e] w1] eqn:E.
  - eapply extends_trans; [exact (Hm _ _ _ E) | exact (Hk _ _ _ _ H)].
  - injection H as <- <-. exact (Hm _ _ _ E).
Qed.

Lemma additive_try_catch {A} (m : handler A) (h : failure -> handler A) :
  additive m -> (forall e, additive (h e)) -> additive (try_catch m h).
Proof.
  intros Hm Hh w r w' H. unfold try_catch in H.
  destruct (m w) as [[a|e] w1] eqn:E.
  - injection H as <- <-. exact (Hm _ _ _ E).
  - eapply extends_trans; [exact (Hm _ _ _ E) | exact (Hh _ _ _ _ H)].
Qed.

Lemma additive_all {A} (ms : list (handler A)) : Forall additive ms -> additive (all ms).
Proof.
  induction 1 as [|m ms Hm _ IH]; intros w r w' H; simpl in H.
  - injection H as <- <-. apply extends_refl.
  - destruct (m w) as [r1 w1] eqn:E1. destruct (all ms w1) as [rs w2] eqn:E2.
    injection H as <- <-.
    eapply extends_trans; [exact (Hm _ _ _ E1) | exact (IH _ _ _ E2)].
Qed.

Lemma additive_lift {A} (o : outcome js_error A) : additive (lift o).
Proof. intros w r w' H. destruct o; injection H as <- <-; apply extends_refl. Qed.

Lemma additive_reply_sha (rep : reply) : additive (reply_sha rep).
Proof. destruct rep; first [apply additive_ret | apply additive_throw]. Qed.

Lemma additive_reply_tree (rep : reply) : additive (reply_tree rep).
Proof. destruct rep; first [apply additive_ret | apply additive_throw]. Qed.

Lemma additive_fetchJsonFile (filePath : string) : additive (fetchJsonFile cfg filePath).
Proof.
  apply additive_bind; [apply additive_call|].
  intros [sha|tree|sha text|]; try apply additive_throw.
  destruct (JSON_parse cfg text); [apply additive_ret | apply additive_throw].
Qed.

Lemma additive_oldContent (file : file_entry) : additive (oldContent cfg file).
Proof.
  apply additive_try_catch.
  - apply additive_bind; [apply additive_fetchJsonFile | intros; apply additive_ret].
  - intros e. simpl. case_condition; apply additive_ret.
Qed.

Lemma additive_createBlob (file : file_entry) : additive (createBlob file).
Proof.
  apply additive_bind; [apply additive_call|].
  intros [sha|tree|sha text|]; first [apply additive_ret | apply additive_throw].
Qed.

Lemma additive_prepare_commit user files commitMessage :
  additive (prepare_commit cfg user files commitMessage).
Proof.
  unfold prepare_commit.
  repeat first
    [ apply additive_reply_sha | apply additive_reply_tree | apply additive_lift
    | apply additive_call
    | apply additive_all; apply Forall_forall; intros m Hm;
      apply list_elem_of_fmap in Hm as (f & -> & _);
      first [apply additive_oldContent | apply additive_createBlob]
    | apply additive_bind; [|intros ?] ].
Qed.

Lemma additive_requireAuth user (next : handler response) :
  additive next -> additive (requireAuth cfg user next).
Proof.
  intros Hn. unfold requireAuth.
  destruct (DEV_BYPASS_AUTH cfg); [exact Hn|].
  destruct (isAuthenticated user); [exact Hn | apply additive_ret].
Qed.

Lemma additive_post_batch user files commitMessage :
  additive (post_batch cfg user files commitMessage).
Proof.
  apply additive_requireAuth, additive_try_catch.
  - destruct (length files =? 0)%nat; [apply additive_ret|].
    apply additive_bind; [apply additive_prepare_commit|]. intros sha.
    apply additive_bind; [apply additive_call | intros; apply additive_ret].
  - intros e. apply additive_ret.
Qed.

(** ** The requests of a batch *)

Lemma tail_drop_one {A} (l : list A) : tail l = drop 1 l.
Proof. now destruct l. Qed.

Lemma all_snd {A} (m : handler A) (ms : list (handler A)) (w : world) :
  snd (all (m :: ms) w) = snd (all ms (snd (m w))).
Proof. simpl. destruct (m w) as [r w1]. simpl. now destruct (all ms w1). Qed.

Lemma createBlob_world (file : file_entry) (w : world) :
  snd (createBlob file w) = snd (call (PostBlob (stringify_indent 0 (content file))) w).
Proof.
  unfold createBlob, mbind, handler_bind.
  destruct (call (PostBlob (stringify_indent 0 (content file))) w) as [[[]|e] w1]; reflexivity.
Qed.

(** Every blob request of a batch is issued, in the order of the files,
    whatever becomes of each. *)
Lemma createBlobs_trace (files : list file_entry) : forall w,
  log (snd (all (map createBlob files) w))
  = log w ++ map (fun f => PostBlob (stringify_indent 0 (content f))) files
  /\ script (snd (all (map createBlob files) w)) = drop (length files) (script w).
Proof.
  induction files as [|f files IH]; intros w.
  - simpl. now rewrite app_nil_r.
  - cbn [map]. rewrite all_snd, createBlob_world.
    destruct (IH (snd (call (PostBlob (stringify_indent 0 (content f))) w))) as [Hl Hs].
    destruct (call_log (PostBlob (stringify_indent 0 (content f))) w) as [Hl1 Hs1].
    rewrite Hl, Hs, Hl1, Hs1, <- app_assoc. split; [reflexivity|].
    cbn [length]. apply drop_tail.
Qed.

(** The requests behind a commit id returned by steps 1 to 5. *)
Lemma prepare_commit_trace user files commitMessage w sha w1 :
  prepare_commit cfg user files commitMessage w = (Return sha, w1) ->
  exists tip bl tree_id reports,
    commits (remote w) !! branch (remote w) = Some tip
    /\ map fst bl = map path files
    /\ log w1
       = log w ++ [GetRef; GetCommit (branch (remote w))]
           ++ map (fun f => GetContents (path f)) files
           ++ map (fun f => PostBlob (stringify_indent 0 (content f))) files
           ++ [PostTree (commit_tree tip) bl;
               PostCommit (fullCommitMessage commitMessage (actor_tag cfg user) reports)
                          tree_id [branch (remote w)]]
    /\ script w1 = drop (2 * length files + 4) (script w).
Proof.
  unfold prepare_commit, mbind, handler_bind. intros H.
  destruct (call GetRef w) as [[rep1|e1] wa] eqn:E1; [|discriminate H].
  pose proof (call_return _ _ _ _ E1) as (_ & Sa & La).
  apply call_GetRef_return in E1 as [-> Ra].
  cbn [reply_sha mret handler_ret] in H.
  destruct (call (GetCommit (branch (remote w))) wa) as [[rep2|e2] wb] eqn:E2;
    [|discriminate H].
  pose proof (call_return _ _ _ _ E2) as (_ & Sb & Lb).
  apply call_GetCommit_return in E2 as (tip & Htip & -> & Rb).
  cbn [reply_tree mret handler_ret] in H.
  destruct (oldContents_run cfg files wb) as (olds & Eo & Hlen). rewrite Eo in H.
  unfold lift in H at 1.
  destruct (changeReports files olds) as [reports|e] eqn:Er; [|discriminate H].
  match type of H with
  | context [all (map createBlob files) ?wc] =>
      pose proof (createBlobs_trace files wc) as [Ld Sd];
      destruct (all (map createBlob files) wc) as [[bl|e] wd] eqn:Eb; [|discriminate H]
  end.
  cbn [snd log script] in Ld, Sd.
  apply createBlobs_return in Eb as (Hfst & _).
  destruct (call (PostTree (commit_tree tip) bl) wd) as [[rep3|e3] we] eqn:E3;
    [|discriminate H].
  pose proof (call_return _ _ _ _ E3) as (_ & Se & Le).
  apply call_PostTree_return in E3 as (base & Hbase & -> & Re).
  cbn [reply_sha mret handler_ret] in H.
  match type of H with
  | context [call (PostCommit ?m ?t ?ps) we] =>
      destruct (call (PostCommit m t ps) we) as [[rep4|e4] wf] eqn:E4; [|discriminate H]
  end.
  pose proof (call_return _ _ _ _ E4) as (_ & Sf & Lf).
  apply call_PostCommit_return in E4 as (-> & Rf).
  cbn [reply_sha mret handler_ret] in H. injection H as <- <-.
  rewrite Ra in Htip.
  exists tip, bl, (next_id (remote wd)), reports.
  split; [exact Htip|]. split; [exact Hfst|]. split.
  - rewrite Lf, Le, Ld, Lb, La. rewrite <- !app_assoc. reflexivity.
  - rewrite Sf, Se, Sd, Sb, Sa. rewrite !tail_drop_one, !drop_drop.
    f_equal. lia.
Qed.

(** What an answer naming a commit stands for. *)
Lemma post_batch_success user files commitMessage w sha :
  fst (post_batch cfg user files commitMessage w) = Return (Response 200 (BatchOk sha)) ->
  exists w1 rep,
    passes_auth cfg user = true /\ files <> []
    /\ prepare_commit cfg user files commitMessage w = (Return sha, w1)
    /\ call (PatchRef sha false) w1
       = (Return rep, snd (post_batch cfg user files commitMessage w)).
Proof.
  rewrite post_batch_run.
  destruct (passes_auth cfg user); cbn [negb]; [|discriminate].
  destruct (Nat.eqb_spec (length files) 0) as [Hz|Hnz]; [discriminate|].
  destruct (prepare_commit cfg user files commitMessage w) as [[sha'|e] w1]; [|discriminate].
  destruct (call (PatchRef sha' false) w1) as [[rep|e] w2] eqn:Ec; [|discriminate].
  cbn [fst snd]. intros H. injection H as <-.
  exists w1, rep. split; [reflexivity|]. split; [now destruct files|].
  split; [reflexivity | exact Ec].
Qed.

(** X1. [POST /api/batch] only ever adds objects to the store: whatever the
    request, the faults met and the answer, every blob, tree and commit the
    store held below its counter is still there unchanged afterwards. *)
Theorem batch_only_adds user files commitMessage w :
  extends (remote w) (remote (snd (post_batch cfg user files commitMessage w))).
Proof.
  destruct (post_batch cfg user files commitMessage w) as [r w'] eqn:E.
  exact (additive_post_batch user files commitMessage w r w' E).
Qed.

(** X2. A batch that answers with a commit has issued exactly these requests,
    in this order: the branch, its tip commit, the current content of each
    file, one blob per file (the text of the content, indented by four
    spaces), one tree, one commit on top of the tip, and one non-forced
    update of the branch; [2n + 5] requests for [n] files. *)
Theorem batch_request_sequence user files commitMessage w sha :
  fst (post_batch cfg user files commitMessage w) = Return (Response 200 (BatchOk sha)) ->
  exists tip bl tree_id reports,
    commits (remote w) !! branch (remote w) = Some tip
    /\ map fst bl = map path files
    /\ log (snd (post_batch cfg user files commitMessage w))
       = log w ++ [GetRef; GetCommit (branch (remote w))]
           ++ map (fun f => GetContents (path f)) files
           ++ map (fun f => PostBlob (stringify_indent 0 (content f))) files
           ++ [PostTree (commit_tree tip) bl;
               PostCommit (fullCommitMessage commitMessage (actor_tag cfg user) reports)
                          tree_id [branch (remote w)];
               PatchRef sha false]
    /\ length (log (snd (post_batch cfg user files commitMessage w)))
       = length (log w) + 2 * length files + 5
    /\ script (snd (post_batch cfg user files commitMessage w))
       = drop (2 * length files + 5) (script w).
Proof.
  intros H. destruct (post_batch_success _ _ _ _ _ H) as (w1 & rep & _ & _ & Ep & Ec).
  destruct (prepare_commit_trace _ _ _ _ _ _ Ep)
    as (tip & bl & tree_id & reports & Htip & Hfst & Hl & Hs).
  apply call_return in Ec as (_ & Hs2 & Hl2).
  exists tip, bl, tree_id, reports.
  assert (Hlog : log (snd (post_batch cfg user files commitMessage w))
                 = log w ++ [GetRef; GetCommit (branch (remote w))]
                     ++ map (fun f => GetContents (path f)) files
                     ++ map (fun f => PostBlob (stringify_indent 0 (content f))) files
                     ++ [PostTree (commit_tree tip) bl;
                         PostCommit (fullCommitMessage commitMessage (actor_tag cfg user)
                                       reports) tree_id [branch (remote w)];
                         PatchRef sha false]).
  { rewrite Hl2, Hl. rewrite <- !app_assoc. reflexivity. }
  split; [exact Htip|]. split; [exact Hfst|]. split; [exact Hlog|]. split.
  - rewrite Hlog. rewrite !length_app, !length_map. simpl. lia.
  - rewrite Hs2, Hs, tail_drop_one, drop_drop. f_equal. lia.
Qed.

(** X3. A batch that answers with a commit leaves every other file as it
    was: in the tree of the new commit a path that is not among the paths of
    the request has the blob and the text it had at the tip the batch started
    from, and is absent if it was absent there. *)
Theorem batch_keeps_other_files user files commitMessage w sha p :
  blobs_fresh (remote w) -> trees_closed (remote w) ->
  fst (post_batch cfg user files commitMessage w) = Return (Response 200 (BatchOk sha)) ->
  p ∉ map path files ->
  file_at (remote (snd (post_batch cfg user files commitMessage w))) sha p
  = file_at (remote w) (branch (remote w)) p.
Proof.
  intros Hfresh Hclosed H Hp.
  destruct (post_batch_success _ _ _ _ _ H) as (w1 & rep & _ & _ & Ep & Ec).
  destruct (prepare_commit_return _ _ _ _ _ _ _ Ep)
    as (tip & base & olds & reports & bl & tree_id & Htip & Hbase & _ & _
        & Hfst & _ & Htree & Hcommit & _ & _).
  pose proof (additive_prepare_commit _ _ _ _ _ _ Ep) as [_ Hkeep].
  apply call_PatchRef_return in Ec as ->.
  unfold file_at. cbn [commits trees blobs]. rewrite Hcommit, Htip. cbn.
  rewrite Htree, Hbase. cbn.
  rewrite tree_with_other by now rewrite Hfst.
  destruct (base !! p) as [b|] eqn:Eb; [|reflexivity]. cbn.
  destruct (Hclosed _ _ _ _ Hbase Eb) as [text Htext].
  assert (Hlt : b < next_id (remote w)).
  { destruct (decide (b < next_id (remote w))) as [Hlt|Hge]; [exact Hlt|].
    rewrite Hfresh in Htext by lia. discriminate Htext. }
  destruct (Hkeep b Hlt) as (-> & _). reflexivity.
Qed.

(** ** Reading files *)

(** The possible runs of [GET /api/file/:name] for a request that reaches
    the fetch. *)
Lemma get_file_run user name w :
  passes_auth cfg user = true -> name <> EmptyString -> has_slash name = false ->
  get_file cfg user name w
  = (match fst (call (GetContents ("data/" +:+ name)) w) with
     | Return (RContents sha text) =>
         match JSON_parse cfg text with
         | Some parsed => Return (Response 200 (FileBody (Some sha) parsed false))
         | None => Return (Response 500 (ErrorBody "Failed to fetch file" (Some SyntaxError)))
         end
     | Return _ =>
         Return (Response 500 (ErrorBody "Failed to fetch file" (Some (Raised TypeError))))
     | Throw e =>
         Return (if (status_of e =? 404)%nat
                 then Response 200 (FileBody None (defaultContent name) true)
                 else Response (status_of e) (ErrorBody "Failed to fetch file" (Some e)))
     end, snd (call (GetContents ("data/" +:+ name)) w)).
Proof.
  intros Ha Hne Hs. unfold get_file. rewrite (requireAuth_pass _ _ _ Ha).
  unfold try_catch.
  destruct (String.eqb_spec name EmptyString) as [->|_]; [now elim Hne|].
  rewrite Hs. cbn [orb]. unfold mbind, handler_bind. rewrite fetchJsonFile_run.
  change (FILE_DIR +:+ "/" +:+ name) with ("data/" +:+ name).
  destruct (call (GetContents ("data/" +:+ name)) w) as [[rep|e] w1]; cbn [fst snd].
  - destruct rep as [sha|tree|sha text|]; try reflexivity.
    destruct (JSON_parse cfg text); reflexivity.
  - cbn. destruct (status_of e =? 404)%nat; reflexivity.
Qed.

(** The possible runs of the older route [GET /api/about]. *)
Lemma get_about_run user w :
  passes_auth cfg user = true ->
  get_about cfg user w
  = (match fst (call (GetContents "data/about.json") w) with
     | Return (RContents sha text) =>
         match JSON_parse cfg text with
         | Some parsed => Return (Response 200 (FileBody (Some sha) parsed false))
         | None =>
             Return (Response 500 (ErrorBody "Failed to fetch about.json" (Some SyntaxError)))
         end
     | Return _ =>
         Return (Response 500 (ErrorBody "Failed to fetch about.json"
                                 (Some (Raised TypeError))))
     | Throw e =>
         Return (Response (status_of e) (ErrorBody "Failed to fetch about.json" (Some e)))
     end, snd (call (GetContents "data/about.json") w)).
Proof.
  intros Ha. unfold get_about. rewrite (requireAuth_pass _ _ _ Ha).
  unfold try_catch, mbind, handler_bind. rewrite fetchJsonFile_run.
  change (FILE_DIR +:+ "/about.json") with "data/about.json".
  destruct (call (GetContents "data/about.json") w) as [[rep|e] w1]; cbn [fst snd].
  - destruct rep as [sha|tree|sha text|]; try reflexivity.
    destruct (JSON_parse cfg text); reflexivity.
  - reflexivity.
Qed.

(** A request for the contents of a file that is served by the store. *)
Lemma call_GetContents_healthy (p : string) (st : store) (sc : list fault)
    (lg : list request) :
  head sc = None \/ head sc = Some Healthy ->
  call (GetContents p) (World st sc lg)
  = (match file_at st (branch st) p with
     | Some (b, text) => Return (RContents b text)
     | None => Throw (Http 404)
     end, World st (tail sc) (lg ++ [GetContents p])).
Proof.
  intros Hh. rewrite call_healthy by exact Hh. cbn [serve].
  destruct (file_at st (branch st) p) as [[b text]|]; reflexivity.
Qed.

(** A request that meets a fault. *)
Lemma call_faulty (r : request) (st : store) (flt : fault) (sc : list fault)
    (lg : list request) :
  flt <> Healthy ->
  call r (World st (flt :: sc) lg)
  = (Throw (match flt with HttpError s => Http s | _ => Network end),
     World st sc (lg ++ [r])).
Proof. intros Hf. destruct flt; [now elim Hf | reflexivity | reflexivity]. Qed.

(** X4. What a batch has committed is what [GET /api/file/:name] serves
    next: after a batch that answered with a commit, the file route, when its
    request is served, answers 200 with the committed content of
    [data/<name>] (the parser reading back the blob text), its blob as [sha]
    and no [notFound] mark. *)
Theorem batch_then_read user files commitMessage w sha f name sc lg :
  fst (post_batch cfg user files commitMessage w) = Return (Response 200 (BatchOk sha)) ->
  NoDup (map path files) -> f ∈ files -> path f = "data/" +:+ name ->
  name <> EmptyString -> has_slash name = false ->
  JSON_parse cfg (stringify_indent 0 (content f)) = Some (content f) ->
  head sc = None \/ head sc = Some Healthy ->
  let st := remote (snd (post_batch cfg user files commitMessage w)) in
  exists b,
    get_file cfg user name (World st sc lg)
    = (Return (Response 200 (FileBody (Some b) (content f) false)),
       World st (tail sc) (lg ++ [GetContents ("data/" +:+ name)])).
Proof.
  intros H Hnd Hf Hpath Hne Hs Hparse Hh st.
  destruct (post_batch_success _ _ _ _ _ H) as (w1 & rep & Ha & _ & Ep & Ec).
  destruct (prepare_commit_return _ _ _ _ _ _ _ Ep)
    as (tip & base & olds & reports & bl & tree_id & _ & _ & _ & _
        & Hfst & Hblobs & Htree & Hcommit & _ & _).
  apply call_PatchRef_return in Ec as Hst. fold st in Hst.
  apply list_elem_of_lookup in Hf as [i Hi].
  destruct (Hblobs i f Hi) as (b & Hbl & Hblob). exists b.
  assert (Hat : file_at st (branch st) ("data/" +:+ name)
                = Some (b, stringify_indent 0 (content f))).
  { rewrite Hst. cbn [branch]. rewrite <- Hpath.
    eapply file_at_committed; cbn [commits trees blobs];
      [exact Hcommit | exact Htree | now rewrite Hfst
      | apply list_elem_of_lookup; now exists i | exact Hblob]. }
  rewrite (get_file_run _ _ _ Ha Hne Hs), call_GetContents_healthy by exact Hh.
  rewrite Hat. cbn [fst snd]. now rewrite Hparse.
Qed.

(** The first request of a computation that begins with one. *)
Lemma call_then_first {A} (r : request) (k : reply -> handler A) (w : world) :
  (forall rep, quiet (k rep)) ->
  exists l, log (snd ((call r ≫= k) w)) = log w ++ r :: l.
Proof.
  intros Hk. unfold mbind, handler_bind.
  destruct (call_log r w) as [Hl _].
  destruct (call r w) as [[rep|e] wa]; cbn [snd] in Hl.
  - destruct (k rep wa) as [r' w'] eqn:Ek.
    destruct (Hk rep _ _ _ Ek) as (_ & l & Hl' & _). exists l. cbn [snd].
    rewrite Hl', Hl, <- app_assoc. reflexivity.
  - exists []. exact Hl.
Qed.

Lemma prepare_commit_first user files commitMessage w :
  exists l, log (snd (prepare_commit cfg user files commitMessage w)) = log w ++ GetRef :: l.
Proof.
  unfold prepare_commit. apply call_then_first. intros rep.
  repeat first
    [ apply quiet_reply_sha | apply quiet_reply_tree | apply quiet_lift
    | apply quiet_call; reflexivity
    | apply quiet_all; apply Forall_forall; intros m Hm;
      apply list_elem_of_fmap in Hm as (f & -> & _);
      first [apply quiet_oldContent | apply quiet_createBlob]
    | apply quiet_bind; [|intros ?] ].
Qed.

(** X5. [POST /api/batch] turns away a request without a session (401) and a
    request without files (400) before anything is asked of the store, the
    world being left as it was; every other request asks for the branch
    first. *)
Theorem batch_gate user files commitMessage w :
  (passes_auth cfg user = false ->
   post_batch cfg user files commitMessage w
   = (Return (Response 401 (ErrorBody "Unauthorized" None)), w))
  /\ (passes_auth cfg user = true -> files = [] ->
      post_batch cfg user files commitMessage w
      = (Return (Response 400 (ErrorBody "No files provided" None)), w))
  /\ (passes_auth cfg user = true -> files <> [] ->
      exists l, log (snd (post_batch cfg user files commitMessage w)) = log w ++ GetRef :: l).
Proof.
  rewrite post_batch_run. split; [|split].
  - now intros ->.
  - now intros -> ->.
  - intros -> Hne. cbn [negb].
    destruct (Nat.eqb_spec (length files) 0) as [Hz|_]; [now destruct files|].
    destruct (prepare_commit_first user files commitMessage w) as [l Hl].
    destruct (prepare_commit cfg user files commitMessage w) as [[sha|e] w1];
      cbn [snd] in Hl.
    + destruct (call_log (PatchRef sha false) w1) as [Hl2 _].
      destruct (call (PatchRef sha false) w1) as [[rep|e] w2]; cbn [snd] in *;
        exists (l ++ [PatchRef sha false]); rewrite Hl2, Hl, <- app_assoc; reflexivity.
    + now exists l.
Qed.

(** X6. [GET /api/file/:name] serves what the branch holds: for a request
    that passes the gate with a valid name, when the request is served, the
    file exists and its text parses, the answer is 200 with the blob id as
    [sha], the parsed content and no [notFound] mark; one request was issued
    and the store is as it was. *)
Theorem file_route_serves user name st sc lg b text parsed :
  passes_auth cfg user = true -> name <> EmptyString -> has_slash name = false ->
  head sc = None \/ head sc = Some Healthy ->
  file_at st (branch st) ("data/" +:+ name) = Some (b, text) ->
  JSON_parse cfg text = Some parsed ->
  get_file cfg user name (World st sc lg)
  = (Return (Response 200 (FileBody (Some b) parsed false)),
     World st (tail sc) (lg ++ [GetContents ("data/" +:+ name)])).
Proof.
  intros Ha Hne Hs Hh Hat Hp.
  rewrite (get_file_run _ _ _ Ha Hne Hs), call_GetContents_healthy by exact Hh.
  rewrite Hat. cbn [fst snd]. now rewrite Hp.
Qed.

(** X7. The failures of [GET /api/file/:name], for a request that passes the
    gate with a valid name.  The route always answers and never changes the
    store.  A request that fails with an error status other than 404 is
    answered with that very status and the error 'Failed to fetch file'; a
    request that gets no response at all, or a file whose text is not JSON,
    is answered 500. *)
Theorem file_route_failures user name st sc lg :
  passes_auth cfg user = true -> name <> EmptyString -> has_slash name = false ->
  let out := get_file cfg user name (World st sc lg) in
  (exists resp, fst out = Return resp)
  /\ remote (snd out) = st
  /\ (forall s rest, sc = HttpError s :: rest -> s <> 404 -> s <> 0 ->
        fst out = Return (Response s (ErrorBody "Failed to fetch file" (Some (Http s)))))
  /\ (forall rest, sc = NoResponse :: rest ->
        fst out = Return (Response 500 (ErrorBody "Failed to fetch file" (Some Network))))
  /\ (forall b text, head sc = None \/ head sc = Some Healthy ->
        file_at st (branch st) ("data/" +:+ name) = Some (b, text) ->
        JSON_parse cfg text = None ->
        fst out = Return (Response 500 (ErrorBody "Failed to fetch file" (Some SyntaxError)))).
Proof.
  intros Ha Hne Hs out. subst out.
  rewrite (get_file_run _ _ _ Ha Hne Hs). cbn [fst snd].
  split; [|split; [|split; [|split]]].
  - destruct (fst (call (GetContents ("data/" +:+ name)) (World st sc lg)))
      as [[sha|tree|sha text|]|e]; try (eexists; reflexivity).
    destruct (JSON_parse cfg text); eexists; reflexivity.
  - apply (call_GetContents_remote ("data/" +:+ name) (World st sc lg)).
  - intros s rest -> H404 H0. rewrite call_faulty by discriminate. cbn [fst status_of].
    destruct (Nat.eqb_spec s 0) as [->|_]; [now elim H0|].
    destruct (Nat.eqb_spec s 404) as [->|_]; [now elim H404 | reflexivity].
  - intros rest ->. rewrite call_faulty by discriminate. reflexivity.
  - intros b text Hh Hat Hp. rewrite call_GetContents_healthy by exact Hh.
    rewrite Hat. cbn [fst]. now rewrite Hp.
Qed.

(** X8. The older route [GET /api/about] answers as [GET /api/file/about.json]
    does whenever that one serves an existing file, and issues the same
    request; but it has no default: every failed fetch, an absent file (404)
    included, is answered with the status of the failure and the error
    'Failed to fetch about.json', so that a 200 of this route always carries
    the [sha] of a blob. *)
Theorem legacy_about_route user w :
  passes_auth cfg user = true ->
  (forall b v, fst (get_file cfg user "about.json" w)
               = Return (Response 200 (FileBody (Some b) v false)) ->
     get_about cfg user w = get_file cfg user "about.json" w)
  /\ snd (get_about cfg user w) = snd (get_file cfg user "about.json" w)
  /\ (forall e, fst (call (GetContents "data/about.json") w) = Throw e ->
        fst (get_about cfg user w)
        = Return (Response (status_of e) (ErrorBody "Failed to fetch about.json" (Some e))))
  /\ (forall sha v nf, fst (get_about cfg user w) = Return (Response 200 (FileBody sha v nf)) ->
        is_Some sha /\ nf = false).
Proof.
  intros Ha.
  rewrite (get_about_run _ _ Ha), (get_file_run _ "about.json" _ Ha) by (discriminate || reflexivity).
  change ("data/" +:+ "about.json") with "data/about.json". cbn [fst snd].
  destruct (fst (call (GetContents "data/about.json") w)) as [[sha|tree|sha text|]|e];
    [| |destruct (JSON_parse cfg text) as [parsed|]| |].
  1, 2, 4, 5: (split; [intros b v H; discriminate H|]; split; [reflexivity|];
            split; [intros e H; discriminate H|]; intros sha' v nf H; discriminate H).
  - split; [reflexivity|]. split; [reflexivity|].
    split; [intros e H; discriminate H|].
    intros sha' v nf H. injection H as <- <- <-. split; [now eexists | reflexivity].
  - split; [intros b v; case_condition; discriminate|]. split; [reflexivity|].
    split; [intros e' H; now injection H as <-|].
    intros sha v nf H. discriminate H.
Qed.

(** ** A batch whose last request fails *)

Lemma createBlobs_served (files : list file_entry) : forall w rest,
  script w = replicate (length files) Healthy ++ rest ->
  exists bl w1, all (map createBlob files) w = (Return bl, w1) /\ script w1 = rest.
Proof.
  induction files as [|f files IH]; intros w rest Hs; simpl.
  - now exists [], w.
  - destruct w as [st sc lg]. cbn [script length replicate app] in Hs. subst sc.
    unfold createBlob at 1, mbind, handler_bind.
    rewrite call_healthy by (right; reflexivity).
    cbn [serve fst snd mret handler_ret tail].
    edestruct IH as (bl & w1 & E & Hs1); [|rewrite E; eauto].
    reflexivity.
Qed.

(** Steps 1 to 5 complete when their requests other than the fetches are
    served, whatever becomes of the requests that follow. *)
Lemma prepare_commit_served user files commitMessage st fs rest lg tip base reports :
  length fs = length files ->
  commits st !! branch st = Some tip ->
  trees st !! commit_tree tip = Some base ->
  changeReports files (zip_with (fetched cfg st) files fs) = Return reports ->
  exists sha w1 tree_id,
    prepare_commit cfg user files commitMessage
      (World st (Healthy :: Healthy :: fs ++ replicate (length files) Healthy
                   ++ Healthy :: Healthy :: rest) lg)
    = (Return sha, w1)
    /\ script w1 = rest
    /\ branch (remote w1) = branch st
    /\ commits (remote w1) !! sha
       = Some (Commit tree_id [branch st]
                 (fullCommitMessage commitMessage (actor_tag cfg user) reports))
    /\ next_id st <= sha.
Proof.
  intros HF Htip Hbase Hr.
  unfold prepare_commit, mbind, handler_bind.
  rewrite call_healthy by (right; reflexivity).
  cbn [serve fst snd reply_sha mret handler_ret tail].
  rewrite call_healthy by (right; reflexivity).
  cbn [serve]. rewrite Htip. cbn [fst snd reply_tree mret handler_ret tail].
  match goal with |- context [all (map (oldContent cfg) files) ?W] =>
    destruct (oldContents_run cfg files W) as (olds & Eo & Hlen);
    pose proof (oldContents_fetched cfg files fs W _ HF eq_refl) as Hd
  end.
  rewrite Eo in Hd. cbn [fst] in Hd. injection Hd as ->. rewrite Eo.
  cbn [remote script log].
  unfold lift at 1. rewrite Hr.
  rewrite <- HF, drop_app_length.
  match goal with |- context [all (map createBlob files) ?W] =>
    destruct (createBlobs_served files W (Healthy :: Healthy :: rest)) as (bl & wd & Eb & Hs);
      [now rewrite HF|]
  end.
  rewrite Eb.
  apply createBlobs_return in Eb as (_ & _ & _ & Hb & Ht & Hc & Hn).
  cbn [remote] in Hb, Ht, Hc, Hn.
  destruct wd as [std scd lgd]. cbn [remote script] in *. subst scd.
  rewrite call_healthy by (right; reflexivity).
  cbn [serve]. rewrite Ht, Hbase. cbn [fst snd reply_sha mret handler_ret tail].
  rewrite call_healthy by (right; reflexivity).
  cbn [serve trees]. rewrite lookup_insert_eq.
  cbn [fst snd reply_sha mret handler_ret next_id tail].
  eexists _, _, _. split; [reflexivity|].
  cbn [script remote branch commits].
  split; [reflexivity|]. split; [exact Hb|].
  split; [apply lookup_insert_eq | lia].
Qed.

(** X9. A batch whose last request, the update of the branch, fails (an
    error status or no response) answers with the status of that failure and
    the error 'Batch update failed', and leaves the branch where it was; but
    the commit it had prepared, a new commit on top of the tip carrying the
    composed message, stays in the store, referenced by nothing. *)
Theorem rejected_update_leaves_commit user files commitMessage st fs flt rest lg
    tip base reports :
  passes_auth cfg user = true -> files <> [] ->
  length fs = length files ->
  commits st !! branch st = Some tip ->
  trees st !! commit_tree tip = Some base ->
  changeReports files (zip_with (fetched cfg st) files fs) = Return reports ->
  flt <> Healthy ->
  let w := World st (Healthy :: Healthy :: fs ++ replicate (length files) Healthy
                       ++ Healthy :: Healthy :: flt :: rest) lg in
  let e := match flt with HttpError s => Http s | _ => Network end in
  exists sha tree_id,
    fst (post_batch cfg user files commitMessage w)
    = Return (Response (status_of e) (ErrorBody "Batch update failed" (Some e)))
    /\ branch (remote (snd (post_batch cfg user files commitMessage w))) = branch st
    /\ commits (remote (snd (post_batch cfg user files commitMessage w))) !! sha
       = Some (Commit tree_id [branch st]
                 (fullCommitMessage commitMessage (actor_tag cfg user) reports))
    /\ (ids_fresh st -> commits st !! sha = None)
    /\ script (snd (post_batch cfg user files commitMessage w)) = rest.
Proof.
  intros Ha Hne Hlen Htip Hbase Hrep Hflt w e.
  destruct (prepare_commit_served user files commitMessage st fs (flt :: rest) lg
              tip base reports Hlen Htip Hbase Hrep)
    as (sha & w1 & tree_id & Ep & Hs & Hb & Hc & Hn).
  exists sha, tree_id.
  rewrite post_batch_run, Ha. cbn [negb].
  destruct (Nat.eqb_spec (length files) 0) as [Hz|_]; [now destruct files|].
  subst w. rewrite Ep. destruct w1 as [st1 sc1 lg1]. cbn [remote script] in *. subst sc1.
  rewrite call_faulty by exact Hflt. cbn [fst snd remote script].
  split; [reflexivity|]. split; [exact Hb|]. split; [exact Hc|].
  split; [|reflexivity]. intros Hf. now apply Hf.
Qed.

(** ** File names *)

Lemma split_slash_free (name : string) :
  has_slash name = false -> split "/" name = [name].
Proof.
  induction name as [|a name IH]; [reflexivity|]. cbn [has_slash split].
  destruct (Ascii.eqb a "/"); [discriminate|]. cbn [orb]. intros H.
  now rewrite (IH H).
Qed.

(** The segments of [dir/name], for a name without a slash, end with the
    name. *)
Lemma split_dir_name (dir name : string) :
  has_slash name = false ->
  exists first segs, split "/" (dir +:+ "/" +:+ name) = (first :: segs) ++ [name].
Proof.
  intros Hn. induction dir as [|a dir (first & segs & IH)].
  - exists EmptyString, []. cbn. now rewrite (split_slash_free _ Hn).
  - change (String a dir +:+ "/" +:+ name) with (String a (dir +:+ "/" +:+ name)).
    cbn [split]. rewrite IH. destruct (Ascii.eqb a "/").
    + now exists EmptyString, (first :: segs).
    + now exists (String a first), segs.
Qed.

Lemma pop_split_dir_name (dir name : string) :
  has_slash name = false -> pop (split "/" (dir +:+ "/" +:+ name)) = name.
Proof.
  intros Hn. destruct (split_dir_name dir name Hn) as (first & segs & ->).
  unfold pop. apply List.last_last.
Qed.

(** X10. The two routes agree on the default of a file.  For a name without
    a slash, the skeleton the batch compares against when it cannot fetch
    [<dir>/<name>] is the one [GET /api/file/<name>] serves for an absent
    file; in particular, when the store reports [data/<name>] absent, the
    content the file route answers and the old content of the batch are the
    same value. *)
Theorem routes_agree_on_default user dir name newContent w :
  has_slash name = false ->
  default_old (dir +:+ "/" +:+ name) = defaultContent name
  /\ (passes_auth cfg user = true -> name <> EmptyString ->
      fst (call (GetContents ("data/" +:+ name)) w) = Throw (Http 404) ->
      fst (get_file cfg user name w)
      = Return (Response 200 (FileBody None (defaultContent name) true))
      /\ fst (oldContent cfg (FileEntry ("data/" +:+ name) newContent) w)
         = Return (defaultContent name)).
Proof.
  intros Hs.
  assert (Hd : forall d, default_old (d +:+ "/" +:+ name) = defaultContent name).
  { intros d. unfold default_old. now rewrite pop_split_dir_name. }
  split; [apply Hd|].
  intros Ha Hne H404. split.
  - rewrite (get_file_run _ _ _ Ha Hne Hs). cbn [fst]. now rewrite H404.
  - rewrite oldContent_default.
    + cbn [fst path]. f_equal. apply (Hd "data").
    + left. rewrite fetchJsonFile_run. cbn [fst path]. now rewrite H404.
Qed.

(** What the commit of a successful batch holds. *)
Lemma post_batch_committed user files commitMessage w sha :
  fst (post_batch cfg user files commitMessage w) = Return (Response 200 (BatchOk sha)) ->
  NoDup (map path files) ->
  branch (remote (snd (post_batch cfg user files commitMessage w))) = sha
  /\ forall f, f ∈ files ->
       exists b, file_at (remote (snd (post_batch cfg user files commitMessage w))) sha (path f)
                 = Some (b, stringify_indent 0 (content f)).
Proof.
  intros H Hnd.
  destruct (post_batch_success _ _ _ _ _ H) as (w1 & rep & _ & _ & Ep & Ec).
  destruct (prepare_commit_return _ _ _ _ _ _ _ Ep)
    as (tip & base & olds & reports & bl & tree_id & _ & _ & _ & _
        & Hfst & Hblobs & Htree & Hcommit & _ & _).
  apply call_PatchRef_return in Ec as ->. split; [reflexivity|].
  intros f Hf. apply list_elem_of_lookup in Hf as [i Hi].
  destruct (Hblobs i f Hi) as (b & Hbl & Hblob). exists b.
  eapply file_at_committed; cbn [commits trees blobs];
    [exact Hcommit | exact Htree | now rewrite Hfst
    | apply list_elem_of_lookup; now exists i | exact Hblob].
Qed.

End Routes.

Lemma batch_request_sequence_witness :
  length (log (snd (post_batch example_config example_user example_files None
                      (World example_store [] []))))
  = 7.
Proof.
  destruct (batch_request_sequence example_config example_user example_files None
              (World example_store [] []) 4)
    as (tip & bl & tree_id & reports & _ & _ & _ & Hlen & _).
  - reflexivity.
  - exact Hlen.
Defined.

Lemma batch_keeps_other_files_witness :
  file_at (remote (snd (post_batch example_config example_user example_files None
                          (World example_site [] []))))
          5 "data/about.json"
  = Some (2, "{}").
Proof.
  rewrite (batch_keeps_other_files example_config example_user example_files None
             (World example_site [] []) 5 "data/about.json").
  - reflexivity.
  - intros id Hid. apply lookup_singleton_ne. cbn in Hid. lia.
  - intros t entries p b Ht He. cbn in Ht.
    apply lookup_singleton_Some in Ht as [_ <-].
    apply lookup_singleton_Some in He as [_ <-]. now eexists.
  - reflexivity.
  - intros H. apply list_elem_of_singleton in H. discriminate H.
Defined.

Lemma batch_then_read_witness :
  exists b,
    fst (get_file example_reader example_user "locations.json"
           (World (remote (snd (post_batch example_reader example_user example_files None
                                  (World example_store [] []))))
                  [] []))
    = Return (Response 200 (FileBody (Some b) (JArr [JNull]) false)).
Proof.
  destruct (batch_then_read example_reader example_user example_files None
              (World example_store [] []) 4
              (FileEntry "data/locations.json" (JArr [JNull])) "locations.json" [] [])
    as [b Hb].
  - reflexivity.
  - repeat constructor. apply not_elem_of_nil.
  - now left.
  - reflexivity.
  - discriminate.
  - reflexivity.
  - reflexivity.
  - now left.
  - exists b. now rewrite Hb.
Defined.

Lemma batch_gate_witness :
  post_batch example_config example_user [] None (World example_store [] [])
  = (Return (Response 400 (ErrorBody "No files provided" None)), World example_store [] []).
Proof.
  destruct (batch_gate example_config example_user [] None (World example_store [] []))
    as (_ & H & _).
  now apply H.
Defined.

Lemma file_route_serves_witness :
  get_file example_reader example_user "about.json" (World example_site [] [])
  = (Return (Response 200 (FileBody (Some 2) (JObj []) false)),
     World example_site [] [GetContents "data/about.json"]).
Proof.
  apply (file_route_serves example_reader example_user "about.json" example_site [] []
           2 "{}" (JObj [])).
  - reflexivity.
  - discriminate.
  - reflexivity.
  - now left.
  - reflexivity.
  - reflexivity.
Defined.

Lemma file_route_failures_witness :
  fst (get_file example_config example_user "about.json"
         (World example_site [HttpError 503] []))
  = Return (Response 503 (ErrorBody "Failed to fetch file" (Some (Http 503)))).
Proof.
  destruct (file_route_failures example_config example_user "about.json" example_site
              [HttpError 503] [])
    as (_ & _ & H & _).
  - reflexivity.
  - discriminate.
  - reflexivity.
  - apply (H 503 []); [reflexivity | discriminate | discriminate].
Defined.

Lemma legacy_about_route_witness :
  get_about example_reader example_user (World example_site [] [])
  = get_file example_reader example_user "about.json" (World example_site [] []).
Proof.
  destruct (legacy_about_route example_reader example_user (World example_site [] []))
    as (H & _).
  - reflexivity.
  - apply (H 2 (JObj [])). reflexivity.
Defined.

Lemma rejected_update_leaves_commit_witness :
  exists sha tree_id message,
    fst (post_batch example_config example_user example_files None
           (World example_store
                  [Healthy; Healthy; HttpError 500; Healthy; Healthy; Healthy; HttpError 422]
                  []))
    = Return (Response 422 (ErrorBody "Batch update failed" (Some (Http 422))))
    /\ commits (remote (snd (post_batch example_config example_user example_files None
           (World example_store
                  [Healthy; Healthy; HttpError 500; Healthy; Healthy; Healthy; HttpError 422]
                  [])))) !! sha
       = Some (Commit tree_id [0] message).
Proof.
  destruct (rejected_update_leaves_commit example_config example_user example_files None
              example_store [HttpError 500] (HttpError 422) [] [] (Commit 1 [] "init") ∅
              ["  - locations.json: 0 → 1 entries"; "    • Added 1 new entry"])
    as (sha & tree_id & Hr & _ & Hc & _).
  - reflexivity.
  - discriminate.
  - reflexivity.
  - reflexivity.
  - reflexivity.
  - reflexivity.
  - discriminate.
  - exists sha, tree_id. eexists. split; [exact Hr | exact Hc].
Defined.

Lemma routes_agree_on_default_witness :
  default_old "data/live.json" = defaultContent "live.json".
Proof.
  destruct (routes_agree_on_default example_config example_user "data" "live.json" JNull
              (World example_store [] []))
    as [H _].
  - reflexivity.
  - exact H.
Defined.

(* ================================================================== *)
(** * Further properties of the change report *)

Section ReportLines.

(** A count is read back from its decimal text. *)
Lemma dec_inj (n m : nat) : dec n = dec m -> n = m.
Proof.
  unfold dec. intros H.
  apply (f_equal NilEmpty.uint_of_string) in H. rewrite !NilEmpty.usu in H.
  injection H as H. apply (f_equal Nat.of_uint) in H.
  now rewrite !Unsigned.of_to in H.
Qed.

Lemma filter_imap_length {A} (P : nat -> A -> Prop) (Q : nat -> Prop)
    `{forall p : nat * A, Decision (P (fst p) (snd p))} `{forall i, Decision (Q i)}
    (l : list A) : forall n,
  (forall j x, l !! j = Some x -> (P (n + j) x <-> Q (n + j))) ->
  length (filter (fun p : nat * A => P (fst p) (snd p)) (imap (fun i x => (n + i, x)) l))
  = length (filter Q (seq n (length l))).
Proof.
  induction l as [|x l IH]; intros n Hpq; [reflexivity|].
  cbn [imap length seq].
  assert (Hrest : length (filter (fun p : nat * A => P (fst p) (snd p))
                            (imap ((fun i y => (n + i, y)) ∘ S) l))
                  = length (filter Q (seq (S n) (length l)))).
  { rewrite <- (IH (S n)).
    - f_equal. f_equal. apply imap_ext. intros i y _. cbn. f_equal. lia.
    - intros j y Hy. replace (S n + j) with (n + S j) by lia. now apply Hpq. }
  specialize (Hpq 0 x eq_refl). rewrite Nat.add_0_r in Hpq.
  rewrite !filter_cons. cbn [fst snd]. rewrite Nat.add_0_r.
  repeat case_decide; cbn [length]; rewrite ?Hrest; tauto || reflexivity.
Qed.

(** The sections the code counts as modified are those that differ from the
    section at the same index once both are read back from their JSON
    texts. *)
Lemma modified_sections_count (s1 s2 : list value) :
  Forall (fun v => json_value v = true) s1 ->
  Forall (fun v => json_value v = true) s2 ->
  exists l, modified_sections (JArr s1) (JArr s2) = Return l
            /\ length l
               = length (filter (fun i => reread <$> s1 !! i <> reread <$> s2 !! i)
                                (seq 0 (length s1))).
Proof.
  intros W1 W2. unfold modified_sections. eexists. split; [reflexivity|].
  rewrite length_map.
  apply (filter_imap_length
           (fun i x => text_neq (JSON_stringify (Some x))
                                (JSON_stringify (get_index (JArr s2) i)) = true)
           (fun i => reread <$> s1 !! i <> reread <$> s2 !! i) s1 0).
  intros j x Hx. cbn [Nat.add get_index]. rewrite <- Hx.
  apply text_neq_reread; intros v Hv.
  - exact (proj1 (Forall_lookup _ _) W1 j v Hv).
  - exact (proj1 (Forall_lookup _ _) W2 j v Hv).
Qed.

(** X11. The report of a document against a document (objects with a title
    string and a sections list, whatever else they hold) is one line.  It
    lists [title] when the two titles differ, then either the two section
    counts when they differ or, when they are equal, the number of sections
    whose JSON text differs from that of the section at the same index:
    a section counts as unchanged only when it is the same value with the
    same properties in the same order (the same keys in another order count
    as a modification; a number that is not finite counts as [null]).  When
    there is nothing to list the line is 'No changes detected'.  Properties
    other than the title and the sections play no part. *)
Theorem document_change_report (old new : list (string * value)) (t1 t2 : string)
    (s1 s2 : list value) (p : string) :
  own "title" old = Some (JStr t1) -> own "sections" old = Some (JArr s1) ->
  own "title" new = Some (JStr t2) -> own "sections" new = Some (JArr s2) ->
  Forall (fun v => json_value v = true) s1 ->
  Forall (fun v => json_value v = true) s2 ->
  let k := length (filter (fun i => reread <$> s1 !! i <> reread <$> s2 !! i)
                          (seq 0 (length s1))) in
  let changes :=
    (if String.eqb t1 t2 then [] else ["title"])
    ++ (if (length s1 =? length s2)%nat then
          if (k =? 0)%nat then []
          else [dec k +:+ " modified " +:+ plural k "section" "sections"]
        else [dec (length s1) +:+ " → " +:+ dec (length s2) +:+ " sections"]) in
  generateChangeReport (JObj old) (JObj new) p
  = Return [match changes with
            | [] => no_changes_line p
            | _ => "  - " +:+ pop (split "/" p) +:+ ": " +:+ join ", " changes
            end].
Proof.
  intros Ht1 Hs1 Ht2 Hs2 W1 W2 k changes.
  unfold generateChangeReport, object_report.
  cbn [isArray typeof_object andb get_prop mbind outcome_bind obind].
  rewrite Ht1, Hs1, Ht2, Hs2. cbn [js_or truthy].
  assert (Ht : forall t, (if negb (String.eqb t EmptyString) then JStr t else JStr EmptyString)
                         = JStr t).
  { intros t. destruct (String.eqb_spec t EmptyString) as [->|_]; reflexivity. }
  rewrite !Ht. cbn [get_prop mbind outcome_bind obind strict_neq].
  rewrite String.eqb_refl.
  destruct (modified_sections_count s1 s2 W1 W2) as (l & Hl & Hk). fold k in Hk.
  subst changes.
  change (strict_neq (Some (JNum (dec (length s1)))) (Some (JNum (dec (length s2)))))
    with (negb (String.eqb (dec (length s1)) (dec (length s2)))).
  destruct (Nat.eqb_spec (length s1) (length s2)) as [Hlen|Hlen].
  - rewrite Hlen, String.eqb_refl. cbn [negb]. rewrite Hl.
    cbn [mbind outcome_bind obind]. rewrite Hk.
    destruct (Nat.eqb_spec k 0) as [->|Hk0].
    + destruct (String.eqb t1 t2); reflexivity.
    + replace (0 <? k)%nat with true by (symmetry; apply Nat.ltb_lt; lia).
      destruct (String.eqb t1 t2); reflexivity.
  - replace (String.eqb (dec (length s1)) (dec (length s2))) with false
      by (symmetry; apply String.eqb_neq; intros E; now apply dec_inj in E).
    destruct (String.eqb t1 t2); reflexivity.
Qed.

Lemma object_report_line (fileName : string) (oldContent newContent : value)
    (lines : list string) :
  object_report fileName oldContent newContent = Return lines ->
  exists summary, lines = ["  - " +:+ fileName +:+ ": " +:+ summary].
Proof.
  unfold object_report, mbind, outcome_bind, obind.
  repeat match goal with
         | |- context [match ?m with Return _ => _ | Throw _ => _ end] =>
             destruct m; try discriminate
         end;
    case_condition; intros H; injection H as <-; eauto.
Qed.

(** X12. Whatever the two contents, a report that is produced has one line
    or two.  The first line begins with the name of the file, the last
    segment of its path, after two spaces and a dash; a second line, which
    begins with a bullet, occurs only for two lists of different lengths. *)
Theorem report_lines (oldContent newContent : value) (p : string) (lines : list string) :
  generateChangeReport oldContent newContent p = Return lines ->
  exists summary,
    lines = ["  - " +:+ pop (split "/" p) +:+ ": " +:+ summary]
    \/ exists o n detail,
         oldContent = JArr o /\ newContent = JArr n /\ length o <> length n
         /\ lines = ["  - " +:+ pop (split "/" p) +:+ ": " +:+ summary;
                     "    • " +:+ detail].
Proof.
  unfold generateChangeReport. intros H.
  destruct (isArray oldContent && isArray newContent) eqn:Ea.
  - destruct oldContent as [| | | |o|], newContent as [| | | |n|]; try discriminate Ea.
    cbn [mbind outcome_bind obind] in H. injection H as <-.
    unfold array_report.
    destruct (Nat.eqb_spec (length o) (length n)) as [Hlen|Hlen]; cbn [negb].
    + destruct (0 <? count_modified o n)%nat; eexists; left; reflexivity.
    + destruct (length o <? length n)%nat; eexists; right; exists o, n; eexists;
        (split; [reflexivity|]; split; [reflexivity|]; split; [exact Hlen|]);
        reflexivity.
  - destruct (typeof_object oldContent && typeof_object newContent).
    + unfold mbind, outcome_bind, obind in H.
      destruct (object_report (pop (split "/" p)) oldContent newContent) as [r|e] eqn:Er;
        [|discriminate H].
      apply object_report_line in Er as [summary ->]. injection H as <-.
      exists summary. now left.
    + cbn in H. injection H as <-. exists "Updated". now left.
Qed.

End ReportLines.

Lemma document_change_report_witness :
  let heading := ("heading", JStr "When") in
  let text := ("content", JStr "Saturday") in
  generateChangeReport
    (JObj [("title", JStr "About"); ("sections", JArr [JStr "a"; JObj [heading; text]])])
    (JObj [("title", JStr "About"); ("sections", JArr [JStr "a"; JObj [text; heading]]);
           ("footer", JStr "new")])
    "data/about.json"
  = Return ["  - about.json: 1 modified section"].
Proof.
  intros heading text.
  rewrite (document_change_report
             [("title", JStr "About"); ("sections", JArr [JStr "a"; JObj [heading; text]])]
             [("title", JStr "About"); ("sections", JArr [JStr "a"; JObj [text; heading]]);
              ("footer", JStr "new")]
             "About" "About" [JStr "a"; JObj [heading; text]] [JStr "a"; JObj [text; heading]]
             "data/about.json").
  - reflexivity.
  - reflexivity.
  - reflexivity.
  - reflexivity.
  - reflexivity.
  - repeat constructor.
  - repeat constructor.
Defined.

Lemma report_lines_witness :
  exists summary,
    ["  - live.json: Updated"] = ["  - live.json: " +:+ summary]
    \/ exists o n detail,
         JNull = JArr o /\ JStr "x" = JArr n /\ length o <> length n
         /\ ["  - live.json: Updated"] = ["  - live.json: " +:+ summary; "    • " +:+ detail].
Proof.
  apply (report_lines JNull (JStr "x") "data/live.json" ["  - live.json: Updated"]).
  reflexivity.
Defined.

(* ================================================================== *)
(** * The users file and the admin routes *)

Section UsersFile.

(** The tag of a commit when no record has an anonymous hash. *)
Lemma no_hash_unknown (cfg : config) (session : option session_user) :
  (forall r, In r (loadUsersFile cfg) -> rec_anonHash r = None) ->
  actor_tag cfg session = "unknown".
Proof.
  intros H. unfold actor_tag, getUserRecord.
  destruct (find _ (loadUsersFile cfg)) as [r|] eqn:E; [|reflexivity].
  apply find_some in E as [Hin _]. cbn. now rewrite (H r Hin).
Qed.

Import Users.

(** ** Writing and reading back *)

Lemma text_field_kept (x : option value) :
  kept_field x = true -> text_field x = Return x.
Proof.
  destruct x as [[| | |s| |]|]; try discriminate; [|reflexivity].
  cbn. intros ->. reflexivity.
Qed.

Lemma normalize_entry_to_json (u : user) :
  kept u = true -> normalize_entry (to_json u) = Return u.
Proof.
  destruct u as [i r n d a h]. unfold kept. cbn [username discriminator avatar anonHash].
  intros H. apply andb_prop in H as [H Hh]. apply andb_prop in H as [H Ha].
  apply andb_prop in H as [Hn Hd].
  unfold normalize_entry, to_json.
  cbn [id role username discriminator avatar anonHash get_prop mbind outcome_bind obind].
  assert (Hr : role_of (Some (JStr (role_text r))) = r) by now destruct r.
  destruct n as [n|], d as [d|], a as [a|], h as [h|];
    cbn [field app own String.eqb Ascii.eqb Bool.eqb template to_string
         mbind outcome_bind obind];
    rewrite ?text_field_kept by assumption;
    cbn [text_field mbind outcome_bind obind]; rewrite Hr; reflexivity.
Qed.

Lemma map_throwing_to_json (users : list user) :
  Forall (fun u => kept u = true) users ->
  map_throwing normalize_entry (map to_json users) = Return users.
Proof.
  induction 1 as [|u users Hu _ IH]; [reflexivity|].
  cbn [map map_throwing mbind outcome_bind obind].
  now rewrite (normalize_entry_to_json u Hu), IH.
Qed.

Lemma normalize_to_json (users : list user) :
  Forall (fun u => kept u = true) users ->
  normalize (JArr (map to_json users)) = users.
Proof.
  intros Hk. destruct users as [|u users]; [reflexivity|].
  pose proof (map_throwing_to_json _ Hk) as H.
  cbn [map] in *.
  change (normalize (JArr (to_json u :: map to_json users)))
    with (match map_throwing normalize_entry (to_json u :: map to_json users) with
          | Return loaded => loaded
          | Throw _ => []
          end).
  now rewrite H.
Qed.

Lemma users_file_round_trip_lemma (users : list user) (d : disk) :
  writable d = true ->
  Forall (fun u => kept u = true) users ->
  fst (saveUsersFile users d) = true
  /\ loadUsersFile (snd (saveUsersFile users d)) = (users, snd (saveUsersFile users d)).
Proof.
  intros Hw Hk. unfold saveUsersFile. rewrite Hw. cbn [fst snd].
  split; [reflexivity|]. unfold loadUsersFile. cbn [users_json].
  now rewrite normalize_to_json.
Qed.

(** X13. What is saved is what is read back: when the file can be written,
    [saveUsersFile] succeeds, and a user list whose profile properties are
    each missing or a non-empty string is returned unchanged by the next
    [loadUsersFile], which leaves the file alone. *)
Theorem users_file_round_trip (users : list user) (d : disk) :
  writable d = true ->
  Forall (fun u => kept u = true) users ->
  fst (saveUsersFile users d) = true
  /\ loadUsersFile (snd (saveUsersFile users d)) = (users, snd (saveUsersFile users d)).
Proof.
  intros Hw Hk. unfold saveUsersFile. rewrite Hw. cbn [fst snd].
  split; [reflexivity|]. unfold loadUsersFile. cbn [users_json].
  now rewrite normalize_to_json.
Qed.

(** ** Files in bad shape *)

Lemma map_throwing_null (items : list value) :
  JNull ∈ items -> exists e, map_throwing normalize_entry items = Throw e.
Proof.
  induction items as [|x items IH]; intros Hin; [now apply elem_of_nil in Hin|].
  apply elem_of_cons in Hin as [<-|Hin]; [now exists TypeError|].
  destruct (IH Hin) as [e He]. cbn [map_throwing mbind outcome_bind obind].
  destruct (normalize_entry x) as [y|e']; [|now exists e'].
  rewrite He. now exists e.
Qed.

Lemma map_throwing_strings (ids : list string) :
  map_throwing legacy_entry (map JStr ids)
  = Return (map (fun s => User s editor None None None None) ids).
Proof.
  induction ids as [|s ids IH]; [reflexivity|].
  cbn [map map_throwing mbind outcome_bind obind legacy_entry to_string].
  now rewrite IH.
Qed.

Lemma loadUsersFile_again (d : disk) :
  fst (loadUsersFile (snd (loadUsersFile d))) = fst (loadUsersFile d).
Proof.
  unfold loadUsersFile. destruct d as [[| |parsed] []]; reflexivity.
Qed.

(** X14. [loadUsersFile] on files in bad shape.  A missing or unreadable
    file, and a document that is not an array, give no users.  So does an
    array of objects with a [null] anywhere in it: one bad entry empties the
    whole list.  An array of strings, the older format, gives one editor per
    string.  Loading never changes a file that exists, and loading again
    gives the same users. *)
Theorem users_file_edge_cases :
  (forall d, users_json d = Missing \/ users_json d = Unreadable ->
     fst (loadUsersFile d) = [])
  /\ (forall parsed, isArray parsed = false -> normalize parsed = [])
  /\ (forall items, JNull ∈ items -> (forall s, head items <> Some (JStr s)) ->
        normalize (JArr items) = [])
  /\ (forall ids, normalize (JArr (map JStr ids))
                  = map (fun s => User s editor None None None None) ids)
  /\ (forall d, users_json d <> Missing -> snd (loadUsersFile d) = d)
  /\ (forall d, fst (loadUsersFile (snd (loadUsersFile d))) = fst (loadUsersFile d)).
Proof.
  split; [|split; [|split; [|split; [|split]]]].
  - intros d [H|H]; unfold loadUsersFile; now rewrite H.
  - intros [| | | |items|props] H; try reflexivity. discriminate H.
  - intros items Hin Hhead. destruct (map_throwing_null items Hin) as [e He].
    destruct items as [|x items]; [reflexivity|].
    unfold normalize. rewrite He.
    destruct x; try reflexivity. now elim (Hhead s).
  - intros [|s ids]; [reflexivity|].
    pose proof (map_throwing_strings (s :: ids)) as H. cbn [map] in *.
    unfold normalize. now rewrite H.
  - intros d H. unfold loadUsersFile. destruct (users_json d); [now elim H | reflexivity..].
  - apply loadUsersFile_again.
Qed.

(** ** The gate of the admin routes *)

Lemma loadUsersFile_settled (d : disk) :
  loadUsersFile (snd (loadUsersFile d)) = (fst (loadUsersFile d), snd (loadUsersFile d)).
Proof. unfold loadUsersFile. destruct d as [[| |parsed] []]; reflexivity. Qed.

(** The disk a handler behind the gate starts from. *)
Lemma gate_run (dev : bool) (user : option session_user) (next : route) (d : disk) :
  requireAuth dev user (requireAdmin dev user next) d
  = if passes_admin dev user d then next (if dev then d else snd (loadUsersFile d))
    else match user with
         | None => (Return (Error 401 "Unauthorized"), d)
         | Some _ => (Return (Error 403 "Forbidden"), snd (loadUsersFile d))
         end.
Proof.
  unfold requireAuth, requireAdmin, passes_admin, getUserRecord.
  destruct dev; [reflexivity|]. destruct user as [u|]; [|reflexivity].
  cbn [isAuthenticated orb fst snd].
  destruct (find _ (fst (loadUsersFile d))) as [r|]; [|reflexivity].
  destruct (is_admin (role r)); reflexivity.
Qed.

(** X15. The admin routes serve admins only.  Outside the development
    bypass, a request whose session user has no record with the admin role in
    the users file is answered 401 (no session) or 403 by each of the four
    admin routes, and the users a later load returns are those of before. *)
Theorem admin_routes_refuse (user : option session_user) (body_id body_role : option value)
    (param_id : string) (d : disk) (r : route) :
  In r [get_users false user; post_user false user body_id body_role;
        put_user false user param_id body_role; delete_user false user param_id] ->
  passes_admin false user d = false ->
  (fst (r d) = Return (Error 401 "Unauthorized") \/ fst (r d) = Return (Error 403 "Forbidden"))
  /\ (user = None -> r d = (Return (Error 401 "Unauthorized"), d))
  /\ fst (loadUsersFile (snd (r d))) = fst (loadUsersFile d).
Proof.
  intros Hr Hp.
  assert (E : r d = match user with
                    | None => (Return (Error 401 "Unauthorized"), d)
                    | Some _ => (Return (Error 403 "Forbidden"), snd (loadUsersFile d))
                    end).
  { cbn [In] in Hr. destruct Hr as [<-|[<-|[<-|[<-|[]]]]];
      unfold get_users, post_user, put_user, delete_user; now rewrite gate_run, Hp. }
  rewrite E. destruct user as [u|]; cbn [fst snd].
  - split; [now right|]. split; [discriminate|]. apply loadUsersFile_again.
  - split; [now left|]. split; reflexivity.
Qed.

(** ** Adding a user *)

Lemma load_behind_gate (dev : bool) (d : disk) :
  loadUsersFile (if dev then d else snd (loadUsersFile d))
  = (fst (loadUsersFile d), snd (loadUsersFile d)).
Proof.
  destruct dev; [now destruct (loadUsersFile d) | apply loadUsersFile_settled].
Qed.

Lemma loadUsersFile_writable (d : disk) : writable (snd (loadUsersFile d)) = writable d.
Proof. unfold loadUsersFile. destruct d as [[| |parsed] []]; reflexivity. Qed.

Lemma id_and_role_kept (users : list user) :
  Forall (fun u => kept u = true) (map id_and_role users).
Proof. apply Forall_forall. intros u Hu. apply list_elem_of_fmap in Hu as (v & -> & _). reflexivity. Qed.

Lemma id_and_role_ids (users : list user) : map id (map id_and_role users) = map id users.
Proof. rewrite map_map. reflexivity. Qed.

Lemma existsb_id (userId : string) (users : list user) :
  existsb (fun u => String.eqb (id u) userId) users = true <-> userId ∈ map id users.
Proof.
  rewrite existsb_exists. split.
  - intros (u & Hu & He). apply String.eqb_eq in He as <-.
    apply list_elem_of_fmap. exists u. split; [reflexivity | now apply list_elem_of_In].
  - intros H. apply list_elem_of_fmap in H as (u & -> & Hu).
    exists u. split; [now apply list_elem_of_In | apply String.eqb_refl].
Qed.

(** The first user with a given id, when no id is ['[object Object]']. *)
Lemma find_by_id (userId : string) (users : list user) (u : user) :
  userId <> "[object Object]" ->
  find (fun v => String.eqb (id v) userId || String.eqb "[object Object]" userId) users
  = find (fun v => String.eqb (id v) userId) users.
Proof.
  intros Hq. apply String.eqb_neq in Hq. rewrite String.eqb_sym in Hq.
  induction users as [|v users IH]; [reflexivity|]. cbn [find].
  rewrite Hq in *. rewrite orb_false_r.
  destruct (String.eqb (id v) userId); [reflexivity | exact IH].
Qed.

Lemma find_absent (userId : string) (users : list user) :
  userId ∉ map id users -> find (fun v => String.eqb (id v) userId) users = None.
Proof.
  induction users as [|v users IH]; [reflexivity|]. cbn [map find]. intros H.
  apply not_elem_of_cons in H as [Hv H].
  destruct (String.eqb_spec (id v) userId) as [E|_]; [now elim Hv | now apply IH].
Qed.

Lemma find_app_absent (userId : string) (users : list user) (u : user) :
  userId ∉ map id users -> id u = userId ->
  find (fun v => String.eqb (id v) userId) (users ++ [u]) = Some u.
Proof.
  induction users as [|v users IH]; cbn [map app find]; intros H E.
  - now rewrite E, String.eqb_refl.
  - apply not_elem_of_cons in H as [Hv H].
    destruct (String.eqb_spec (id v) userId) as [E'|_]; [now elim Hv | now apply IH].
Qed.

(** X16. Adding a user, for an admin request and a file that can be written.
    The id is the text of the body's [id], trimmed.  An empty id is refused
    (400) and an id already in the file is refused (409), the users staying
    as they are.  Otherwise the answer is ok and the file then holds the
    former users, reduced to id and role, followed by the new user with the
    requested role (editor unless ['admin']); ids that were distinct stay
    distinct, and the new user is found by [getUserRecord]. *)
Theorem post_user_adds (dev : bool) (user : option session_user)
    (body_id body_role : option value) (d : disk) (text : string) :
  passes_admin dev user d = true -> writable d = true ->
  to_string (js_or body_id (JStr EmptyString)) = Return text ->
  let userId := trim text in
  let loaded := fst (loadUsersFile d) in
  let out := post_user dev user body_id body_role d in
  let new := User userId (role_of body_role) None None None None in
  (userId = EmptyString -> fst out = Return (Error 400 "Missing id"))
  /\ (userId <> EmptyString -> userId ∈ map id loaded ->
      fst out = Return (Error 409 "User already exists")
      /\ fst (loadUsersFile (snd out)) = loaded)
  /\ (userId <> EmptyString -> userId ∉ map id loaded ->
      fst out = Return Ok
      /\ fst (loadUsersFile (snd out)) = map id_and_role loaded ++ [new]
      /\ (NoDup (map id loaded) -> NoDup (map id (fst (loadUsersFile (snd out)))))
      /\ (userId <> "[object Object]" -> fst (getUserRecord userId (snd out)) = Some new)).
Proof.
  intros Hp Hw Ht userId loaded out new. subst out.
  unfold post_user. rewrite gate_run, Hp, Ht. fold userId.
  rewrite load_behind_gate. fold loaded.
  split; [|split].
  - intros ->. reflexivity.
  - intros Hne Hin.
    destruct (String.eqb_spec userId EmptyString) as [E|_]; [now elim Hne|].
    rewrite <- id_and_role_ids in Hin.
    apply existsb_id in Hin. rewrite Hin. cbn [fst snd].
    split; [reflexivity | apply loadUsersFile_again].
  - intros Hne Hnin.
    destruct (String.eqb_spec userId EmptyString) as [E|_]; [now elim Hne|].
    destruct (existsb _ (map id_and_role loaded)) eqn:Ee.
    { apply existsb_id in Ee. rewrite id_and_role_ids in Ee. now elim Hnin. }
    fold new.
    assert (Hk : Forall (fun u => kept u = true) (map id_and_role loaded ++ [new])).
    { apply Forall_app. split; [apply id_and_role_kept | now repeat constructor]. }
    destruct (users_file_round_trip_lemma (map id_and_role loaded ++ [new])
                (snd (loadUsersFile d))) as [Hs Hl];
      [now rewrite loadUsersFile_writable | exact Hk |].
    destruct (saveUsersFile (map id_and_role loaded ++ [new]) (snd (loadUsersFile d)))
      as [saved d2]. cbn [fst snd] in Hs, Hl. subst saved. cbn [fst snd].
    rewrite Hl. cbn [fst].
    split; [reflexivity|]. split; [reflexivity|]. split.
    + intros Hnd. rewrite map_app, id_and_role_ids. cbn [map id].
      apply NoDup_app. split; [exact Hnd|]. split.
      * intros x Hx Hx'. apply list_elem_of_singleton in Hx'. now subst x.
      * apply NoDup_singleton.
    + intros Hq. unfold getUserRecord. rewrite Hl. cbn [fst].
      rewrite (find_by_id _ _ new Hq).
      apply find_app_absent; [now rewrite id_and_role_ids | reflexivity].
Qed.

(** ** What an admin write keeps of a user *)

Lemma bare_kept (u : user) : bare u -> kept u = true.
Proof.
  destruct u as [i r n d a h]. unfold bare, kept. cbn.
  now intros (-> & -> & -> & ->).
Qed.

Lemma id_and_role_bare (users : list user) : Forall bare (map id_and_role users).
Proof.
  apply Forall_forall. intros u Hu. apply list_elem_of_fmap in Hu as (v & -> & _).
  now repeat split.
Qed.

Lemma set_role_bare (userId : string) (userRole : role_t) (users : list user) :
  forall users', Forall bare users -> set_role userId userRole users = Some users' ->
                 Forall bare users'.
Proof.
  induction users as [|u users IH]; intros users' Hb H; [discriminate H|].
  cbn [set_role] in H. apply Forall_cons in Hb as [Hu Hb].
  destruct (String.eqb (id u) userId).
  - injection H as <-. constructor; [exact Hu | exact Hb].
  - destruct (set_role userId userRole users) as [l|]; [|discriminate H].
    injection H as <-. constructor; [exact Hu | now apply IH].
Qed.

Lemma ok_after_save (users : list user) (d1 : disk) :
  fst (let (saved, d2) := saveUsersFile users d1 in
       if saved then (Return Ok : outcome js_error answer, d2)
       else (Return (Error 500 "Failed to save users"), d2))
  = Return Ok ->
  Forall (fun u => kept u = true) users ->
  fst (loadUsersFile
         (snd (let (saved, d2) := saveUsersFile users d1 in
               if saved then (Return Ok : outcome js_error answer, d2)
               else (Return (Error 500 "Failed to save users"), d2))))
  = users.
Proof.
  unfold saveUsersFile. destruct (writable d1); cbn [fst snd]; [|discriminate].
  intros _ Hk. unfold loadUsersFile. cbn [users_json fst]. now apply normalize_to_json.
Qed.

(** X17. An admin write forgets the profiles.  After [POST], [PUT] or
    [DELETE] on the admin users route has answered ok, every user in the file
    is reduced to id and role: user name, discriminator, avatar and the
    anonymous hash are gone.  The batch route then tags the commits of
    every user with 'unknown'. *)
Theorem admin_writes_forget_profiles (dev : bool) (user : option session_user)
    (body_id body_role : option value) (param_id : string) (d : disk) (r : route) :
  In r [post_user dev user body_id body_role; put_user dev user param_id body_role;
        delete_user dev user param_id] ->
  fst (r d) = Return Ok ->
  (forall u, u ∈ fst (loadUsersFile (snd (r d))) ->
     username u = None /\ discriminator u = None /\ avatar u = None /\ anonHash u = None)
  /\ (forall parse dev' session,
        actor_tag (config_over parse dev' (snd (r d))) session = "unknown").
Proof.
  intros Hr Hok.
  assert (Hb : Forall bare (fst (loadUsersFile (snd (r d))))).
  { cbn [In] in Hr. destruct Hr as [<-|[<-|[<-|[]]]];
      revert Hok; unfold post_user, put_user, delete_user; rewrite gate_run;
      (destruct (passes_admin dev user d);
       [|destruct user; cbn [fst]; discriminate]).
    - destruct (to_string (js_or body_id (JStr EmptyString))) as [text|e];
        [|cbn [fst]; discriminate].
      destruct (String.eqb (trim text) EmptyString); [cbn [fst]; discriminate|].
      rewrite load_behind_gate.
      destruct (existsb _ (map id_and_role (fst (loadUsersFile d))));
        [cbn [fst]; discriminate|].
      intros Hok.
      assert (Hb : Forall bare (map id_and_role (fst (loadUsersFile d))
                                  ++ [User (trim text) (role_of body_role) None None None None])).
      { apply Forall_app. split; [apply id_and_role_bare | now repeat constructor]. }
      rewrite (ok_after_save _ _ Hok); [exact Hb|].
      eapply Forall_impl; [exact Hb | apply bare_kept].
    - rewrite load_behind_gate.
      destruct (set_role (trim param_id) (role_of body_role)
                  (map id_and_role (fst (loadUsersFile d)))) as [users|] eqn:Es;
        [|cbn [fst]; discriminate].
      intros Hok.
      pose proof (set_role_bare _ _ _ _ (id_and_role_bare _) Es) as Hb.
      rewrite (ok_after_save _ _ Hok); [exact Hb|].
      eapply Forall_impl; [exact Hb | apply bare_kept].
    - rewrite load_behind_gate.
      destruct (_ =? _)%nat; [cbn [fst]; discriminate|].
      intros Hok.
      assert (Hb : Forall bare
                     (List.filter (fun u => negb (String.eqb (id u) (trim param_id)))
                        (map id_and_role (fst (loadUsersFile d))))).
      { apply Forall_forall. intros u Hu. apply list_elem_of_In, filter_In in Hu as [Hu _].
        apply list_elem_of_In in Hu.
        exact (proj1 (Forall_forall _ _) (id_and_role_bare _) u Hu). }
      rewrite (ok_after_save _ _ Hok); [exact Hb|].
      eapply Forall_impl; [exact Hb | apply bare_kept]. }
  split.
  - intros u Hu. exact (proj1 (Forall_forall _ _) Hb u Hu).
  - intros parse dev' session. apply no_hash_unknown.
    intros rec Hin. unfold config_over in Hin. cbn in Hin.
    apply in_map_iff in Hin as (u & <- & Hu). apply list_elem_of_In in Hu.
    destruct (proj1 (Forall_forall _ _) Hb u Hu) as (_ & _ & _ & Hh).
    unfold record_of. cbn [rec_anonHash]. now rewrite Hh.
Qed.

(** ** Removing a user and changing a role *)

Lemma filter_other_ids (userId : string) (users : list user) :
  userId ∉ map id users ->
  List.filter (fun u => negb (String.eqb (id u) userId)) users = users.
Proof.
  induction users as [|u users IH]; [reflexivity|]. cbn [map List.filter]. intros H.
  apply not_elem_of_cons in H as [Hu H].
  destruct (String.eqb_spec (id u) userId) as [E|_]; [now elim Hu|].
  cbn [negb]. now rewrite IH.
Qed.

Lemma filter_removes_id (userId : string) (users : list user) :
  userId ∈ map id users ->
  length (List.filter (fun u => negb (String.eqb (id u) userId)) users) < length users.
Proof.
  induction users as [|u users IH]; cbn [map List.filter length]; intros H.
  - now apply elem_of_nil in H.
  - destruct (String.eqb_spec (id u) userId) as [E|Hne]; cbn [negb].
    + pose proof (List.filter_length_le (fun u => negb (String.eqb (id u) userId)) users).
      lia.
    + apply elem_of_cons in H as [E|H]; [now elim Hne|].
      cbn [length]. specialize (IH H). lia.
Qed.

Lemma filter_id_gone (userId : string) (users : list user) :
  userId ∉ map id (List.filter (fun u => negb (String.eqb (id u) userId)) users).
Proof.
  intros H. apply list_elem_of_fmap in H as (u & E & Hu).
  apply list_elem_of_In, filter_In in Hu as [_ Hu].
  rewrite E, String.eqb_refl in Hu. discriminate Hu.
Qed.

Lemma filter_bare_kept (userId : string) (users : list user) :
  Forall (fun u => kept u = true)
         (List.filter (fun u => negb (String.eqb (id u) userId)) (map id_and_role users)).
Proof.
  apply Forall_forall. intros u Hu. apply list_elem_of_In, filter_In in Hu as [Hu _].
  apply list_elem_of_In, list_elem_of_fmap in Hu as (v & -> & _). reflexivity.
Qed.

(** X18. Removing a user, for an admin request and a file that can be
    written.  The id is the route parameter, trimmed.  When no user has it
    the answer is 404 'Not found' and the users stay as they are.  Otherwise
    the answer is ok, the file then holds the other users, reduced to id and
    role, in their order, and the removed id is no longer allowed in. *)
Theorem delete_user_removes (dev : bool) (user : option session_user) (param_id : string)
    (d : disk) :
  passes_admin dev user d = true -> writable d = true ->
  let userId := trim param_id in
  let loaded := fst (loadUsersFile d) in
  let out := delete_user dev user param_id d in
  (userId ∉ map id loaded ->
   fst out = Return (Error 404 "Not found") /\ fst (loadUsersFile (snd out)) = loaded)
  /\ (userId ∈ map id loaded ->
      fst out = Return Ok
      /\ fst (loadUsersFile (snd out))
         = List.filter (fun u => negb (String.eqb (id u) userId)) (map id_and_role loaded)
      /\ (userId ∉ map id (fst (loadUsersFile (snd out))))
      /\ (userId <> "[object Object]" -> fst (isUserAllowed userId (snd out)) = false)).
Proof.
  intros Hp Hw userId loaded out. subst out.
  unfold delete_user. rewrite gate_run, Hp, load_behind_gate. fold userId loaded.
  split.
  - intros Hnin. rewrite filter_other_ids by now rewrite id_and_role_ids.
    rewrite Nat.eqb_refl. cbn [fst snd]. split; [reflexivity | apply loadUsersFile_again].
  - intros Hin.
    pose proof (filter_removes_id userId (map id_and_role loaded)
                  ltac:(now rewrite id_and_role_ids)) as Hlt.
    destruct (Nat.eqb_spec
                (length (List.filter (fun u => negb (String.eqb (id u) userId))
                           (map id_and_role loaded)))
                (length (map id_and_role loaded))) as [E|_]; [lia|].
    destruct (users_file_round_trip_lemma
                (List.filter (fun u => negb (String.eqb (id u) userId))
                   (map id_and_role loaded))
                (snd (loadUsersFile d))) as [Hs Hl];
      [now rewrite loadUsersFile_writable | apply filter_bare_kept |].
    destruct (saveUsersFile _ (snd (loadUsersFile d))) as [saved d2].
    cbn [fst snd] in Hs, Hl. subst saved. cbn [fst snd].
    rewrite Hl. cbn [fst].
    split; [reflexivity|]. split; [reflexivity|]. split; [apply filter_id_gone|].
    intros Hq. unfold isUserAllowed, getUserRecord. rewrite Hl. cbn [fst].
    rewrite (find_by_id _ _ (User userId editor None None None None) Hq).
    now rewrite (find_absent _ _ (filter_id_gone userId (map id_and_role loaded))).
Qed.

Lemma map_other_ids (userId : string) (f : user -> user) (users : list user) :
  userId ∉ map id users ->
  map (fun u => if String.eqb (id u) userId then f u else u) users = users.
Proof.
  induction users as [|u users IH]; [reflexivity|]. cbn [map]. intros H.
  apply not_elem_of_cons in H as [Hu H].
  destruct (String.eqb_spec (id u) userId) as [E|_]; [now elim Hu|].
  now rewrite IH.
Qed.

Lemma set_role_absent (userId : string) (userRole : role_t) (users : list user) :
  userId ∉ map id users -> set_role userId userRole users = None.
Proof.
  induction users as [|u users IH]; [reflexivity|]. cbn [map set_role]. intros H.
  apply not_elem_of_cons in H as [Hu H].
  destruct (String.eqb_spec (id u) userId) as [E|_]; [now elim Hu|].
  now rewrite IH.
Qed.

Lemma set_role_present (userId : string) (userRole : role_t) (users : list user) :
  userId ∈ map id users -> exists users', set_role userId userRole users = Some users'.
Proof.
  induction users as [|u users IH]; cbn [map set_role]; intros H.
  - now apply elem_of_nil in H.
  - destruct (String.eqb_spec (id u) userId) as [E|Hne]; [eauto|].
    apply elem_of_cons in H as [E|H]; [now elim Hne|].
    destruct (IH H) as [l ->]. cbn. eauto.
Qed.

Lemma set_role_map (userId : string) (userRole : role_t) (users : list user) :
  NoDup (map id users) -> userId ∈ map id users ->
  set_role userId userRole users
  = Some (map (fun u => if String.eqb (id u) userId
                        then User (id u) userRole (username u) (discriminator u)
                                  (avatar u) (anonHash u)
                        else u) users).
Proof.
  induction users as [|u users IH]; cbn [map set_role]; intros Hnd H.
  - now apply elem_of_nil in H.
  - apply NoDup_cons in Hnd as [Hu Hnd].
    destruct (String.eqb_spec (id u) userId) as [E|Hne].
    + rewrite map_other_ids by now rewrite <- E. reflexivity.
    + apply elem_of_cons in H as [E|H]; [now elim Hne|].
      now rewrite (IH Hnd H).
Qed.

(** X19. Changing a role, for an admin request and a file that can be
    written.  When no user has the id (the route parameter, trimmed) the
    answer is 404 'Not found' and the users stay as they are.  Otherwise the
    answer is ok; with distinct ids in the file, the file then holds the same
    users in the same order, reduced to id and role, the user of that id with
    the requested role (editor unless ['admin']) and the others with the role
    they had. *)
Theorem put_user_sets_role (dev : bool) (user : option session_user) (param_id : string)
    (body_role : option value) (d : disk) :
  passes_admin dev user d = true -> writable d = true ->
  let userId := trim param_id in
  let loaded := fst (loadUsersFile d) in
  let out := put_user dev user param_id body_role d in
  (userId ∉ map id loaded ->
   fst out = Return (Error 404 "Not found") /\ fst (loadUsersFile (snd out)) = loaded)
  /\ (userId ∈ map id loaded ->
      fst out = Return Ok
      /\ (NoDup (map id loaded) ->
          fst (loadUsersFile (snd out))
          = map (fun u => User (id u)
                               (if String.eqb (id u) userId then role_of body_role
                                else role u)
                               None None None None) loaded)).
Proof.
  intros Hp Hw userId loaded out. subst out.
  unfold put_user. rewrite gate_run, Hp, load_behind_gate. fold userId loaded.
  split.
  - intros Hnin. rewrite set_role_absent by now rewrite id_and_role_ids.
    cbn [fst snd]. split; [reflexivity | apply loadUsersFile_again].
  - intros Hin.
    destruct (set_role_present userId (role_of body_role) (map id_and_role loaded)
                ltac:(now rewrite id_and_role_ids)) as [users Es].
    rewrite Es.
    pose proof (set_role_bare _ _ _ _ (id_and_role_bare loaded) Es) as Hb.
    destruct (users_file_round_trip_lemma users (snd (loadUsersFile d))) as [Hs Hl];
      [now rewrite loadUsersFile_writable
      | eapply Forall_impl; [exact Hb | apply bare_kept] |].
    destruct (saveUsersFile users (snd (loadUsersFile d))) as [saved d2].
    cbn [fst snd] in Hs, Hl. subst saved. cbn [fst snd].
    split; [reflexivity|]. intros Hnd. rewrite Hl. cbn [fst].
    rewrite set_role_map in Es by now rewrite id_and_role_ids.
    injection Es as <-. rewrite map_map. apply map_ext. intros u. cbn.
    destruct (String.eqb (id u) userId); reflexivity.
Qed.

(** ** Logging in *)

Lemma or_else_sent_kept (sent_value old : option value) :
  sent_field sent_value = true -> kept_field old = true ->
  kept_field (or_else sent_value old) = true.
Proof.
  destruct sent_value as [[| | |s| |]|]; try discriminate; intros _ Ho; cbn;
    try exact Ho.
  destruct (String.eqb s EmptyString) eqn:E; cbn; [exact Ho | now rewrite E].
Qed.

Lemma merged_kept (p : profile) (fresh : string) (u : user) :
  sent p = true -> fresh <> EmptyString -> kept u = true -> kept (merged p fresh u) = true.
Proof.
  unfold sent, kept, merged. cbn [username discriminator avatar anonHash].
  intros Hs Hf Hk.
  apply andb_prop in Hs as [Hs Ha]. apply andb_prop in Hs as [Hn Hd].
  apply andb_prop in Hk as [Hk Hh']. apply andb_prop in Hk as [Hk Ha'].
  apply andb_prop in Hk as [Hn' Hd'].
  rewrite !or_else_sent_kept by assumption. cbn [andb].
  destruct (anonHash u) as [[| | |s| |]|]; try discriminate Hh'; cbn.
  - pose proof Hh' as Hs. cbn in Hs. rewrite Hs. exact Hh'.
  - now apply negb_true_iff, String.eqb_neq.
Qed.

Lemma upsert_found_absent (p : profile) (fresh : string) (users : list user) :
  profile_id p ∉ map id users -> upsert_found p fresh users = None.
Proof.
  induction users as [|u users IH]; [reflexivity|]. cbn [map upsert_found]. intros H.
  apply not_elem_of_cons in H as [Hu H].
  destruct (String.eqb_spec (id u) (profile_id p)) as [E|_]; [now elim Hu|].
  now rewrite IH.
Qed.

Lemma upsert_found_map (p : profile) (fresh : string) (users : list user) :
  NoDup (map id users) -> profile_id p ∈ map id users ->
  upsert_found p fresh users
  = Some (map (fun u => if String.eqb (id u) (profile_id p) then merged p fresh u else u)
              users).
Proof.
  induction users as [|u users IH]; cbn [map upsert_found]; intros Hnd H.
  - now apply elem_of_nil in H.
  - apply NoDup_cons in Hnd as [Hu Hnd].
    destruct (String.eqb_spec (id u) (profile_id p)) as [E|Hne].
    + rewrite map_other_ids by now rewrite <- E. reflexivity.
    + apply elem_of_cons in H as [E|H]; [now elim Hne|].
      now rewrite (IH Hnd H).
Qed.

Lemma find_present (users : list user) (u : user) :
  NoDup (map id users) -> u ∈ users ->
  find (fun v => String.eqb (id v) (id u)) users = Some u.
Proof.
  induction users as [|v users IH]; cbn [map find]; intros Hnd H.
  - now apply elem_of_nil in H.
  - apply NoDup_cons in Hnd as [Hv Hnd].
    apply elem_of_cons in H as [->|H]; [now rewrite String.eqb_refl|].
    destruct (String.eqb_spec (id v) (id u)) as [E|_]; [|now apply IH].
    elim Hv. rewrite E. apply list_elem_of_fmap. now exists u.
Qed.

(** X20. Logging in keeps who a user is.  For a file that can be written,
    whose users have distinct ids and profile properties that are each
    missing or a non-empty string: the login of a profile whose id is not in
    the file is refused and changes nothing; the login of a user of the file
    is accepted with the admin mark of the role in the file, and the file then
    holds the same users in the same order, the others untouched, this one
    with the same role, with the anonymous hash it had, or a fresh one if it
    had none. *)
Theorem login_keeps_identity (p : profile) (fresh : string) (d : disk) :
  writable d = true ->
  Forall (fun u => kept u = true) (fst (loadUsersFile d)) ->
  NoDup (map id (fst (loadUsersFile d))) ->
  sent p = true -> fresh <> EmptyString -> profile_id p <> "[object Object]" ->
  let loaded := fst (loadUsersFile d) in
  let out := verify p fresh d in
  (profile_id p ∉ map id loaded -> out = (None, snd (loadUsersFile d)))
  /\ (forall u, u ∈ loaded -> id u = profile_id p ->
        fst out = Some (is_admin (role u))
        /\ fst (loadUsersFile (snd out))
           = map (fun v => if String.eqb (id v) (profile_id p) then merged p fresh v else v)
                 loaded
        /\ role (merged p fresh u) = role u
        /\ (anonHash u <> None -> anonHash (merged p fresh u) = anonHash u)
        /\ (anonHash u = None -> anonHash (merged p fresh u) = Some (JStr fresh))).
Proof.
  intros Hw Hk Hnd Hs Hf Hq loaded out. subst out.
  unfold verify, getUserRecord. fold loaded.
  rewrite (find_by_id _ _ (User EmptyString editor None None None None) Hq).
  split.
  - intros Hnin. now rewrite find_absent.
  - intros u Hu Hid. rewrite <- Hid, (find_present loaded u Hnd Hu). cbn [fst snd].
    split; [reflexivity|]. split; [|split; [reflexivity|split]].
    + unfold upsertUserProfile. rewrite loadUsersFile_settled. fold loaded.
      assert (Hin : profile_id p ∈ map id loaded).
      { rewrite <- Hid. apply list_elem_of_fmap. now exists u. }
      unfold upserted. rewrite (upsert_found_map p fresh loaded Hnd Hin).
      rewrite Hid.
      destruct (users_file_round_trip_lemma
                  (map (fun v => if String.eqb (id v) (profile_id p)
                                 then merged p fresh v else v) loaded)
                  (snd (loadUsersFile d))) as [_ Hl].
      * now rewrite loadUsersFile_writable.
      * apply Forall_forall. intros v Hv. apply list_elem_of_fmap in Hv as (x & -> & Hx).
        pose proof (proj1 (Forall_forall _ _) Hk x Hx) as Hkx.
        destruct (String.eqb (id x) (profile_id p)); [now apply merged_kept | exact Hkx].
      * now rewrite Hl.
    + intros Hh. pose proof (proj1 (Forall_forall _ _) Hk u Hu) as Hku.
      unfold kept in Hku. apply andb_prop in Hku as [_ Hku].
      unfold merged. cbn [anonHash].
      destruct (anonHash u) as [[| | |s| |]|]; try discriminate Hku; [|now elim Hh].
      cbn in *. now rewrite Hku.
    + intros Hh. unfold merged. cbn [anonHash]. now rewrite Hh.
Qed.

End UsersFile.

(** Membership in a list of literals. *)
Ltac in_literals :=
  repeat first [ apply list_elem_of_here | apply list_elem_of_further ].

Ltac not_in_literals :=
  let H := fresh in
  intros H;
  repeat (apply elem_of_cons in H as [H|H]; [discriminate H|]);
  now apply elem_of_nil in H.

Ltac distinct_literals :=
  repeat (apply NoDup_cons; split; [not_in_literals|]); apply NoDup_nil_2.

Lemma users_file_round_trip_witness :
  fst (Users.loadUsersFile
         (snd (Users.saveUsersFile Users.example_users (Users.Disk Users.Missing true))))
  = Users.example_users.
Proof.
  destruct (users_file_round_trip Users.example_users (Users.Disk Users.Missing true))
    as [_ H].
  - reflexivity.
  - repeat constructor.
  - now rewrite H.
Defined.

Lemma admin_routes_refuse_witness :
  fst (Users.delete_user false example_user "1" Users.example_disk)
  = Return (Users.Error 403 "Forbidden").
Proof.
  destruct (admin_routes_refuse example_user None None "1" Users.example_disk
              (Users.delete_user false example_user "1"))
    as ([H|H] & _ & _).
  - cbn [In]. auto.
  - reflexivity.
  - discriminate H.
  - exact H.
Defined.

Lemma post_user_adds_witness :
  fst (Users.post_user false Users.example_admin (Some (JStr " 77 ")) (Some (JStr "admin"))
         Users.example_disk)
  = Return Users.Ok
  /\ fst (Users.getUserRecord "77"
            (snd (Users.post_user false Users.example_admin (Some (JStr " 77 "))
                    (Some (JStr "admin")) Users.example_disk)))
     = Some (Users.User "77" Users.admin None None None None).
Proof.
  destruct (post_user_adds false Users.example_admin (Some (JStr " 77 "))
              (Some (JStr "admin")) Users.example_disk " 77 ")
    as (_ & _ & H).
  - reflexivity.
  - reflexivity.
  - reflexivity.
  - destruct H as (Hok & _ & _ & Hrec).
    + discriminate.
    + vm_compute. not_in_literals.
    + split; [exact Hok|]. apply Hrec. discriminate.
Defined.

Lemma admin_writes_forget_profiles_witness :
  actor_tag (Users.config_over (fun _ => None) false
               (snd (Users.put_user false Users.example_admin "42" (Some (JStr "admin"))
                       Users.example_disk)))
            example_user
  = "unknown".
Proof.
  destruct (admin_writes_forget_profiles false Users.example_admin None
              (Some (JStr "admin")) "42" Users.example_disk
              (Users.put_user false Users.example_admin "42" (Some (JStr "admin"))))
    as [_ H].
  - cbn [In]. auto.
  - reflexivity.
  - apply H.
Defined.

Lemma delete_user_removes_witness :
  fst (Users.loadUsersFile
         (snd (Users.delete_user false Users.example_admin "42" Users.example_disk)))
  = [Users.User "1" Users.admin None None None None].
Proof.
  destruct (delete_user_removes false Users.example_admin "42" Users.example_disk)
    as (_ & H).
  - reflexivity.
  - reflexivity.
  - destruct H as (_ & Hl & _).
    + vm_compute. in_literals.
    + rewrite Hl. reflexivity.
Defined.

Lemma put_user_sets_role_witness :
  fst (Users.loadUsersFile
         (snd (Users.put_user false Users.example_admin "42" (Some (JStr "admin"))
                 Users.example_disk)))
  = [Users.User "1" Users.admin None None None None;
     Users.User "42" Users.admin None None None None].
Proof.
  destruct (put_user_sets_role false Users.example_admin "42" (Some (JStr "admin"))
              Users.example_disk)
    as (_ & H).
  - reflexivity.
  - reflexivity.
  - destruct H as (_ & Hl).
    + vm_compute. in_literals.
    + rewrite Hl; [reflexivity|]. vm_compute. distinct_literals.
Defined.

Lemma login_keeps_identity_witness :
  let p := Users.Profile "42" (Some (JStr "bobby")) None (Some JNull) in
  fst (Users.verify p "0011223344556677" Users.example_disk) = Some false
  /\ Users.anonHash (Users.merged p "0011223344556677"
                       (Users.User "42" Users.editor (Some (JStr "bob")) None None
                          (Some (JStr "a1b2c3d4e5f60718"))))
     = Some (JStr "a1b2c3d4e5f60718").
Proof.
  intros p.
  destruct (login_keeps_identity p "0011223344556677" Users.example_disk) as (_ & H).
  - reflexivity.
  - vm_compute. repeat constructor.
  - vm_compute. distinct_literals.
  - reflexivity.
  - discriminate.
  - discriminate.
  - destruct (H (Users.User "42" Users.editor (Some (JStr "bob")) None None
                   (Some (JStr "a1b2c3d4e5f60718"))))
      as (Hv & _ & _ & Hh & _).
    + vm_compute. in_literals.
    + reflexivity.
    + split; [exact Hv|]. apply Hh. discriminate.
Defined.

(* ================================================================== *)
(** * The editors of the client *)

Section Times.

(** ** [uniqueTimes] *)

(** The keys seen after a pass are the keys of the entries passed. *)
Lemma unique_pass_snoc (times : list App.TimeEntry) (t : App.TimeEntry) :
  App.unique_pass (times ++ [t])
  = if decide (App.time_key t ∈ fst (App.unique_pass times)) then App.unique_pass times
    else ({[ App.time_key t ]} ∪ fst (App.unique_pass times),
          snd (App.unique_pass times) ++ [t]).
Proof. unfold App.unique_pass. now rewrite foldl_app. Qed.

Lemma pass_seen (times : list App.TimeEntry) (k : string) :
  k ∈ fst (App.unique_pass times) <-> k ∈ map App.time_key times.
Proof.
  induction times as [|t times IH] using rev_ind.
  - cbn. rewrite elem_of_nil. set_solver.
  - rewrite unique_pass_snoc, map_app. cbn [map].
    rewrite elem_of_app, list_elem_of_singleton.
    destruct (decide (App.time_key t ∈ fst (App.unique_pass times))) as [Hin|Hnin];
      cbn [fst].
    + rewrite IH. split; [now left|]. intros [H| ->]; [exact H | now apply IH].
    + rewrite elem_of_union, elem_of_singleton, IH. tauto.
Qed.

Lemma uniqueTimes_snoc (times : list App.TimeEntry) (t : App.TimeEntry) :
  App.uniqueTimes (times ++ [t])
  = if decide (App.time_key t ∈ map App.time_key times) then App.uniqueTimes times
    else App.uniqueTimes times ++ [t].
Proof.
  unfold App.uniqueTimes. rewrite unique_pass_snoc.
  destruct (decide (App.time_key t ∈ fst (App.unique_pass times))) as [Hin|Hnin];
    destruct (decide (App.time_key t ∈ map App.time_key times)) as [Hin'|Hnin'];
    try reflexivity.
  - now apply pass_seen in Hin.
  - now apply pass_seen in Hin'.
Qed.

Lemma uniqueTimes_keys (times : list App.TimeEntry) (k : string) :
  k ∈ map App.time_key (App.uniqueTimes times) <-> k ∈ map App.time_key times.
Proof.
  induction times as [|t times IH] using rev_ind; [reflexivity|].
  rewrite uniqueTimes_snoc, (map_app _ times). cbn [map].
  rewrite elem_of_app, list_elem_of_singleton.
  destruct (decide (App.time_key t ∈ map App.time_key times)) as [Hin|Hnin].
  - rewrite IH. split; [now left|]. intros [H| ->]; [exact H | exact Hin].
  - rewrite map_app. cbn [map]. rewrite elem_of_app, list_elem_of_singleton, IH.
    reflexivity.
Qed.

(** X21. [uniqueTimes] keeps the first entry of every key and nothing else:
    the keys of the result are distinct, the result is a sublist of the
    input (the entries kept stay in their order), and every key of the input
    is the key of an entry kept.  An entry is dropped exactly when its key,
    [locationId|datetime], occurred before it. *)
Theorem uniqueTimes_first_of_each_key (times : list App.TimeEntry) :
  NoDup (map App.time_key (App.uniqueTimes times))
  /\ sublist (App.uniqueTimes times) times
  /\ (forall t, t ∈ times ->
        App.time_key t ∈ map App.time_key (App.uniqueTimes times))
  /\ (forall t, App.uniqueTimes (times ++ [t])
                = if decide (App.time_key t ∈ map App.time_key times)
                  then App.uniqueTimes times
                  else App.uniqueTimes times ++ [t]).
Proof.
  split; [|split; [|split]].
  - induction times as [|t times IH] using rev_ind; [constructor|].
    rewrite uniqueTimes_snoc.
    destruct (decide (App.time_key t ∈ map App.time_key times)) as [Hin|Hnin];
      [exact IH|].
    rewrite map_app. apply NoDup_app. split; [exact IH|]. split.
    + intros k Hk Hk'. apply list_elem_of_singleton in Hk'. subst k.
      apply (proj1 (uniqueTimes_keys _ _)) in Hk. exact (Hnin Hk).
    + apply NoDup_singleton.
  - induction times as [|t times IH] using rev_ind; [constructor|].
    rewrite uniqueTimes_snoc.
    destruct (decide (App.time_key t ∈ map App.time_key times)) as [Hin|Hnin].
    + now apply sublist_inserts_r.
    + now apply sublist_app.
  - intros t Ht. apply uniqueTimes_keys, list_elem_of_fmap. now exists t.
  - apply uniqueTimes_snoc.
Qed.

(** X22. [uniqueTimes] changes nothing that needs no change: a list whose
    keys are distinct is returned as it is, and so applying [uniqueTimes] to
    its own result changes nothing. *)
Theorem uniqueTimes_fixed (times : list App.TimeEntry) :
  (NoDup (map App.time_key times) -> App.uniqueTimes times = times)
  /\ App.uniqueTimes (App.uniqueTimes times) = App.uniqueTimes times.
Proof.
  assert (Hfix : forall l, NoDup (map App.time_key l) -> App.uniqueTimes l = l).
  { intros l. induction l as [|t l IH] using rev_ind; [reflexivity|].
    rewrite map_app. intros Hnd. apply NoDup_app in Hnd as (Hl & Hdisj & _).
    rewrite uniqueTimes_snoc.
    destruct (decide (App.time_key t ∈ map App.time_key l)) as [Hin|Hnin].
    - elim (Hdisj _ Hin). now apply list_elem_of_singleton.
    - now rewrite (IH Hl). }
  split; [apply Hfix|].
  apply Hfix.
  induction times as [|t times IH] using rev_ind; [constructor|].
  rewrite uniqueTimes_snoc.
  destruct (decide (App.time_key t ∈ map App.time_key times)) as [Hin|Hnin];
    [exact IH|].
  rewrite map_app. apply NoDup_app. split; [exact IH|]. split.
  - intros k Hk Hk'. apply list_elem_of_singleton in Hk'. subst k.
    apply (proj1 (uniqueTimes_keys _ _)) in Hk. exact (Hnin Hk).
  - apply NoDup_singleton.
Qed.

(** The text before the first bar of a key, and the text after it. *)
Lemma bar_free_key (a1 a2 b1 b2 : string) :
  App.has_char "|" a1 = false -> App.has_char "|" a2 = false ->
  a1 +:+ "|" +:+ b1 = a2 +:+ "|" +:+ b2 -> a1 = a2 /\ b1 = b2.
Proof.
  revert a2. induction a1 as [|x a1 IH]; intros [|y a2] H1 H2 E; cbn in *.
  - injection E as E. now split.
  - injection E as Ey E. subst y. cbn in H2. discriminate H2.
  - injection E as Ex E. subst x. cbn in H1. discriminate H1.
  - injection E as <- E. apply orb_false_elim in H1 as [_ H1].
    apply orb_false_elim in H2 as [_ H2].
    destruct (IH a2 H1 H2 E) as [-> ->]. now split.
Qed.

(** X23. When no location id holds a bar, two entries have the same key
    only if they are the same entry, and [uniqueTimes] is exactly the removal
    of repeated entries: its result has no entry twice and holds the same
    entries as the input. *)
Theorem uniqueTimes_removes_repeats (times : list App.TimeEntry) :
  Forall (fun t => App.has_char "|" (App.locationId t) = false) times ->
  NoDup (App.uniqueTimes times)
  /\ (forall t, t ∈ App.uniqueTimes times <-> t ∈ times).
Proof.
  intros Hbar.
  assert (Hnd : NoDup (map App.time_key (App.uniqueTimes times))).
  { induction times as [|t l IH] using rev_ind; [constructor|].
    apply Forall_app in Hbar as [Hbar _].
    rewrite uniqueTimes_snoc.
    destruct (decide (App.time_key t ∈ map App.time_key l)) as [Hin|Hnin];
      [exact (IH Hbar)|].
    rewrite map_app. apply NoDup_app. split; [exact (IH Hbar)|]. split.
    - intros k Hk Hk'. apply list_elem_of_singleton in Hk'. subst k.
      apply (proj1 (uniqueTimes_keys _ _)) in Hk. exact (Hnin Hk).
    - apply NoDup_singleton. }
  assert (Hsub : sublist (App.uniqueTimes times) times).
  { clear. induction times as [|t times IH] using rev_ind; [constructor|].
    rewrite uniqueTimes_snoc.
    destruct (decide (App.time_key t ∈ map App.time_key times)) as [Hin|Hnin].
    - now apply sublist_inserts_r.
    - now apply sublist_app. }
  split; [exact (NoDup_fmap_1 _ _ Hnd)|].
  intros t. split; [intros Ht; exact (elem_of_sublist _ _ _ Ht Hsub)|].
  intros Ht.
  assert (Hk : App.time_key t ∈ map App.time_key (App.uniqueTimes times)).
  { apply uniqueTimes_keys, list_elem_of_fmap. now exists t. }
  apply list_elem_of_fmap in Hk as (t' & Hkey & Ht').
  pose proof (elem_of_sublist _ _ _ Ht' Hsub) as Hin'.
  rewrite Forall_forall in Hbar.
  destruct (bar_free_key _ _ _ _ (Hbar t Ht) (Hbar t' Hin') Hkey) as [Hl Hd].
  destruct t as [l d], t' as [l' d']. cbn in Hl, Hd. now subst.
Qed.

End Times.

Section Sections.

(** ** Objects with one property set *)

Lemma has_own (k : string) (props : list (string * value)) :
  App.has k props = true <-> exists v, own k props = Some v.
Proof.
  induction props as [|[k' v'] props IH]; cbn.
  - split; [discriminate | intros [v H]; discriminate H].
  - destruct (String.eqb k' k); cbn; [split; eauto | exact IH].
Qed.

Lemma own_map_set (k : string) (v : value) (props : list (string * value)) (k0 : string) :
  own k0 (map (fun kv => if String.eqb (fst kv) k then (k, v) else kv) props)
  = if String.eqb k k0 then (if App.has k props then Some v else None) else own k0 props.
Proof.
  induction props as [|[k' v'] props IH]; cbn [map own App.has existsb fst].
  - now destruct (String.eqb k k0).
  - fold (App.has k props).
    destruct (String.eqb_spec k' k) as [E|Hne]; cbn [own orb].
    + subst k'. destruct (String.eqb k k0); [reflexivity | exact IH].
    + rewrite IH. destruct (String.eqb_spec k k0) as [E0|Hne0]; [|reflexivity].
      subst k0. destruct (String.eqb_spec k' k) as [E|_]; [now elim Hne | reflexivity].
Qed.

Lemma own_app_absent (k0 : string) (props extra : list (string * value)) :
  own k0 (props ++ extra) = match own k0 props with Some v => Some v | None => own k0 extra end.
Proof.
  induction props as [|[k' v'] props IH]; cbn; [reflexivity|].
  destruct (String.eqb k' k0); [reflexivity | exact IH].
Qed.

Lemma own_insert_index (n : N) (k : string) (v : value) (props : list (string * value))
    (k0 : string) :
  own k props = None ->
  own k0 (App.insert_index n k v props) = if String.eqb k k0 then Some v else own k0 props.
Proof.
  induction props as [|[k' v'] props IH]; intros Ho; cbn [App.insert_index].
  - cbn. now destruct (String.eqb k k0).
  - cbn [own] in Ho. destruct (String.eqb_spec k' k) as [E|Hne]; [discriminate Ho|].
    destruct (App.array_index k') as [m|]; [|reflexivity].
    destruct (m <? n)%N; [|reflexivity].
    cbn [own]. rewrite (IH Ho).
    destruct (String.eqb_spec k' k0) as [E|_]; [|reflexivity].
    subst k0. destruct (String.eqb_spec k k') as [E|_]; [now elim Hne | reflexivity].
Qed.

(** Reading a property after one has been set. *)
Lemma own_set_prop (k : string) (v : value) (props : list (string * value)) (k0 : string) :
  own k0 (App.set_prop k v props) = if String.eqb k k0 then Some v else own k0 props.
Proof.
  unfold App.set_prop. destruct (App.has k props) eqn:Eh.
  - rewrite own_map_set, Eh. reflexivity.
  - assert (Ho : own k props = None).
    { destruct (own k props) as [x|] eqn:Eo; [|reflexivity].
      assert (App.has k props = true) by (apply has_own; eauto). congruence. }
    destruct (App.array_index k) as [n|].
    + now apply own_insert_index.
    + rewrite own_app_absent. cbn.
      destruct (String.eqb_spec k k0) as [<-|_]; [now rewrite Ho|].
      now destruct (own k0 props).
Qed.

Lemma has_set_prop (k : string) (v : value) (props : list (string * value)) (k0 : string) :
  App.has k0 (App.set_prop k v props) = String.eqb k k0 || App.has k0 props.
Proof.
  apply eq_true_iff_eq. rewrite orb_true_iff, !has_own, String.eqb_eq.
  setoid_rewrite own_set_prop.
  destruct (String.eqb_spec k k0) as [E|Hne]; split; eauto.
  - intros [E|H]; [now elim Hne | exact H].
Qed.

Lemma map_set_same (k : string) (v : value) (props : list (string * value)) :
  NoDup (map fst props) -> own k props = Some v ->
  map (fun kv => if String.eqb (fst kv) k then (k, v) else kv) props = props.
Proof.
  induction props as [|[k' v'] props IH]; cbn; [reflexivity|]. intros Hnd Ho.
  apply NoDup_cons in Hnd as [Hk Hnd].
  destruct (String.eqb_spec k' k) as [->|Hne].
  - injection Ho as ->. f_equal.
    clear IH Hnd. induction props as [|[k2 v2] props IH]; cbn; [reflexivity|].
    cbn in Hk. apply not_elem_of_cons in Hk as [Hk2 Hk].
    destruct (String.eqb_spec k2 k) as [E|_]; [now elim Hk2|]. now rewrite IH.
  - now rewrite IH.
Qed.

(** Setting a property to the value it has changes nothing. *)
Lemma set_prop_same (k : string) (v : value) (props : list (string * value)) :
  NoDup (map fst props) -> own k props = Some v -> App.set_prop k v props = props.
Proof.
  intros Hnd Ho. unfold App.set_prop.
  assert (App.has k props = true) as -> by (apply has_own; eauto).
  now apply map_set_same.
Qed.

Lemma map_set_twice (k : string) (v v' : value) (props : list (string * value)) :
  map (fun kv => if String.eqb (fst kv) k then (k, v) else kv)
      (map (fun kv => if String.eqb (fst kv) k then (k, v') else kv) props)
  = map (fun kv => if String.eqb (fst kv) k then (k, v) else kv) props.
Proof.
  rewrite map_map. apply map_ext. intros [k' x]. cbn.
  destruct (String.eqb_spec k' k) as [->|Hne]; cbn.
  - now rewrite String.eqb_refl.
  - destruct (String.eqb_spec k' k) as [E|_]; [now elim Hne | reflexivity].
Qed.

(** The last value set is the one that stays. *)
Lemma set_prop_twice (k : string) (v v' : value) (props : list (string * value)) :
  App.has k props = true ->
  App.set_prop k v (App.set_prop k v' props) = App.set_prop k v props.
Proof.
  intros Hh. unfold App.set_prop at 1. rewrite has_set_prop, String.eqb_refl. cbn [orb].
  unfold App.set_prop. rewrite Hh. apply map_set_twice.
Qed.

(** ** Lists with one element removed *)

Lemma remove_outside (index : nat) (xs : list value) : forall n,
  index < n \/ n + length xs <= index ->
  map snd (List.filter (fun p : nat * value => negb (fst p =? index)%nat)
                       (imap (fun i x => (n + i, x)) xs))
  = xs.
Proof.
  induction xs as [|x xs IH]; intros n Hout; [reflexivity|].
  cbn [imap List.filter fst length] in *. rewrite Nat.add_0_r.
  destruct (Nat.eqb_spec n index) as [E|_]; [lia|]. cbn [negb map snd]. f_equal.
  rewrite <- (IH (S n)) at 2 by lia.
  f_equal. f_equal. apply imap_ext. intros i y _. cbn. f_equal. lia.
Qed.

Lemma remove_last (xs : list value) (x : value) : forall n,
  map snd (List.filter (fun p : nat * value => negb (fst p =? n + length xs)%nat)
                       (imap (fun i y => (n + i, y)) (xs ++ [x])))
  = xs.
Proof.
  induction xs as [|y xs IH]; intros n.
  - cbn. rewrite !Nat.add_0_r, Nat.eqb_refl. reflexivity.
  - cbn [app imap List.filter fst length]. rewrite Nat.add_0_r.
    destruct (Nat.eqb_spec n (n + S (length xs))) as [E|_]; [lia|].
    cbn [negb map snd]. f_equal.
    rewrite <- (IH (S n)) at 2.
    replace (n + S (length xs)) with (S n + length xs) by lia.
    f_equal. f_equal. apply imap_ext. intros i z _. cbn. f_equal. lia.
Qed.

(** Removing at an index the list does not have changes nothing. *)
Lemma remove_at_outside (index : nat) (xs : list value) :
  length xs <= index -> App.remove_at index xs = xs.
Proof. intros H. apply (remove_outside index xs 0). right. exact H. Qed.

(** Removing the element that was appended gives the list back. *)
Lemma remove_at_appended (xs : list value) (x : value) :
  App.remove_at (length xs) (xs ++ [x]) = xs.
Proof. apply (remove_last xs x 0). Qed.

(** ** The section handlers *)

Lemma current_document_object (st : App.FileState) (props : list (string * value)) :
  App.content st = JObj props ->
  App.has "title" props = true -> App.has "sections" props = true ->
  App.current_document (Some st) = Return (Some props).
Proof.
  intros Hc Ht Hs. unfold App.current_document. rewrite Hc. cbn. now rewrite Ht, Hs.
Qed.

(** X24. Adding a section and removing it again gives the document back.
    For a selected file whose content is an object with distinct keys, a
    title and a sections list: [onAddSection] appends one empty section and
    leaves every other property, the [sha] and the other files as they are;
    [onRemoveSection] at the index of the appended section then restores the
    content exactly.  The file stays marked dirty.  Removing at an index the
    list does not have leaves the content as it is and still marks the file
    dirty. *)
Theorem add_then_remove_section (stateByFile : gmap string App.FileState)
    (selected : string) (st : App.FileState) (props : list (string * value))
    (sections : list value) :
  stateByFile !! selected = Some st ->
  App.content st = JObj props -> NoDup (map fst props) ->
  App.has "title" props = true -> own "sections" props = Some (JArr sections) ->
  let added := JObj (App.set_prop "sections" (JArr (sections ++ [App.empty_section])) props) in
  let dirty_with c := {| App.content := c; App.sha := App.sha st; App.dirty := true |} in
  App.onAddSection stateByFile selected
  = Return (<[selected := dirty_with added]> stateByFile)
  /\ App.onRemoveSection (<[selected := dirty_with added]> stateByFile) selected
       (length sections)
     = Return (<[selected := dirty_with (JObj props)]> stateByFile)
  /\ (forall index, length sections <= index ->
        App.onRemoveSection stateByFile selected index
        = Return (<[selected := dirty_with (JObj props)]> stateByFile)).
Proof.
  intros Hsel Hc Hnd Ht Ho added dirty_with.
  assert (Hs : App.has "sections" props = true) by (apply has_own; eauto).
  split; [|split].
  - unfold App.onAddSection. rewrite Hsel, (current_document_object st props Hc Ht Hs).
    cbn [mbind outcome_bind obind]. rewrite Ho. cbn [App.spread_elements mbind outcome_bind obind].
    unfold App.onChange. cbn [App.step]. rewrite Hsel. reflexivity.
  - unfold App.onRemoveSection. rewrite lookup_insert_eq.
    rewrite (current_document_object (dirty_with added)
               (App.set_prop "sections" (JArr (sections ++ [App.empty_section])) props));
      [|reflexivity|now rewrite has_set_prop, Ht|now rewrite has_set_prop].
    cbn [mbind outcome_bind obind]. rewrite own_set_prop. cbn [String.eqb Ascii.eqb Bool.eqb].
    rewrite remove_at_appended, set_prop_twice by exact Hs.
    rewrite set_prop_same by assumption.
    unfold App.onChange. cbn [App.step]. rewrite lookup_insert_eq. cbn.
    now rewrite insert_insert_eq.
  - intros index Hi. unfold App.onRemoveSection.
    rewrite Hsel, (current_document_object st props Hc Ht Hs).
    cbn [mbind outcome_bind obind]. rewrite Ho, remove_at_outside by exact Hi.
    rewrite set_prop_same by assumption.
    unfold App.onChange. cbn [App.step]. rewrite Hsel. reflexivity.
Qed.

(** X25. Editing one field of one section touches nothing else.  For a
    selected file whose content is an object with a title and a sections
    list, [onUpdateSection] at [index] stores a document with as many
    sections as before; every section at another index is the one that was
    there; the section at [index] is an object in which [key] holds the new
    value (a text or, for a content, a list) and every other key what it
    held; an index the list does not have leaves the sections as they are.
    The file is marked dirty and keeps its [sha]. *)
Theorem update_section (stateByFile : gmap string App.FileState) (selected : string)
    (st : App.FileState) (props : list (string * value)) (sections : list value)
    (index : nat) (key : string) (valueStr : value) :
  stateByFile !! selected = Some st ->
  App.content st = JObj props ->
  App.has "title" props = true -> own "sections" props = Some (JArr sections) ->
  let updated := imap (fun i s => if (i =? index)%nat
                                  then App.with_field key valueStr s else s) sections in
  App.onUpdateSection stateByFile selected index key valueStr
  = Return (<[selected := {| App.content :=
                               JObj (App.set_prop "sections" (JArr updated) props);
                             App.sha := App.sha st; App.dirty := true |}]> stateByFile)
  /\ length updated = length sections
  /\ (forall i, i <> index -> updated !! i = sections !! i)
  /\ (forall s, sections !! index = Some s ->
        exists fields,
          updated !! index = Some (JObj fields)
          /\ own key fields = Some valueStr
          /\ forall k, k <> key -> own k fields = own k (App.spread_properties s))
  /\ (length sections <= index -> updated = sections).
Proof.
  intros Hsel Hc Ht Ho updated.
  assert (Hs : App.has "sections" props = true) by (apply has_own; eauto).
  split; [|split; [|split; [|split]]].
  - unfold App.onUpdateSection.
    rewrite Hsel, (current_document_object st props Hc Ht Hs).
    cbn [mbind outcome_bind obind]. rewrite Ho.
    unfold App.onChange. cbn [App.step]. rewrite Hsel. reflexivity.
  - apply length_imap.
  - intros i Hi. subst updated. rewrite list_lookup_imap.
    destruct (sections !! i) as [s|]; [|reflexivity]. cbn.
    destruct (Nat.eqb_spec i index) as [E|_]; [now elim Hi | reflexivity].
  - intros s Hidx. subst updated. rewrite list_lookup_imap, Hidx. cbn.
    rewrite Nat.eqb_refl. eexists. split; [reflexivity|].
    split.
    + rewrite own_set_prop. now rewrite String.eqb_refl.
    + intros k Hk. rewrite own_set_prop.
      destruct (String.eqb_spec key k) as [E|_]; [now elim Hk | reflexivity].
  - intros Hout. subst updated. apply list_eq. intros i. rewrite list_lookup_imap.
    destruct (sections !! i) as [s|] eqn:Es; [|reflexivity]. cbn.
    apply lookup_lt_Some in Es.
    destruct (Nat.eqb_spec i index) as [E|_]; [lia | reflexivity].
Qed.

End Sections.

(* ================================================================== *)
(** * Pushing from the client to the store *)

Section Push.

Variable cfg : config.

Lemma data_path_inj (a b : string) : "data/" +:+ a = "data/" +:+ b -> a = b.
Proof. cbn. intros H. now injection H. Qed.

(** The payload, entry by entry. *)
Lemma filesPayload_entries (entries : list (string * App.FileState)) (f : file_entry) :
  f ∈ App.filesPayload entries
  <-> exists name v, (name, v) ∈ entries /\ App.dirty v = true
                     /\ f = FileEntry ("data/" +:+ name) (App.content v).
Proof.
  unfold App.filesPayload. rewrite list_elem_of_fmap. split.
  - intros ([name v] & -> & He). apply list_elem_of_In, filter_In in He as [He Hd].
    exists name, v. repeat split; [now apply list_elem_of_In | exact Hd].
  - intros (name & v & He & Hd & ->). exists (name, v). split; [reflexivity|].
    apply list_elem_of_In, filter_In. split; [now apply list_elem_of_In | exact Hd].
Qed.

Lemma filesPayload_paths (entries : list (string * App.FileState)) :
  NoDup (map fst entries) -> NoDup (map path (App.filesPayload entries)).
Proof.
  induction entries as [|[name v] entries IH]; [constructor|].
  cbn [map fst]. intros Hnd. apply NoDup_cons in Hnd as [Hn Hnd].
  unfold App.filesPayload. cbn [List.filter snd].
  destruct (App.dirty v); [|exact (IH Hnd)].
  cbn [map path fst snd]. apply NoDup_cons. split; [|exact (IH Hnd)].
  intros Hin. apply list_elem_of_fmap in Hin as (f & Hp & Hf).
  apply filesPayload_entries in Hf as (name' & v' & He & _ & ->).
  cbn [path] in Hp. apply data_path_inj in Hp. subst name'.
  apply Hn, list_elem_of_fmap. now exists (name, v').
Qed.

Lemma entries_of_state (stateByFile : gmap string App.FileState)
    (entries : list (string * App.FileState)) :
  entries ≡ₚ map_to_list stateByFile ->
  NoDup (map fst entries)
  /\ forall name v, (name, v) ∈ entries <-> stateByFile !! name = Some v.
Proof.
  intros Hp. split.
  - rewrite Hp. apply NoDup_fst_map_to_list.
  - intros name v. rewrite Hp. apply elem_of_map_to_list.
Qed.

Lemma nothing_dirty (entries : list (string * App.FileState)) :
  (forall name v, (name, v) ∈ entries -> App.dirty v = false) ->
  App.filesPayload entries = [].
Proof.
  intros H. destruct (App.filesPayload entries) as [|f l] eqn:E; [reflexivity|].
  assert (Hf : f ∈ App.filesPayload entries) by (rewrite E; apply list_elem_of_here).
  apply filesPayload_entries in Hf as (name & v & He & Hd & _).
  rewrite (H name v He) in Hd. discriminate Hd.
Qed.

(** X26. What a push sends.  The payload has one entry per file that is
    dirty when the push starts and none for a clean one, the path being
    [data/<name>] and the content the one in the buffer; its paths are
    distinct.  When no file is dirty nothing is sent: the buffer and the world
    are left as they are.  When the answer is not a commit, the buffer is left
    as it is, dirty marks included. *)
Theorem push_sends_dirty_files (user : option session_user)
    (stateByFile : gmap string App.FileState) (entries : list (string * App.FileState))
    (prev : gmap string App.FileState) (w : world) :
  entries ≡ₚ map_to_list stateByFile ->
  (forall f, f ∈ App.filesPayload entries
             <-> exists name v, stateByFile !! name = Some v /\ App.dirty v = true
                                /\ f = FileEntry ("data/" +:+ name) (App.content v))
  /\ NoDup (map path (App.filesPayload entries))
  /\ ((forall name v, stateByFile !! name = Some v -> App.dirty v = false) ->
      App.pushChanges cfg user entries prev w = (prev, w))
  /\ ((forall code sha, fst (post_batch cfg user (App.filesPayload entries)
                                (Some "Update files via dashboard") w)
                          <> Return (Response code (BatchOk sha))) ->
      fst (App.pushChanges cfg user entries prev w) = prev).
Proof.
  intros Hp. destruct (entries_of_state _ _ Hp) as [Hnd Hin].
  split; [|split; [|split]].
  - intros f. rewrite filesPayload_entries. setoid_rewrite Hin. reflexivity.
  - now apply filesPayload_paths.
  - intros Hclean. unfold App.pushChanges.
    rewrite nothing_dirty; [reflexivity|].
    intros name v He. apply (Hclean name v). now apply Hin.
  - unfold App.pushChanges.
    destruct (length (App.filesPayload entries) =? 0)%nat; [reflexivity|].
    destruct (post_batch cfg user (App.filesPayload entries)
                (Some "Update files via dashboard") w) as [[[code body]|e] w'];
      [|reflexivity].
    destruct body as [sha0 c nf|sha|err details]; cbn [fst]; try reflexivity.
    intros H. now elim (H code sha).
Qed.

Lemma markClean_clean (v : App.FileState) :
  App.markClean v
  = {| App.content := App.content v; App.sha := App.sha v; App.dirty := false |}.
Proof. unfold App.markClean. destruct v as [c s []]; reflexivity. Qed.

(** X27. A push that is answered with a commit.  The branch of the store
    then points to that commit, in whose tree every file that was dirty when
    the push started holds, at [data/<name>], the text of the content it had
    then.  The update made when the answer arrives marks every file of the
    buffer as it is at that moment clean, with the content and the [sha] it
    has: a file edited while the request was in flight is marked clean with
    its newer content, which was not sent.  Nothing else enters or leaves the
    buffer.  A push started from the resulting state sends nothing and
    changes nothing. *)
Theorem push_commits_dirty_files (user : option session_user)
    (stateByFile : gmap string App.FileState) (entries : list (string * App.FileState))
    (prev : gmap string App.FileState) (w : world) (sha : nat) :
  entries ≡ₚ map_to_list stateByFile ->
  fst (post_batch cfg user (App.filesPayload entries) (Some "Update files via dashboard") w)
  = Return (Response 200 (BatchOk sha)) ->
  let out := App.pushChanges cfg user entries prev w in
  branch (remote (snd out)) = sha
  /\ (forall name v, stateByFile !! name = Some v -> App.dirty v = true ->
        exists b, file_at (remote (snd out)) sha ("data/" +:+ name)
                  = Some (b, stringify_indent 0 (App.content v)))
  /\ (forall name,
        fst out !! name
        = (fun v => {| App.content := App.content v; App.sha := App.sha v;
                       App.dirty := false |}) <$> prev !! name)
  /\ (forall entries' prev' w', entries' ≡ₚ map_to_list (fst out) ->
        App.pushChanges cfg user entries' prev' w' = (prev', w')).
Proof.
  intros Hp Hok out.
  destruct (entries_of_state _ _ Hp) as [Hnd Hin].
  destruct (post_batch_success _ _ _ _ _ _ Hok) as (_ & _ & _ & Hne & _ & _).
  destruct (post_batch_committed _ _ _ _ _ _ Hok (filesPayload_paths _ Hnd))
    as [Hbranch Hfiles].
  assert (Eout : out = (App.step prev App.Pushed,
                        snd (post_batch cfg user (App.filesPayload entries)
                               (Some "Update files via dashboard") w))).
  { subst out. unfold App.pushChanges.
    destruct (Nat.eqb_spec (length (App.filesPayload entries)) 0) as [Hz|_].
    - now destruct (App.filesPayload entries).
    - destruct (post_batch cfg user (App.filesPayload entries)
                  (Some "Update files via dashboard") w) as [r w'].
      cbn [fst] in Hok. subst r. reflexivity. }
  rewrite Eout. cbn [fst snd].
  split; [exact Hbranch|]. split; [|split].
  - intros name v Hv Hd.
    destruct (Hfiles (FileEntry ("data/" +:+ name) (App.content v))) as [b Hb].
    + apply filesPayload_entries. exists name, v. split; [now apply Hin | now split].
    + now exists b.
  - intros name. cbn [App.step]. rewrite lookup_fmap.
    destruct (prev !! name) as [v|]; [|reflexivity]. cbn.
    now rewrite markClean_clean.
  - intros entries' prev' w' Hp'.
    destruct (entries_of_state _ _ Hp') as [_ Hin'].
    unfold App.pushChanges. rewrite nothing_dirty; [reflexivity|].
    intros name v He. apply Hin' in He. cbn [App.step] in He.
    rewrite lookup_fmap in He.
    destruct (prev !! name) as [v0|]; [|discriminate He].
    cbn in He. injection He as <-. now rewrite markClean_clean.
Qed.

End Push.

Lemma uniqueTimes_removes_repeats_witness :
  NoDup (App.uniqueTimes
           [{| App.locationId := "hull"; App.datetime := "2030-01-05T10:00:00" |};
            {| App.locationId := "york"; App.datetime := "2030-01-06T10:00:00" |};
            {| App.locationId := "hull"; App.datetime := "2030-01-05T10:00:00" |}]).
Proof.
  apply (uniqueTimes_removes_repeats
           [{| App.locationId := "hull"; App.datetime := "2030-01-05T10:00:00" |};
            {| App.locationId := "york"; App.datetime := "2030-01-06T10:00:00" |};
            {| App.locationId := "hull"; App.datetime := "2030-01-05T10:00:00" |}]).
  repeat constructor.
Defined.

Lemma uniqueTimes_fixed_witness :
  App.uniqueTimes
    [{| App.locationId := "hull"; App.datetime := "2030-01-05T10:00:00" |};
     {| App.locationId := "york"; App.datetime := "2030-01-06T10:00:00" |}]
  = [{| App.locationId := "hull"; App.datetime := "2030-01-05T10:00:00" |};
     {| App.locationId := "york"; App.datetime := "2030-01-06T10:00:00" |}].
Proof.
  destruct (uniqueTimes_fixed
              [{| App.locationId := "hull"; App.datetime := "2030-01-05T10:00:00" |};
               {| App.locationId := "york"; App.datetime := "2030-01-06T10:00:00" |}])
    as [H _].
  apply H. vm_compute. distinct_literals.
Defined.

Lemma add_then_remove_section_witness :
  let doc := JObj [("title", JStr "About"); ("sections", JArr [JStr "a"])] in
  let st := {| App.content := doc; App.sha := Some 1; App.dirty := false |} in
  App.onRemoveSection
    (<[ "about.json" :=
          {| App.content :=
               JObj [("title", JStr "About");
                     ("sections", JArr [JStr "a"; App.empty_section])];
             App.sha := Some 1; App.dirty := true |} ]> {[ "about.json" := st ]})
    "about.json" 1
  = Return (<[ "about.json" := {| App.content := doc; App.sha := Some 1;
                                   App.dirty := true |} ]> {[ "about.json" := st ]}).
Proof.
  intros doc st.
  destruct (add_then_remove_section {[ "about.json" := st ]} "about.json" st
              [("title", JStr "About"); ("sections", JArr [JStr "a"])] [JStr "a"])
    as (_ & H & _).
  - apply lookup_singleton_eq.
  - reflexivity.
  - vm_compute. distinct_literals.
  - reflexivity.
  - reflexivity.
  - exact H.
Defined.

Lemma update_section_witness :
  let doc := JObj [("title", JStr "About");
                   ("sections", JArr [JObj [("heading", JStr "Old"); ("content", JStr "c")]])] in
  let st := {| App.content := doc; App.sha := Some 1; App.dirty := false |} in
  let items := JArr [JStr "one"; JStr "two"] in
  App.onUpdateSection {[ "about.json" := st ]} "about.json" 0 "content" items
  = Return (<[ "about.json" :=
                 {| App.content :=
                      JObj [("title", JStr "About");
                            ("sections",
                             JArr [JObj [("heading", JStr "Old"); ("content", items)]])];
                    App.sha := Some 1; App.dirty := true |} ]> {[ "about.json" := st ]}).
Proof.
  intros doc st items.
  destruct (update_section {[ "about.json" := st ]} "about.json" st
              [("title", JStr "About");
               ("sections", JArr [JObj [("heading", JStr "Old"); ("content", JStr "c")]])]
              [JObj [("heading", JStr "Old"); ("content", JStr "c")]] 0 "content" items)
    as (H & _).
  - apply lookup_singleton_eq.
  - reflexivity.
  - reflexivity.
  - reflexivity.
  - exact H.
Defined.

Lemma push_sends_dirty_files_witness :
  let state : gmap string App.FileState :=
    {[ "locations.json" := {| App.content := JArr [JNull]; App.sha := None;
                              App.dirty := true |} ]} in
  NoDup (map path (App.filesPayload (map_to_list state))).
Proof.
  intros state.
  destruct (push_sends_dirty_files example_config example_user state (map_to_list state)
              state (World example_store [] []))
    as (_ & H & _).
  - reflexivity.
  - exact H.
Defined.

Lemma push_commits_dirty_files_witness :
  let sent := {| App.content := JArr [JNull]; App.sha := None; App.dirty := true |} in
  let edited := {| App.content := JArr [JNull; JNull]; App.sha := None;
                   App.dirty := true |} in
  let state : gmap string App.FileState := {[ "locations.json" := sent ]} in
  let prev : gmap string App.FileState := {[ "locations.json" := edited ]} in
  let out := App.pushChanges example_config example_user (map_to_list state) prev
               (World example_store [] []) in
  branch (remote (snd out)) = 4
  /\ (exists b, file_at (remote (snd out)) 4 "data/locations.json"
                = Some (b, stringify_indent 0 (JArr [JNull])))
  /\ fst out !! "locations.json"
     = Some {| App.content := JArr [JNull; JNull]; App.sha := None; App.dirty := false |}.
Proof.
  intros sent edited state prev out.
  destruct (push_commits_dirty_files example_config example_user state (map_to_list state)
              prev (World example_store [] []) 4)
    as (Hb & Hf & Hc & _).
  - reflexivity.
  - vm_compute. reflexivity.
  - split; [exact Hb|]. split.
    + apply (Hf "locations.json" sent); [apply lookup_singleton_eq | reflexivity].
    + specialize (Hc "locations.json"). unfold prev in Hc at 2.
      rewrite lookup_singleton_eq in Hc. exact Hc.
Defined.

(* ================================================================== *)
(** * The filter of [times.json] at load *)

Section TimesFilter.

Variable c : App.clock.




End TimesFilter.


(* ================================================================== *)
(** * Locations and their times *)

Section Locations.

Lemma set_has_spec (i : string) (ids : list string) :
  App.set_has i ids = true <-> i ∈ ids.
Proof.
  unfold App.set_has. rewrite existsb_exists. split.
  - intros (j & Hj & E). apply String.eqb_eq in E as ->. now apply list_elem_of_In.
  - intros H. exists i. split; [now apply list_elem_of_In | apply String.eqb_refl].
Qed.

Lemma filter_same_length {A} (f : A -> bool) (l : list A) :
  length (List.filter f l) = length l -> List.filter f l = l.
Proof.
  induction l as [|x l IH]; [reflexivity|]. cbn [List.filter].
  pose proof (List.filter_length_le f l) as Hle.
  destruct (f x); cbn [length]; intros H; [f_equal; apply IH; lia | lia].
Qed.

Lemma filter_sublist {A} (f : A -> bool) (l : list A) : sublist (List.filter f l) l.
Proof.
  induction l as [|x l IH]; [constructor|]. cbn [List.filter].
  destruct (f x); [now apply sublist_skip | now apply sublist_cons].
Qed.

(** X29. Removing a location removes the times that refer to it.  When the
    locations editor sends a new list, [locations.json] takes that list,
    sorted, and is marked dirty.  A loaded [times.json] keeps, in their
    order, exactly the entries whose location is not a removed one, a removed
    location being an id of the old list that is not in the new one; it is
    marked dirty when an entry went, and is otherwise left as it was,
    [sha] included. *)
Theorem removed_locations_take_their_times
    (sortLocations : list App.LocationEntry -> list App.LocationEntry)
    (prevLocations : option (App.FileOf App.LocationEntry))
    (prevTimes : option (App.FileOf App.TimeEntry))
    (next : list App.LocationEntry) (t : App.FileOf App.TimeEntry) :
  (forall l, sortLocations l ≡ₚ l) ->
  prevTimes = Some t ->
  let prevLocs := match prevLocations with Some f => App.content_of f | None => [] end in
  let out := App.onLocationsChange sortLocations prevLocations prevTimes next in
  let removed i := i ∈ map App.id prevLocs /\ i ∉ map App.id next in
  App.content_of (fst out) ≡ₚ next
  /\ App.dirty_of (fst out) = true
  /\ exists t',
       snd out = Some t'
       /\ App.sha_of t' = App.sha_of t
       /\ sublist (App.content_of t') (App.content_of t)
       /\ (forall e, e ∈ App.content_of t'
                     <-> e ∈ App.content_of t /\ ~ removed (App.locationId e))
       /\ (t' = t
           \/ (App.dirty_of t' = true
               /\ length (App.content_of t') < length (App.content_of t))).
Proof.
  intros Hsort -> prevLocs out removed. subst out. unfold App.onLocationsChange.
  fold prevLocs. cbn [fst snd App.content_of App.dirty_of].
  split; [apply Hsort|]. split; [reflexivity|].
  set (removedIds := List.filter
         (fun i => negb (App.set_has i (map App.id (sortLocations next))))
         (map App.id prevLocs)).
  assert (Hrem : forall i, i ∈ removedIds <-> removed i).
  { intros i. subst removedIds. unfold removed.
    rewrite list_elem_of_In, filter_In, <- list_elem_of_In, negb_true_iff.
    rewrite <- not_true_iff_false, set_has_spec, (Hsort next). reflexivity. }
  set (filteredTimes := List.filter
         (fun e => negb (App.set_has (App.locationId e) removedIds)) (App.content_of t)).
  assert (Hfil : forall e, e ∈ filteredTimes
                           <-> e ∈ App.content_of t /\ ~ removed (App.locationId e)).
  { intros e. subst filteredTimes.
    rewrite list_elem_of_In, filter_In, <- list_elem_of_In, negb_true_iff.
    rewrite <- not_true_iff_false, set_has_spec, Hrem. reflexivity. }
  destruct (Nat.ltb_spec 0 (length removedIds)) as [Hlt|Hz].
  - destruct (Nat.eqb_spec (length filteredTimes) (length (App.content_of t))) as [E|Hne];
      cbn [negb].
    + exists t. split; [reflexivity|]. split; [reflexivity|]. split; [reflexivity|].
      split; [|now left].
      apply filter_same_length in E. fold filteredTimes in E.
      intros e. rewrite <- Hfil, E. reflexivity.
    + eexists. split; [reflexivity|]. cbn [App.sha_of App.content_of App.dirty_of].
      split; [reflexivity|]. split; [apply filter_sublist|]. split; [exact Hfil|].
      right. split; [reflexivity|].
      pose proof (List.filter_length_le
                    (fun e => negb (App.set_has (App.locationId e) removedIds))
                    (App.content_of t)). fold filteredTimes in H. lia.
  - exists t. split; [reflexivity|]. split; [reflexivity|]. split; [reflexivity|].
    split; [|now left].
    intros e. split; [|now intros [He _]].
    intros He. split; [exact He|]. intros Hr. apply Hrem in Hr.
    destruct removedIds; [now apply elem_of_nil in Hr | cbn in Hz; lia].
Qed.

End Locations.

(* ================================================================== *)
(** * New location ids *)

Section UniqueId.

Variable base : string.
Variable taken : gset string.

Local Abbreviation cand := (App.candidate base).

Lemma append_longer (a b : string) : b <> EmptyString -> a <> a +:+ b.
Proof.
  intros Hb E. apply (f_equal String.length) in E. rewrite append_length in E.
  destruct b; [now elim Hb | cbn in E; lia].
Qed.

Lemma cand_inj (j k : nat) : cand j = cand k -> j = k.
Proof.
  unfold App.candidate.
  destruct (Nat.eqb_spec j 1) as [->|Hj], (Nat.eqb_spec k 1) as [->|Hk]; intros E.
  - reflexivity.
  - now apply append_longer in E.
  - symmetry in E. now apply append_longer in E.
  - apply append_inj_l in E. cbn in E. injection E as E. now apply dec_inj.
Qed.

(** At most as many candidates are taken as there are taken ids. *)
Lemma taken_candidates (n : nat) :
  (forall j, 1 <= j -> j <= n -> cand j ∈ taken) -> n <= size taken.
Proof.
  intros H.
  assert (Hnd : NoDup (map cand (seq 1 n))).
  { apply NoDup_fmap_2_strong; [|apply NoDup_seq].
    intros j k _ _ E. now apply cand_inj. }
  rewrite <- (length_seq n 1), <- (length_map cand).
  rewrite <- (size_list_to_set (C := gset string)) by exact Hnd.
  apply subseteq_size. intros c Hc. apply elem_of_list_to_set in Hc.
  apply list_elem_of_fmap in Hc as (k & -> & Hk). apply elem_of_seq in Hk.
  apply H; lia.
Qed.

(** The loop ends, on the first candidate that is not taken. *)
Lemma next_candidate_ends (fuel : nat) : forall i,
  2 <= i ->
  (forall j, 1 <= j -> j < i - 1 -> cand j ∈ taken) ->
  size taken <= fuel + (i - 2) ->
  exists k, i - 1 <= k
            /\ App.next_candidate fuel taken base i (cand (i - 1)) = Some (cand k)
            /\ (cand k ∉ taken)
            /\ forall j, 1 <= j -> j < k -> cand j ∈ taken.
Proof.
  induction fuel as [|fuel IH]; intros i Hi Hbefore Hsize;
    cbn [App.next_candidate];
    destruct (decide (cand (i - 1) ∈ taken)) as [Hin|Hnin];
    try (exists (i - 1); repeat split; [lia | assumption | assumption]).
  - assert (i - 1 <= size taken); [|lia].
    apply taken_candidates. intros j H1 Hj.
    destruct (decide (j = i - 1)) as [->|Hne]; [exact Hin | apply Hbefore; lia].
  - destruct (IH (S i)) as (k & Hk & Hrun & Hfree & Hall).
    + lia.
    + intros j H1 Hj. replace (S i - 1) with i in Hj by lia.
      destruct (decide (j = i - 1)) as [->|Hne]; [exact Hin | apply Hbefore; lia].
    + lia.
    + exists k. replace (S i - 1) with i in * by lia.
      unfold App.candidate in Hrun at 1.
      destruct (Nat.eqb_spec i 1) as [E|_]; [lia|].
      split; [lia|]. split; [exact Hrun|]. split; [exact Hfree | exact Hall].
Qed.

End UniqueId.

Lemma size_list_to_set_le (l : list string) : size (list_to_set l : gset string) <= length l.
Proof.
  induction l as [|x l IH];
    [change (size (∅ : gset string) <= 0); now rewrite size_empty|].
  cbn [list_to_set length]. rewrite size_union_alt, size_singleton.
  assert (Hle : size (list_to_set l ∖ {[x]} : gset string)
                <= size (list_to_set l : gset string)).
  { apply subseteq_size. apply subseteq_difference_l. reflexivity. }
  lia.
Qed.

Lemma dashed_not_empty (a b : string) : String.eqb (a +:+ "-" +:+ b) EmptyString = false.
Proof. now destruct a. Qed.

(** X30. [generateUniqueId] ends and returns an id that is free.  With as
    many rounds as there are locations the loop always ends.  The id it
    returns is the first of the base, base-2, base-3, ... that no existing
    location has: every candidate before it is taken and it is not.  The base
    holds a dash whatever the two slugs are, so the id is never empty. *)
Theorem generateUniqueId_fresh (slugify : string -> string) (fuel : nat)
    (existing : list App.LocationEntry) (location venue : string) :
  length existing <= fuel ->
  let base := slugify location +:+ "-" +:+ slugify venue in
  exists k,
    1 <= k
    /\ App.generateUniqueId slugify fuel existing location venue
       = Some (App.candidate base k)
    /\ (App.candidate base k ∉ map App.id existing)
    /\ App.candidate base k <> EmptyString
    /\ forall j, 1 <= j -> j < k -> App.candidate base j ∈ map App.id existing.
Proof.
  intros Hfuel base. unfold App.generateUniqueId. fold base.
  unfold base at 1. rewrite dashed_not_empty. fold base.
  destruct (next_candidate_ends base (list_to_set (map App.id existing)) fuel 2)
    as (k & Hk & Hrun & Hfree & Hall).
  - lia.
  - intros j H1 Hj. lia.
  - pose proof (size_list_to_set_le (map App.id existing)) as Hs.
    rewrite length_map in Hs. lia.
  - exists k. split; [lia|]. split; [exact Hrun|]. split; [|split].
    + intros Hin. apply Hfree. now rewrite elem_of_list_to_set.
    + unfold App.candidate. destruct (k =? 1)%nat.
      * intros E. apply (f_equal (fun s => String.eqb s EmptyString)) in E.
        unfold base in E. now rewrite dashed_not_empty in E.
      * intros E. apply (f_equal String.length) in E. rewrite append_length in E.
        cbn in E. lia.
    + intros j H1 Hj. specialize (Hall j H1 Hj). now rewrite elem_of_list_to_set in Hall.
Qed.

Lemma generateUniqueId_fresh_witness :
  let existing := [{| App.id := "hull-royal"; App.location := "Hull"; App.venue := "Royal";
                      App.lat := "53.7"; App.lng := "-0.3" |}] in
  App.generateUniqueId (fun s => s) 1 existing "hull" "royal" = Some "hull-royal-2"
  /\ exists k,
       1 <= k
       /\ App.generateUniqueId (fun s => s) 1 existing "hull" "royal"
          = Some (App.candidate "hull-royal" k)
       /\ (App.candidate "hull-royal" k ∉ map App.id existing)
       /\ App.candidate "hull-royal" k <> EmptyString
       /\ forall j, 1 <= j -> j < k -> App.candidate "hull-royal" j ∈ map App.id existing.
Proof.
  intros existing. split; [reflexivity|].
  apply (generateUniqueId_fresh (fun s => s) 1 existing "hull" "royal").
  cbn. lia.
Defined.

Lemma removed_locations_take_their_times_witness :
  let hull := {| App.id := "hull"; App.location := "Hull"; App.venue := "Royal";
                 App.lat := "53.7"; App.lng := "-0.3" |} in
  let york := {| App.id := "york"; App.location := "York"; App.venue := "Station";
                 App.lat := "53.9"; App.lng := "-1.1" |} in
  let at_hull := {| App.locationId := "hull"; App.datetime := "2030-01-05T10:00:00" |} in
  let at_york := {| App.locationId := "york"; App.datetime := "2030-01-06T10:00:00" |} in
  snd (App.onLocationsChange (fun l => l)
         (Some {| App.content_of := [hull; york]; App.sha_of := Some 1;
                  App.dirty_of := false |})
         (Some {| App.content_of := [at_hull; at_york]; App.sha_of := Some 2;
                  App.dirty_of := false |})
         [york])
  = Some {| App.content_of := [at_york]; App.sha_of := Some 2; App.dirty_of := true |}.
Proof.
  intros hull york at_hull at_york.
  destruct (removed_locations_take_their_times (fun l => l)
              (Some {| App.content_of := [hull; york]; App.sha_of := Some 1;
                       App.dirty_of := false |})
              (Some {| App.content_of := [at_hull; at_york]; App.sha_of := Some 2;
                       App.dirty_of := false |})
              [york]
              {| App.content_of := [at_hull; at_york]; App.sha_of := Some 2;
                 App.dirty_of := false |})
    as (_ & _ & t' & H & _).
  - reflexivity.
  - reflexivity.
  - rewrite H. vm_compute in H. injection H as <-. reflexivity.
Defined.
